(** * Restore engine of clickhouse-backup: model and properties

    Shallow embedding of [pkg/backup/restore.go] and
    [pkg/filesystemhelper/filesystemhelper.go].

    Conventions.
    - Go strings are byte strings: Rocq [string].
    - [map[string]struct{}] ([common.EmptyMap]) is a [gset string];
      [map[string]T] is a [gmap string T].  Go leaves the iteration order
      of a map unspecified; where the source ranges over a map the model
      uses stdpp's enumeration and the properties proved do not depend on
      the order.
    - The database client ([pkg/clickhouse]), the operating system and the
      other packages that are not part of the two files are interfaces
      (type classes) over an abstract world.
    - Only warnings and errors sent to the logger are recorded. *)

From Stdlib Require Import Ascii String.
From stdpp Require Import base option list strings gmap sets pretty.

Local Open Scope string_scope.

(** ** The part of Go's [strings] package used by the source *)

Module strings.

Fixpoint HasPrefix (s prefix : string) {struct prefix} : bool :=
  match prefix, s with
  | EmptyString, _ => true
  | String _ _, EmptyString => false
  | String p prefix', String c s' =>
      if Ascii.eqb p c then HasPrefix s' prefix' else false
  end.

Fixpoint drop (n : nat) (s : string) : string :=
  match n, s with
  | O, _ => s
  | S _, EmptyString => EmptyString
  | S n', String _ s' => drop n' s'
  end.

Definition TrimPrefix (s prefix : string) : string :=
  if HasPrefix s prefix then drop (String.length prefix) s else s.

Fixpoint rev_acc (s acc : string) : string :=
  match s with
  | EmptyString => acc
  | String c s' => rev_acc s' (String c acc)
  end.

Definition rev (s : string) : string := rev_acc s EmptyString.

Definition HasSuffix (s suffix : string) : bool :=
  HasPrefix (rev s) (rev suffix).

Definition TrimSuffix (s suffix : string) : string :=
  if HasSuffix s suffix
  then rev (drop (String.length suffix) (rev s))
  else s.

Fixpoint inCutset (c : ascii) (cutset : string) : bool :=
  match cutset with
  | EmptyString => false
  | String d cutset' => if Ascii.eqb c d then true else inCutset c cutset'
  end.

Fixpoint TrimLeft (s cutset : string) : string :=
  match s with
  | EmptyString => EmptyString
  | String c s' => if inCutset c cutset then TrimLeft s' cutset else s
  end.

Fixpoint TrimRight (s cutset : string) : string :=
  match s with
  | EmptyString => EmptyString
  | String c s' =>
      match TrimRight s' cutset with
      | EmptyString => if inCutset c cutset then EmptyString else String c EmptyString
      | r => String c r
      end
  end.

Definition Trim (s cutset : string) : string :=
  TrimRight (TrimLeft s cutset) cutset.

Definition consHead (c : ascii) (l : list string) : list string :=
  match l with
  | [] => [String c EmptyString]
  | h :: t => String c h :: t
  end.

(** [splitAux sep skip s]: the pieces of [s] between occurrences of the
    non-empty separator [sep]; [skip] bytes of a separator already
    matched are still to be passed over. *)
Fixpoint splitAux (sep : string) (skip : nat) (s : string) : list string :=
  match s with
  | EmptyString => [EmptyString]
  | String c s' =>
      match skip with
      | S k => splitAux sep k s'
      | O =>
          if HasPrefix s sep
          then EmptyString :: splitAux sep (String.length sep - 1) s'
          else consHead c (splitAux sep 0 s')
      end
  end.

Fixpoint explode (s : string) : list string :=
  match s with
  | EmptyString => []
  | String c s' => String c EmptyString :: explode s'
  end.

(** [strings.Split(s, sep)].  With an empty separator Go splits after
    each UTF-8 sequence; the model splits after each byte (the source
    never passes an empty separator). *)
Definition Split (s sep : string) : list string :=
  match sep with
  | EmptyString => explode s
  | _ => splitAux sep 0 s
  end.

Fixpoint Contains (s substr : string) : bool :=
  if HasPrefix s substr then true
  else match s with
       | EmptyString => false
       | String _ s' => Contains s' substr
       end.

(** [strings.Replace(s, old, new, 1)]: the leftmost occurrence of [old]
    is replaced by [new]. *)
Fixpoint Replace1 (s old new : string) : string :=
  if HasPrefix s old then new +:+ drop (String.length old) s
  else match s with
       | EmptyString => EmptyString
       | String c s' => String c (Replace1 s' old new)
       end.

Fixpoint Join (elems : list string) (sep : string) : string :=
  match elems with
  | [] => EmptyString
  | [e] => e
  | e :: rest => e +:+ sep +:+ Join rest sep
  end.

(** [splitNAux sep n skip s]: as [splitAux], for at most [n] pieces; the
    last piece is the rest of [s]. *)
Fixpoint splitNAux (sep : string) (n : nat) (skip : nat) (s : string) : list string :=
  match s with
  | EmptyString => [EmptyString]
  | String c s' =>
      match skip with
      | S k => splitNAux sep n k s'
      | O =>
          match n with
          | O => [s]
          | S O => [s]
          | S n' =>
              if HasPrefix s sep
              then EmptyString :: splitNAux sep n' (String.length sep - 1) s'
              else consHead c (splitNAux sep n 0 s')
          end
      end
  end.

(** [strings.SplitN(s, sep, n)] for a separator that is not empty and
    [n >= 0]. *)
Definition SplitN (s sep : string) (n : nat) : list string :=
  match n with
  | O => []
  | _ => splitNAux sep n 0 s
  end.

End strings.

Arguments strings.Split : simpl never.
Arguments strings.Trim : simpl never.

(** ** Errors

  An [error] is what Go's [error] interface lets the source observe:
  its message and, through [os.IsExist] and [os.IsNotExist], the system
  error number it carries. *)

Inductive Errno := ENOENT | EEXIST | ENOTEMPTY | ENOTDIR | EACCES | EPERM | EIO.

Inductive error :=
| SysError (no : Errno) (text : string)     (* *PathError, *LinkError, ... *)
| ErrorString (text : string)               (* errors.New, fmt.Errorf without %w *)
| WrapError (text : string) (inner : error) (* fmt.Errorf with %w *).

Definition Error (e : error) : string :=
match e with
| SysError _ text => text
| ErrorString text => text
| WrapError text _ => text
end.

Module os.
(** [os.IsExist] and [os.IsNotExist] look through the os error wrappers
    only, not through [%w]. *)
Definition IsExist (e : error) : bool :=
  match e with
  | SysError EEXIST _ | SysError ENOTEMPTY _ => true
  | _ => false
  end.

Definition IsNotExist (e : error) : bool :=
  match e with
  | SysError ENOENT _ => true
  | _ => false
  end.
End os.

Module fmt.
(** [fmt.Errorf] with the format already expanded to [text]. *)
Definition Errorf (text : string) : error := ErrorString text.
(** [fmt.Errorf] whose format ends in [: %w]. *)
Definition Errorfw (text : string) (inner : error) : error :=
  WrapError (text +:+ Error inner) inner.
(** [%d] of a non-negative [int]. *)
Definition d (n : nat) : string := pretty n.
End fmt.

(** ** Data model *)

Module metadata.
Record Part := { PartName : string }.

Record TableMetadata := {
  Table : string;
  Database : string;
  Parts : gmap string (list Part);
  Query : string;
}.

Record TableTitle := { TitleDatabase : string; TitleTable : string }.

Record DatabasesMeta := { DbName : string; DbQuery : string }.
Record FunctionsMeta := { FnName : string; FnCreateQuery : string }.

Record BackupMetadata := {
  Databases : list DatabasesMeta;
  Tables : list TableTitle;
  Functions : list FunctionsMeta;
}.
End metadata.

Module clickhouse.
(** The fields of [clickhouse.Table] and [clickhouse.Disk] that the two
    files read. *)
Record Table := {
  Database : string;
  Name : string;
  CreateTableQuery : string;
  DataPaths : list string;
}.

Record Disk := { DiskName : string; DiskPath : string; DiskType : string }.
End clickhouse.

Inductive LogLevel := WarnLevel | ErrorLevel.
Record LogEntry := { level : LogLevel; message : string }.

(** ** Go's [path.Join] and [filepath.Join] (Unix) *)

Module path.

(** One step of [Clean] over the elements of a path, [stack] holding the
    elements kept so far, last one first. *)
Definition cleanStep (rooted : bool) (stack : list string) (elem : string) : list string :=
  if decide (elem = "") then stack
  else if decide (elem = ".") then stack
  else if decide (elem = "..") then
    match stack with
    | [] => if rooted then [] else [".."]
    | top :: below => if decide (top = "..") then ".." :: stack else below
    end
  else elem :: stack.

Definition Clean (p : string) : string :=
  if decide (p = "") then "."
  else
    let rooted := strings.HasPrefix p "/" in
    let elems := rev (foldl (cleanStep rooted) [] (strings.Split p "/")) in
    let body := strings.Join elems "/" in
    if rooted then "/" +:+ body
    else if decide (body = "") then "." else body.

Definition Join (elem : list string) : string :=
  match filter (fun e => e ≠ "") elem with
  | [] => ""
  | nonEmpty => Clean (strings.Join nonEmpty "/")
  end.

End path.

(** ** State, results and the interfaces of the environment *)

Record FileInfo := {
  IsDir : bool;
  IsRegular : bool;    (* info.Mode().IsRegular() *)
  StatUid : nat;       (* info.Sys().( *syscall.Stat_t).Uid *)
  StatGid : nat;
  Size : Z;            (* info.Size() *)
}.

(** One call of the function given to [filepath.Walk].  [visitInfo] is
    nil when [Lstat] failed; using it then panics. *)
Record Visit := {
  visitPath : string;
  visitInfo : option FileInfo;
  visitErr : option error;
}.

(** The fields of the configuration the restore reads or writes. *)
Record Config := {
  RestoreDatabaseMapping : gmap string string;   (* cfg.General *)
  RestoreSchemaOnCluster : string;               (* cfg.General *)
  UseEmbeddedBackupRestore : bool;               (* cfg.ClickHouse *)
  EmbeddedBackupDisk : string;                   (* cfg.ClickHouse *)
  RestartCommand : string;                       (* ch.Config *)
  ConfigDir : string;                            (* ch.Config *)
}.

(** The state a restore runs in: the world (database server, file system,
    processes), the configuration behind [b.cfg], the package variables
    [uid], [gid] and [chownLock] of filesystemhelper, and the log. *)
Record State (W : Type) := {
  world : W;
  cfg : Config;
  uid : option nat;
  gid : option nat;
  chownLock : bool;
  logs : list LogEntry;
}.
Arguments world {W}.
Arguments cfg {W}.
Arguments uid {W}.
Arguments gid {W}.
Arguments chownLock {W}.
Arguments logs {W}.

(** A call returns a value and a state, blocks for ever on [chownLock],
    panics, or (in the model only) runs out of the fuel given to a loop. *)
Inductive Result (W A : Type) :=
| Ret (a : A) (s : State W)
| Blocked
| Panic
| OutOfFuel.
Arguments Ret {W A}.
Arguments Blocked {W A}.
Arguments Panic {W A}.
Arguments OutOfFuel {W A}.

Definition M (W A : Type) : Type := State W -> Result W A.

Definition ret {W A} (a : A) : M W A := fun s => Ret a s.

Definition bind {W A B} (m : M W A) (k : A -> M W B) : M W B :=
  fun s => match m s with
           | Ret a s' => k a s'
           | Blocked => Blocked
           | Panic => Panic
           | OutOfFuel => OutOfFuel
           end.

Declare Scope go_scope.
Delimit Scope go_scope with go.
Notation "x <- m ;; k" := (bind m (fun x => k))
  (at level 100, m at next level, right associativity) : go_scope.
Notation "m ;;; k" := (bind m (fun _ => k))
  (at level 100, right associativity) : go_scope.
(** [if err := m; err != nil { return err }] followed by [k] *)
Notation "'check' m ;; k" :=
  (bind m (fun r => match r with Some e => ret (Some e) | None => k end))
  (at level 100, m at next level, right associativity) : go_scope.
Local Open Scope go_scope.

Definition withWorld {W A} (f : W -> A * W) : M W A :=
  fun s => let '(a, w) := f (world s) in
           Ret a {| world := w; cfg := cfg s; uid := uid s; gid := gid s;
                    chownLock := chownLock s; logs := logs s |}.

Definition readWorld {W A} (f : W -> A) : M W A :=
  fun s => Ret (f (world s)) s.

Definition getCfg {W} : M W Config := fun s => Ret (cfg s) s.

Definition setCfg {W} (c : Config) : M W unit :=
  fun s => Ret tt {| world := world s; cfg := c; uid := uid s; gid := gid s;
                     chownLock := chownLock s; logs := logs s |}.

Definition logf {W} (l : LogLevel) (text : string) : M W unit :=
  fun s => Ret tt {| world := world s; cfg := cfg s; uid := uid s; gid := gid s;
                     chownLock := chownLock s;
                     logs := logs s ++ [ {| level := l; message := text |} ] |}.

Definition Warnf {W} (text : string) : M W unit := logf WarnLevel text.

(** The operating system, as the two files use it. *)
Class OperatingSystem (W : Type) := {
  os_Getuid : W -> nat;
  os_Stat : W -> string -> error + FileInfo;
  os_Lstat : W -> string -> error + FileInfo;
  os_MkdirAll : string -> W -> option error * W;           (* mode 0750 *)
  os_Chown : string -> nat -> nat -> W -> option error * W;
  os_Link : string -> string -> W -> option error * W;
  os_ReadFile : W -> string -> error + string;
  os_Create : string -> W -> option error * W;             (* os.Create and Close *)
  os_Remove : string -> W -> option error * W;
  os_Rename : string -> string -> W -> option error * W;
  (** the calls [filepath.Walk(root, fn)] makes to [fn], in order, as
      long as [fn] returns nil; the walked tree is read when the walk
      starts *)
  filepath_Walk_visits : W -> string -> list Visit;
  filepathx_Glob : W -> string -> error + list string;
  (** [recursiveCopy.Copy] with [OnDirExists] merging *)
  recursiveCopy_Copy : string -> string -> W -> option error * W;
  shellwords_Parse : string -> error + list string;
  (** [exec.CommandContext(ctx, cmd...).CombinedOutput()], 180 s at most *)
  exec_CombinedOutput : list string -> W -> option error * W;
}.

(** The database client [*clickhouse.ClickHouse] ([b.ch]). *)
Class ClickHouse (W : Type) := {
  ch_Connect : W -> option error * W;
  ch_Close : W -> unit * W;
  ch_GetDisks : W -> error + list clickhouse.Disk;
  ch_GetDefaultPath : W -> list clickhouse.Disk -> error + string;
  (** the path and the error: both are read by [Restore] *)
  ch_GetEmbeddedBackupPath : W -> list clickhouse.Disk -> string * option error;
  ch_ApplyMacros : W -> string -> string * option error;
  ch_GetVersion : W -> error + nat;
  ch_GetTables : W -> string -> error + list clickhouse.Table;
  ch_GetAccessManagementPath : W -> error + string;
  ch_IsClickhouseShadow : W -> string -> bool;
  ch_GetBackupTablesLegacy : W -> string -> list clickhouse.Disk
                             -> error + list metadata.TableMetadata;
  ch_QueryContext : string -> W -> option error * W;
  ch_CreateDatabase : string -> string -> W -> option error * W;
  ch_CreateDatabaseFromQuery : string -> string -> W -> option error * W;
  ch_CreateUserDefinedFunction : string -> string -> string -> W -> option error * W;
  (** [CreateTable(table, query, dropTable, ignoreDependencies, onCluster, version)] *)
  ch_CreateTable : string * string -> string -> bool -> bool -> string -> nat
                   -> W -> option error * W;
  (** [DropTable(table, query, onCluster, ignoreDependencies, version)] *)
  ch_DropTable : string * string -> string -> string -> bool -> nat
                 -> W -> option error * W;
  ch_AttachPartitions : metadata.TableMetadata -> list clickhouse.Disk
                        -> W -> option error * W;
  (** [Select(&restoreResults, restoreSQL, disk, backupName)]: the
      statuses of the rows read *)
  ch_Select_SystemBackups : string -> string -> string -> W -> (error + list string) * W;
  (** [partition.GetPartitionId(ch, database, table, createQuery, tuple)] *)
  partition_GetPartitionId : W -> string -> string -> string -> string
                             -> option error * string;
  (** [clickhouse.GetDisksByPaths(disks, dataPaths)] *)
  clickhouse_GetDisksByPaths : list clickhouse.Disk -> list string -> gmap string string;
}.

(** Go's [regexp], for the expressions the source compiles. *)
Class Regexp := {
  (** [CreateDatabaseRE.ReplaceAllString(query, substitution)] *)
  CreateDatabaseRE_ReplaceAllString : string -> string -> string;
  (** [UUIDWithReplicatedMergeTreeRE.ReplaceAllString(query, "$1$2$3'$4'$5$4$7")] *)
  UUIDWithReplicatedMergeTreeRE_ReplaceAllString : string -> string;
  (** [utils.CleanBackupNameRE.ReplaceAllString(backupName, "")] *)
  CleanBackupNameRE_ReplaceAllString : string -> string;
  (** [regexp.MustCompile(expr)] panics on an expression that does not
      compile: [regexp_compiles expr = false] *)
  regexp_compiles : string -> bool;
  regexp_MatchString : string -> string -> bool;
  (** the first group of the first match of [FindAllStringSubmatch(s, -1)] *)
  regexp_FirstSubmatch1 : string -> string -> string;
  regexp_ReplaceAllString : string -> string -> string -> string;
}.

(** Functions of this repository that live in other files of [pkg/backup],
    [pkg/common] and [pkg/status]. *)
Class Package (W : Type) := {
  status_GetContextWithCancel : W -> nat -> option error;
  PrintLocalBackups : W -> unit * W;
  json_Unmarshal_BackupMetadata : string -> error + metadata.BackupMetadata;
  IsInformationSchema : string -> bool;
  ShallSkipDatabase : Config -> string -> string -> bool;
  (** [getTableListByPatternLocal(cfg, ch, metadataPath, tablePattern, dropTable, partitions)] *)
  getTableListByPatternLocal : W -> Config -> string -> string -> bool -> list string
                               -> error + list metadata.TableMetadata;
  (** [changeTableQueryToAdjustDatabaseMapping(&tables, mapping)] *)
  changeTableQueryToAdjustDatabaseMapping :
    list metadata.TableMetadata -> gmap string string
    -> option error * list metadata.TableMetadata;
  (** [b.getLocalBackup(ctx, backupName, disks)]: the [Legacy] flag of the backup *)
  getLocalBackup_Legacy : W -> string -> list clickhouse.Disk -> error + bool;
  common_TablePathEncode : string -> string;
}.

(** ** pkg/filesystemhelper/filesystemhelper.go *)

Module filesystemhelper.

Section Files.
Context {W : Type} `{!OperatingSystem W} `{!ClickHouse W} `{!Package W}.

Definition setOwner (u g : option nat) : M W unit :=
  fun s => Ret tt {| world := world s; cfg := cfg s; uid := u; gid := g;
                     chownLock := chownLock s; logs := logs s |}.

(** [chownLock.Lock()]: a second [Lock] never returns. *)
Definition Lock : M W unit :=
  fun s => if chownLock s then Blocked
           else Ret tt {| world := world s; cfg := cfg s; uid := uid s; gid := gid s;
                          chownLock := true; logs := logs s |}.

Definition Unlock : M W unit :=
  fun s => Ret tt {| world := world s; cfg := cfg s; uid := uid s; gid := gid s;
                     chownLock := false; logs := logs s |}.

(** [filepath.Walk(root, fn)]: [fn] is called on each visit until it
    returns an error. *)
Fixpoint walkVisits (visits : list Visit) (fn : Visit -> M W (option error))
    : M W (option error) :=
  match visits with
  | [] => ret None
  | v :: rest => check fn v ;; walkVisits rest fn
  end.

Definition filepath_Walk (root : string) (fn : Visit -> M W (option error))
    : M W (option error) :=
  visits <- readWorld (fun w => filepath_Walk_visits w root) ;;
  walkVisits visits fn.

(** [Chown]: sets the owner of [path] to the owner of the data path of
    ClickHouse.  The two early returns leave [chownLock] locked. *)
Definition Chown (path : string) (disks : list clickhouse.Disk) (recursive : bool)
    : M W (option error) :=
  euid <- readWorld os_Getuid ;;
  if negb (Nat.eqb euid 0) then ret None
  else
    Lock ;;;
    s <- (fun s => Ret s s) ;;
    check (match uid s with
           | Some _ => ret None
           | None =>
               dp <- readWorld (fun w => ch_GetDefaultPath w disks) ;;
               match dp with
               | inl err => ret (Some err)
               | inr dataPath =>
                   st <- readWorld (fun w => os_Stat w dataPath) ;;
                   match st with
                   | inl err => ret (Some err)
                   | inr info =>
                       setOwner (Some (StatUid info)) (Some (StatGid info)) ;;;
                       ret None
                   end
               end
           end) ;;
    Unlock ;;;
    s <- (fun s => Ret s s) ;;
    let u := default 0 (uid s) in
    let g := default 0 (gid s) in
    if negb recursive then withWorld (os_Chown path u g)
    else
      filepath_Walk path (fun v =>
        match visitErr v with
        | Some err => ret (Some err)
        | None => withWorld (os_Chown (visitPath v) u g)
        end).

Definition Mkdir (name : string) (disks : list clickhouse.Disk) : M W (option error) :=
  r <- withWorld (os_MkdirAll name) ;;
  match r with
  | Some err => if negb (os.IsExist err) then ret (Some err)
                else check Chown name disks false ;; ret None
  | None => check Chown name disks false ;; ret None
  end.

Fixpoint dropElement (s : string) : string :=
  match s with
  | EmptyString => EmptyString
  | String c s' => if Ascii.eqb c "/" then s else dropElement s'
  end.

(** [path[:j-1]] when [j > 1], where [j] is found by skipping the
    trailing separators of [path] and then its last element. *)
Definition parentPath (path : string) : option string :=
  let r := dropElement (strings.TrimLeft (strings.rev path) "/") in
  if Nat.ltb 1 (String.length r) then Some (strings.rev (strings.drop 1 r)) else None.

Fixpoint MkdirAllFuel (fuel : nat) (path : string) (disks : list clickhouse.Disk)
    : M W (option error) :=
  match fuel with
  | O => fun _ => OutOfFuel
  | S fuel' =>
      st <- readWorld (fun w => os_Stat w path) ;;
      match st with
      | inr dir =>
          if IsDir dir then ret None
          else ret (Some (SysError ENOTDIR ("mkdir " +:+ path +:+ ": not a directory")))
      | inl _ =>
          check (match parentPath path with
                 | Some parent => MkdirAllFuel fuel' parent disks
                 | None => ret None
                 end) ;;
          r <- Mkdir path disks ;;
          match r with
          | Some err =>
              l <- readWorld (fun w => os_Lstat w path) ;;
              match l with
              | inr dir => if IsDir dir then ret None else ret (Some err)
              | inl _ => ret (Some err)
              end
          | None => ret None
          end
      end
  end.

(** Each recursive call is on a shorter path. *)
Definition MkdirAll (path : string) (disks : list clickhouse.Disk) : M W (option error) :=
  MkdirAllFuel (S (String.length path)) path disks.

(** The function [CopyDataToDetached] gives to [filepath.Walk]. *)
Definition linkVisit (disks : list clickhouse.Disk) (partPath detachedPath : string)
    (v : Visit) : M W (option error) :=
  match visitErr v with
  | Some err => ret (Some err)
  | None =>
      let filePath := visitPath v in
      let filename := strings.Trim (strings.TrimPrefix filePath partPath) "/" in
      let dstFilePath := path.Join [detachedPath; filename] in
      match visitInfo v with
      | None => fun _ => Panic
      | Some info =>
          if IsDir info then Mkdir dstFilePath disks
          else if negb (IsRegular info) then ret None
          else
            r <- withWorld (os_Link filePath dstFilePath) ;;
            match r with
            | Some err =>
                if negb (os.IsExist err) then
                  ret (Some (fmt.Errorfw ("failed to create hard link '" +:+ filePath +:+
                                          "' -> '" +:+ dstFilePath +:+ "': ") err))
                else Chown dstFilePath disks false
            | None => Chown dstFilePath disks false
            end
      end
  end.

Definition copyPart (backupName : string) (backupTable : metadata.TableMetadata)
    (disks : list clickhouse.Disk) (backupDisk : clickhouse.Disk)
    (detachedParentDir : string) (part : metadata.Part) : M W (option error) :=
  let detachedPath := path.Join [detachedParentDir; metadata.PartName part] in
  st <- readWorld (fun w => os_Stat w detachedPath) ;;
  check (match st with
         | inl err =>
             if os.IsNotExist err then
               mkdirErr <- MkdirAll detachedPath disks ;;
               match mkdirErr with
               | Some e => Warnf ("error during Mkdir " +:+ Error e) ;;; ret None
               | None => ret None
               end
             else ret (Some err)
         | inr info =>
             if negb (IsDir info) then
               ret (Some (fmt.Errorf ("'" +:+ detachedPath +:+ "' should be directory or absent")))
             else ret None
         end) ;;
  let dbAndTableDir :=
    path.Join [common_TablePathEncode (metadata.Database backupTable);
               common_TablePathEncode (metadata.Table backupTable)] in
  let partPath0 :=
    path.Join [clickhouse.DiskPath backupDisk; "backup"; backupName; "shadow"; dbAndTableDir;
               clickhouse.DiskName backupDisk; metadata.PartName part] in
  st0 <- readWorld (fun w => os_Stat w partPath0) ;;
  let partPath :=
    match st0 with
    | inl err =>
        if os.IsNotExist err then
          (* Legacy backup support *)
          path.Join [clickhouse.DiskPath backupDisk; "backup"; backupName; "shadow";
                     dbAndTableDir; metadata.PartName part]
        else partPath0
    | inr _ => partPath0
    end in
  r <- filepath_Walk partPath (linkVisit disks partPath detachedPath) ;;
  match r with
  | Some err =>
      ret (Some (fmt.Errorfw ("error during filepath.Walk for part '" +:+
                              metadata.PartName part +:+ "': ") err))
  | None => ret None
  end.

Fixpoint copyParts (backupName : string) (backupTable : metadata.TableMetadata)
    (disks : list clickhouse.Disk) (backupDisk : clickhouse.Disk)
    (detachedParentDir : string) (parts : list metadata.Part) : M W (option error) :=
  match parts with
  | [] => ret None
  | part :: rest =>
      check copyPart backupName backupTable disks backupDisk detachedParentDir part ;;
      copyParts backupName backupTable disks backupDisk detachedParentDir rest
  end.

(** The loop over [disks]; [allDisks] is the whole list, which [Chown]
    is given. *)
Fixpoint copyDisks (backupName : string) (backupTable : metadata.TableMetadata)
    (allDisks : list clickhouse.Disk) (dstDataPaths : gmap string string)
    (disks : list clickhouse.Disk) : M W (option error) :=
  match disks with
  | [] => ret None
  | backupDisk :: rest =>
      let backupDiskName := clickhouse.DiskName backupDisk in
      let parts := default [] (metadata.Parts backupTable !! backupDiskName) in
      check (match parts with
             | [] => ret None     (* disk have no parts *)
             | _ =>
                 let detachedParentDir :=
                   path.Join [default "" (dstDataPaths !! backupDiskName); "detached"] in
                 copyParts backupName backupTable allDisks backupDisk detachedParentDir parts
             end) ;;
      copyDisks backupName backupTable allDisks dstDataPaths rest
  end.

(** [CopyDataToDetached] - copy partitions for specific table to detached folder *)
Definition CopyDataToDetached (backupName : string) (backupTable : metadata.TableMetadata)
    (disks : list clickhouse.Disk) (tableDataPaths : list string) : M W (option error) :=
  let dstDataPaths := clickhouse_GetDisksByPaths disks tableDataPaths in
  copyDisks backupName backupTable disks dstDataPaths disks.

(** [\s] of Go's regexp syntax: tab, newline, form feed, carriage return
    and space. *)
Definition isSpace (c : ascii) : bool :=
  strings.inCutset c (String "009" (String "010" (String "012" (String "013" " ")))).

Fixpoint skipSpaces (s : string) : string :=
  match s with
  | EmptyString => EmptyString
  | String c s' => if isSpace c then skipSpaces s' else s
  end.

(** A match of [partitionTupleRE], the expression [\)\s*,\s*\(], at the
    head of [s]: what follows the match. *)
Definition partitionTupleRE_match (s : string) : option string :=
  match s with
  | String ")" s1 =>
      match skipSpaces s1 with
      | String "," s2 =>
          match skipSpaces s2 with
          | String "(" s3 => Some s3
          | _ => None
          end
      | _ => None
      end
  | _ => None
  end.

Fixpoint partitionTupleRE_splitAux (skip : nat) (s : string) : list string :=
  match s with
  | EmptyString => [EmptyString]
  | String c s' =>
      match skip with
      | S k => partitionTupleRE_splitAux k s'
      | O =>
          match partitionTupleRE_match s with
          | Some rest =>
              EmptyString :: partitionTupleRE_splitAux (String.length s' - String.length rest) s'
          | None => strings.consHead c (partitionTupleRE_splitAux 0 s')
          end
      end
  end.

(** [partitionTupleRE.Split(s, -1)] *)
Definition partitionTupleRE_Split (s : string) : list string :=
  partitionTupleRE_splitAux 0 s.

(** The cutset [" \t"]. *)
Definition blanks : string := String " " (String "009" "").

(** One [for _, item := range tables] loop of the tuple form, over the
    database, name and query of each table; [inl] is the early return. *)
Fixpoint resolveTuple (w : W) (items : list (string * string * string))
    (partitionTuple : string) (partitionsMap : gset string) : error + gset string :=
  match items with
  | [] => inr partitionsMap
  | (database, name, query) :: rest =>
      match partition_GetPartitionId w database name query partitionTuple with
      | (Some err, _) => inl err
      | (None, partitionId) =>
          resolveTuple w rest partitionTuple
            (if decide (partitionId = "") then partitionsMap
             else {[partitionId]} ∪ partitionsMap)
      end
  end.

Definition liveItems (tablesFromClickHouse : list clickhouse.Table)
    : list (string * string * string) :=
  map (fun item => (clickhouse.Database item, clickhouse.Name item,
                    clickhouse.CreateTableQuery item)) tablesFromClickHouse.

Definition capturedItems (tablesFromMetadata : list metadata.TableMetadata)
    : list (string * string * string) :=
  map (fun item => (metadata.Database item, metadata.Table item,
                    metadata.Query item)) tablesFromMetadata.

Fixpoint resolveTuples (w : W) (tablesFromClickHouse : list clickhouse.Table)
    (tablesFromMetadata : list metadata.TableMetadata)
    (tuples : list string) (partitionsMap : gset string) : error + gset string :=
  match tuples with
  | [] => inr partitionsMap
  | partitionTuple :: rest =>
      match resolveTuple w (liveItems tablesFromClickHouse) partitionTuple partitionsMap with
      | inl err => inl err
      | inr m1 =>
          match resolveTuple w (capturedItems tablesFromMetadata) partitionTuple m1 with
          | inl err => inl err
          | inr m2 => resolveTuples w tablesFromClickHouse tablesFromMetadata rest m2
          end
      end
  end.

Definition addLiterals (items : list string) (partitionsMap : gset string) : gset string :=
  foldl (fun m item => {[strings.Trim item blanks]} ∪ m) partitionsMap items.

Definition isTupleForm (partitionArg : string) : bool :=
  strings.HasPrefix (strings.Trim partitionArg blanks) "(".

Definition tuplesOf (partitionArg : string) : list string :=
  partitionTupleRE_Split
    (strings.TrimSuffix (strings.TrimPrefix (strings.Trim partitionArg blanks) "(") ")").

(** The [for _, partitionArg := range partitions] loop. *)
Fixpoint resolveArgs (w : W) (tablesFromClickHouse : list clickhouse.Table)
    (tablesFromMetadata : list metadata.TableMetadata)
    (args : list string) (partitionsMap : gset string) : error + gset string :=
  match args with
  | [] => inr partitionsMap
  | partitionArg :: rest =>
      if isTupleForm partitionArg then
        match resolveTuples w tablesFromClickHouse tablesFromMetadata
                (tuplesOf partitionArg) partitionsMap with
        | inl err => inl err
        | inr m => resolveArgs w tablesFromClickHouse tablesFromMetadata rest m
        end
      else
        resolveArgs w tablesFromClickHouse tablesFromMetadata rest
          (addLiterals (strings.Split (strings.Trim partitionArg blanks) ",") partitionsMap)
  end.

(** [CreatePartitionsToBackupMap]: the set of partition ids and the list
    made of it (in the order Go happens to range over the map). *)
Definition CreatePartitionsToBackupMap (tablesFromClickHouse : list clickhouse.Table)
    (tablesFromMetadata : list metadata.TableMetadata) (partitions : list string)
    : M W (gset string * list string) :=
  match partitions with
  | [] => ret (∅, partitions)
  | _ =>
      r <- readWorld (fun w =>
             resolveArgs w tablesFromClickHouse tablesFromMetadata partitions ∅) ;;
      match r with
      | inl err =>
          logf ErrorLevel ("partition.GetPartitionId error: " +:+ Error err) ;;;
          ret (∅, partitions)
      | inr partitionsMap => ret (partitionsMap, elements partitionsMap)
      end
  end.

End Files.

Definition IsPartInPartition (partName : string) (partitionsBackupMap : gset string) : bool :=
  bool_decide (default "" (head (strings.Split partName "_")) ∈ partitionsBackupMap).

Definition IsFileInPartition (disk fileName : string) (partitionsBackupMap : gset string) : bool :=
  let fileName := strings.TrimPrefix fileName (disk +:+ "_") in
  bool_decide (default "" (head (strings.Split fileName "_")) ∈ partitionsBackupMap).

(** [size += info.Size()] on [int64]. *)
Definition addInt64 (a b : Z) : Z :=
  ((a + b + 2 ^ 63) `mod` 2 ^ 64 - 2 ^ 63)%Z.

Section Shadow.
Context {W : Type} `{!OperatingSystem W}.

(** The function [MoveShadow] gives to [filepath.Walk], on the [parts]
    and [size] of the enclosing function.  The error of the walk is not
    looked at. *)
Definition moveVisit (shadowPath backupPartsPath : string) (partitionsBackupMap : gset string)
    (acc : list metadata.Part * Z) (v : Visit)
    : M W (list metadata.Part * Z * option error) :=
  let '(parts, size) := acc in
  let filePath := visitPath v in
  let relativePath := strings.Trim (strings.TrimPrefix filePath shadowPath) "/" in
  match strings.SplitN relativePath "/" 4 with
  | [_; _; _; partPath] =>
      if negb (Nat.eqb (base.size partitionsBackupMap) 0)
         && negb (IsPartInPartition partPath partitionsBackupMap)
      then ret (parts, size, None)
      else
        let dstFilePath := path.Join [backupPartsPath; partPath] in
        match visitInfo v with
        | None => fun _ => Panic
        | Some info =>
            if IsDir info then
              let parts :=
                if negb (strings.HasSuffix partPath ".proj")
                then (parts ++ [ {| metadata.PartName := partPath |} ])%list
                else parts in
              r <- withWorld (os_MkdirAll dstFilePath) ;;
              ret (parts, size, r)
            else if negb (IsRegular info) then ret (parts, size, None)
            else
              let size := addInt64 size (Size info) in
              r <- withWorld (os_Rename filePath dstFilePath) ;;
              ret (parts, size, r)
        end
  | _ => ret (parts, size, None)
  end.

Fixpoint moveVisits (shadowPath backupPartsPath : string) (partitionsBackupMap : gset string)
    (visits : list Visit) (acc : list metadata.Part * Z)
    : M W (list metadata.Part * Z * option error) :=
  match visits with
  | [] => ret (acc, None)
  | v :: rest =>
      r <- moveVisit shadowPath backupPartsPath partitionsBackupMap acc v ;;
      match r with
      | (parts, size, Some err) => ret (parts, size, Some err)
      | (parts, size, None) =>
          moveVisits shadowPath backupPartsPath partitionsBackupMap rest (parts, size)
      end
  end.

Definition MoveShadow (shadowPath backupPartsPath : string) (partitionsBackupMap : gset string)
    : M W (list metadata.Part * Z * option error) :=
  visits <- readWorld (fun w => filepath_Walk_visits w shadowPath) ;;
  moveVisits shadowPath backupPartsPath partitionsBackupMap visits ([], 0%Z).

End Shadow.

End filesystemhelper.

(** ** pkg/backup/restore.go *)

Module backup.

Definition setQuery (t : metadata.TableMetadata) (q : string) : metadata.TableMetadata :=
  {| metadata.Table := metadata.Table t; metadata.Database := metadata.Database t;
     metadata.Parts := metadata.Parts t; metadata.Query := q |}.

Definition setDatabase (t : metadata.TableMetadata) (db : string) : metadata.TableMetadata :=
  {| metadata.Table := metadata.Table t; metadata.Database := db;
     metadata.Parts := metadata.Parts t; metadata.Query := metadata.Query t |}.

Definition setRestoreDatabaseMapping (c : Config) (m : gmap string string) : Config :=
  {| RestoreDatabaseMapping := m;
     RestoreSchemaOnCluster := RestoreSchemaOnCluster c;
     UseEmbeddedBackupRestore := UseEmbeddedBackupRestore c;
     EmbeddedBackupDisk := EmbeddedBackupDisk c;
     RestartCommand := RestartCommand c;
     ConfigDir := ConfigDir c |}.

Definition setRestoreSchemaOnCluster (c : Config) (cluster : string) : Config :=
  {| RestoreDatabaseMapping := RestoreDatabaseMapping c;
     RestoreSchemaOnCluster := cluster;
     UseEmbeddedBackupRestore := UseEmbeddedBackupRestore c;
     EmbeddedBackupDisk := EmbeddedBackupDisk c;
     RestartCommand := RestartCommand c;
     ConfigDir := ConfigDir c |}.

(** *** prepareRestoreDatabaseMapping *)

(** The loop [for _, m := range splitByCommas] on the mapping table. *)
Fixpoint registerRules (rules : list string) (mapping : gmap string string)
    : option error * gmap string string :=
  match rules with
  | [] => (None, mapping)
  | m :: rest =>
      match strings.Split m ":" with
      | [src; dst] => registerRules rest (<[src := dst]> mapping)
      | _ =>
          (Some (fmt.Errorf ("restore-database-mapping " +:+ m +:+
             " should only have srcDatabase:destinationDatabase format for each map rule")),
           mapping)
      end
  end.

Fixpoint registerArgs (databaseMapping : list string) (mapping : gmap string string)
    : option error * gmap string string :=
  match databaseMapping with
  | [] => (None, mapping)
  | arg :: rest =>
      match registerRules (strings.Split arg ",") mapping with
      | (Some err, mapping') => (Some err, mapping')
      | (None, mapping') => registerArgs rest mapping'
      end
  end.

Section Restore.
Context {W : Type} `{!OperatingSystem W} `{!ClickHouse W} `{!Package W} `{!Regexp}.

Definition prepareRestoreDatabaseMapping (databaseMapping : list string) : M W (option error) :=
  c <- getCfg ;;
  let '(err, mapping) := registerArgs databaseMapping (RestoreDatabaseMapping c) in
  setCfg (setRestoreDatabaseMapping c mapping) ;;;
  ret err.

(** *** dropExistsTables *)

Definition dropCandidates (schema : metadata.TableMetadata) : list string :=
  let possibleQueries :=
    [ "CREATE DICTIONARY `" +:+ metadata.Database schema +:+ "`.`" +:+ metadata.Table schema +:+ "`";
      "CREATE MATERIALIZED VIEW `" +:+ metadata.Database schema +:+ "`.`" +:+
        metadata.Table schema +:+ "`" ] in
  if Nat.ltb 0 (size (metadata.Parts schema)) then
    ("CREATE TABLE `" +:+ metadata.Database schema +:+ "`.`" +:+ metadata.Table schema +:+ "`")
      :: possibleQueries
  else possibleQueries.

Definition DropTable (schema : metadata.TableMetadata) (query : string)
    (ignoreDependencies : bool) (version : nat) : M W (option error) :=
  c <- getCfg ;;
  withWorld (ch_DropTable (metadata.Database schema, metadata.Table schema) query
               (RestoreSchemaOnCluster c) ignoreDependencies version).

(** The loop [for _, query := range possibleQueries]: [dropErr] is the
    variable of the function, [stored] is [tablesForDrop[i].Query]. *)
Fixpoint tryQueries (schema : metadata.TableMetadata) (ignoreDependencies : bool)
    (version : nat) (queries : list string) (dropErr : option error) (stored : string)
    : M W (option error * string) :=
  match queries with
  | [] => ret (dropErr, stored)
  | query :: rest =>
      r <- DropTable schema query ignoreDependencies version ;;
      tryQueries schema ignoreDependencies version rest r
        (match r with None => query | Some _ => stored end)
  end.

(** The drop of one entry: the new [dropErr] and [tablesForDrop[i].Query]. *)
Definition dropOne (schema : metadata.TableMetadata) (ignoreDependencies : bool)
    (version : nat) (dropErr : option error) : M W (option error * string) :=
  if decide (metadata.Query schema = "") then
    tryQueries schema ignoreDependencies version (dropCandidates schema) dropErr
      (metadata.Query schema)
  else
    r <- DropTable schema (metadata.Query schema) ignoreDependencies version ;;
    ret (r, metadata.Query schema).

(** What one pass over the queue leaves: [entries] is the slice that was
    ranged over, as the pass wrote it. *)
Inductive Pass :=
| PassReturned (err : error) (entries : list metadata.TableMetadata)
| PassEnded (lastErr : option error) (retries : nat)
            (notDone : list metadata.TableMetadata)
            (entries : list metadata.TableMetadata).

Definition consEntry (t : metadata.TableMetadata) (p : Pass) : Pass :=
  match p with
  | PassReturned err entries => PassReturned err (t :: entries)
  | PassEnded lastErr retries notDone entries => PassEnded lastErr retries notDone (t :: entries)
  end.

Definition dropFailure (schema : metadata.TableMetadata) (dropErr : error) (dropRetries : nat)
    : error :=
  fmt.Errorf ("can't drop table `" +:+ metadata.Database schema +:+ "`.`" +:+
              metadata.Table schema +:+ "`: " +:+ Error dropErr +:+ " after " +:+
              fmt.d dropRetries +:+ " times, please check your schema dependencies").

(** The loop [for i, schema := range tablesForDrop]. *)
Fixpoint dropPass (totalRetries : nat) (ignoreDependencies : bool) (version : nat)
    (tablesForDrop : list metadata.TableMetadata) (dropErr : option error)
    (dropRetries : nat) (notDroppedTables : list metadata.TableMetadata) : M W Pass :=
  match tablesForDrop with
  | [] => ret (PassEnded dropErr dropRetries notDroppedTables [])
  | schema :: rest =>
      r <- dropOne schema ignoreDependencies version dropErr ;;
      let written := setQuery schema (snd r) in
      match fst r with
      | Some err =>
          let dropRetries := S dropRetries in
          if Nat.leb totalRetries dropRetries then
            ret (PassReturned (dropFailure schema err dropRetries) (written :: rest))
          else
            Warnf ("can't drop table '" +:+ metadata.Database schema +:+ "." +:+
                   metadata.Table schema +:+ "': " +:+ Error err +:+ ", will try again") ;;;
            p <- dropPass totalRetries ignoreDependencies version rest (Some err)
                   dropRetries (notDroppedTables ++ [schema]) ;;
            ret (consEntry written p)
      | None =>
          p <- dropPass totalRetries ignoreDependencies version rest None
                 dropRetries notDroppedTables ;;
          ret (consEntry written p)
      end
  end.

(** The loop [for dropRetries < totalRetries], one unit of [fuel] for a
    pass.  [callerTables] is the slice of the caller: the first pass
    ranges over it and writes to it, the later passes range over the
    [notDroppedTables] of the pass before. *)
Fixpoint dropLoop (fuel : nat) (totalRetries : nat) (ignoreDependencies : bool) (version : nat)
    (first : bool) (tablesForDrop : list metadata.TableMetadata) (dropErr : option error)
    (dropRetries : nat) (callerTables : list metadata.TableMetadata)
    : M W (option error * list metadata.TableMetadata) :=
  if Nat.ltb dropRetries totalRetries then
    match fuel with
    | O => fun _ => OutOfFuel
    | S fuel' =>
        p <- dropPass totalRetries ignoreDependencies version tablesForDrop dropErr
               dropRetries [] ;;
        match p with
        | PassReturned err entries =>
            ret (Some err, if first then entries else callerTables)
        | PassEnded dropErr' dropRetries' notDroppedTables entries =>
            let callerTables' := if first then entries else callerTables in
            match notDroppedTables with
            | [] => ret (None, callerTables')
            | _ => dropLoop fuel' totalRetries ignoreDependencies version false
                     notDroppedTables dropErr' dropRetries' callerTables'
            end
        end
    end
  else ret (None, callerTables).

(** [dropExistsTables]: the error, and the slice of the caller after the
    call. *)
Definition dropExistsTables (tablesForDrop : list metadata.TableMetadata)
    (ignoreDependencies : bool) (version : nat)
    : M W (option error * list metadata.TableMetadata) :=
  dropLoop (length tablesForDrop) (length tablesForDrop) ignoreDependencies version
    true tablesForDrop None 0 tablesForDrop.

(** *** restoreSchemaRegular *)

(** materialized and window views should restore via ATTACH *)
Definition attachViews (query : string) : string :=
  let query := strings.Replace1 query "CREATE MATERIALIZED VIEW" "ATTACH MATERIALIZED VIEW" in
  let query := strings.Replace1 query "CREATE WINDOW VIEW" "ATTACH WINDOW VIEW" in
  strings.Replace1 query "CREATE LIVE VIEW" "ATTACH LIVE VIEW".

(** The rewrite of [{uuid}] for replicated tables, issue 466. *)
Definition rewriteUUID (onCluster query : string) : M W string :=
  if bool_decide (onCluster = "") && strings.Contains query "{uuid}"
     && strings.Contains query "Replicated" then
    if negb (strings.Contains query "UUID") then
      Warnf "table query doesn't contains UUID, can't guarantee properly restore for ReplicatedMergeTree" ;;;
      ret query
    else ret (UUIDWithReplicatedMergeTreeRE_ReplaceAllString query)
  else ret query.

Definition createFailure (schema : metadata.TableMetadata) (restoreErr : error)
    (restoreRetries : nat) : error :=
  fmt.Errorf ("can't create table `" +:+ metadata.Database schema +:+ "`.`" +:+
              metadata.Table schema +:+ "`: " +:+ Error restoreErr +:+ " after " +:+
              fmt.d restoreRetries +:+ " times, please check your schema dependencies").

(** What one pass of the create loop leaves. *)
Inductive CreatePass :=
| CreateReturned (err : error)
| CreateEnded (isDatabaseCreated : gset string) (lastErr : option error) (retries : nat)
              (notRestored : list metadata.TableMetadata).

(** The loop [for _, schema := range tablesForRestore]. *)
Fixpoint createPass (totalRetries : nat) (version : nat)
    (tablesForRestore : list metadata.TableMetadata) (isDatabaseCreated : gset string)
    (restoreErr : option error) (restoreRetries : nat)
    (notRestoredTables : list metadata.TableMetadata) : M W CreatePass :=
  match tablesForRestore with
  | [] => ret (CreateEnded isDatabaseCreated restoreErr restoreRetries notRestoredTables)
  | schema :: rest =>
      c <- getCfg ;;
      let onCluster := RestoreSchemaOnCluster c in
      (* if metadata.json doesn't contain "databases", we will re-create tables with default engine *)
      created <-
        (if decide (metadata.Database schema ∈ isDatabaseCreated) then ret (inr isDatabaseCreated)
         else
           e <- withWorld (ch_CreateDatabase (metadata.Database schema) onCluster) ;;
           match e with
           | Some err =>
               ret (inl (fmt.Errorf ("can't create database '" +:+ metadata.Database schema +:+
                                     "': " +:+ Error err)))
           | None => ret (inr ({[metadata.Database schema]} ∪ isDatabaseCreated))
           end) ;;
      match created with
      | inl err => ret (CreateReturned err)
      | inr isDatabaseCreated =>
          query <- rewriteUUID onCluster (attachViews (metadata.Query schema)) ;;
          let schema := setQuery schema query in
          r <- withWorld (ch_CreateTable (metadata.Database schema, metadata.Table schema)
                            query false false onCluster version) ;;
          match r with
          | Some err =>
              let restoreRetries := S restoreRetries in
              if Nat.leb totalRetries restoreRetries then
                ret (CreateReturned (createFailure schema err restoreRetries))
              else
                Warnf ("can't create table '" +:+ metadata.Database schema +:+ "." +:+
                       metadata.Table schema +:+ "': " +:+ Error err +:+ ", will try again") ;;;
                createPass totalRetries version rest isDatabaseCreated (Some err)
                  restoreRetries (notRestoredTables ++ [schema])
          | None =>
              createPass totalRetries version rest isDatabaseCreated None
                restoreRetries notRestoredTables
          end
      end
  end.

(** The loop [for restoreRetries < totalRetries], one unit of [fuel] for a
    pass. *)
Fixpoint createLoop (fuel : nat) (totalRetries : nat) (version : nat)
    (tablesForRestore : list metadata.TableMetadata) (isDatabaseCreated : gset string)
    (restoreErr : option error) (restoreRetries : nat) : M W (option error) :=
  if Nat.ltb restoreRetries totalRetries then
    match fuel with
    | O => fun _ => OutOfFuel
    | S fuel' =>
        p <- createPass totalRetries version tablesForRestore isDatabaseCreated
               restoreErr restoreRetries [] ;;
        match p with
        | CreateReturned err => ret (Some err)
        | CreateEnded isDatabaseCreated' restoreErr' restoreRetries' notRestoredTables =>
            match notRestoredTables with
            | [] => ret None
            | _ => createLoop fuel' totalRetries version notRestoredTables
                     isDatabaseCreated' restoreErr' restoreRetries'
            end
        end
    end
  else ret None.

Definition restoreSchemaRegular (tablesForRestore : list metadata.TableMetadata)
    (version : nat) : M W (option error) :=
  createLoop (length tablesForRestore) (length tablesForRestore) version
    tablesForRestore ∅ None 0.

(** *** restoreEmbedded *)

(** The loop building [tablesSQL]; [i] is the index of the head of
    [tables], [l] the length of the whole list. *)
Fixpoint embeddedTablesSQL (mapping : gmap string string) (partitions : list string)
    (l i : nat) (tables : list metadata.TableMetadata) (tablesSQL : string) : string :=
  match tables with
  | [] => tablesSQL
  | t :: rest =>
      let tablesSQL :=
        if decide (metadata.Query t = "") then tablesSQL
        else
          let kind := if strings.Contains (metadata.Query t) " DICTIONARY "
                      then "DICTIONARY" else "TABLE" in
          let name := "`" +:+ metadata.Database t +:+ "`.`" +:+ metadata.Table t +:+ "`" in
          let tablesSQL :=
            match mapping !! metadata.Database t with
            | Some newDb =>
                tablesSQL +:+ kind +:+ " " +:+ name +:+ " AS `" +:+ newDb +:+ "`.`" +:+
                  metadata.Table t +:+ "`"
            | None => tablesSQL +:+ kind +:+ " " +:+ name
            end in
          let kind := if strings.Contains (metadata.Query t) " VIEW " then "VIEW" else kind in
          let tablesSQL :=
            if bool_decide (kind = "TABLE") && Nat.ltb 0 (length partitions)
            then tablesSQL +:+ " PARTITIONS '" +:+ strings.Join partitions "','" +:+ "'"
            else tablesSQL in
          if Nat.ltb i (l - 1) then tablesSQL +:+ ", " else tablesSQL in
      embeddedTablesSQL mapping partitions l (S i) rest tablesSQL
  end.

Definition restoreEmbedded (backupName : string) (restoreOnlySchema : bool)
    (tablesForRestore : list metadata.TableMetadata) (partitions : list string)
    : M W (option error) :=
  c <- getCfg ;;
  let tablesSQL :=
    embeddedTablesSQL (RestoreDatabaseMapping c) partitions (length tablesForRestore) 0
      tablesForRestore "" in
  let settings := if restoreOnlySchema then "SETTINGS structure_only=true" else "" in
  let restoreSQL := "RESTORE " +:+ tablesSQL +:+ " FROM Disk(?,?) " +:+ settings in
  r <- withWorld (ch_Select_SystemBackups restoreSQL (EmbeddedBackupDisk c) backupName) ;;
  match r with
  | inl err => ret (Some (fmt.Errorf ("restore error: " +:+ Error err)))
  | inr restoreResults =>
      match restoreResults with
      | status :: _ =>
          if decide (status = "RESTORED") then ret None
          else ret (Some (fmt.Errorf ("restore wrong result: [" +:+
                                      strings.Join restoreResults " " +:+ "]")))
      | [] => ret (Some (fmt.Errorf "restore wrong result: []"))
      end
  end.

Definition restoreSchemaEmbedded (backupName : string)
    (tablesForRestore : list metadata.TableMetadata) : M W (option error) :=
  restoreEmbedded backupName true tablesForRestore [].

Definition restoreDataEmbedded (backupName : string)
    (tablesForRestore : list metadata.TableMetadata) (partitions : list string)
    : M W (option error) :=
  restoreEmbedded backupName false tablesForRestore partitions.

(** *** RestoreSchema *)

(** Declared in another file of the package. *)
Definition ErrUnknownClickhouseDataPath : error :=
  ErrorString "clickhouse data path is unknown, you can set data_path in config file".

Definition RestoreSchema (backupName tablePattern : string) (dropTable ignoreDependencies : bool)
    (disks : list clickhouse.Disk) (isEmbedded : bool) : M W (option error) :=
  dp <- readWorld (fun w => ch_GetDefaultPath w disks) ;;
  match dp with
  | inl _ => ret (Some ErrUnknownClickhouseDataPath)
  | inr defaultDataPath =>
  v <- readWorld ch_GetVersion ;;
  match v with
  | inl err => ret (Some err)
  | inr version =>
  mp <- (if isEmbedded then
           e <- readWorld (fun w => ch_GetEmbeddedBackupPath w disks) ;;
           match e with
           | (_, Some err) => ret (inl err)
           | (embeddedPath, None) => ret (inr (path.Join [embeddedPath; backupName; "metadata"]))
           end
         else ret (inr (path.Join [defaultDataPath; "backup"; backupName; "metadata"]))) ;;
  match mp with
  | inl err => ret (Some err)
  | inr metadataPath =>
  st <- readWorld (fun w => os_Stat w metadataPath) ;;
  match st with
  | inl err => ret (Some err)
  | inr info =>
  if negb (IsDir info) then ret (Some (fmt.Errorf (metadataPath +:+ " is not a dir")))
  else
  let tablePattern := if decide (tablePattern = "") then "*" else tablePattern in
  c <- getCfg ;;
  tl <- readWorld (fun w =>
          getTableListByPatternLocal w c metadataPath tablePattern dropTable []) ;;
  match tl with
  | inl err => ret (Some err)
  | inr tablesForRestore =>
  (* if restore-database-mapping specified, create database in mapping rules instead of in backup files. *)
  let adjusted :=
    if Nat.ltb 0 (size (RestoreDatabaseMapping c))
    then changeTableQueryToAdjustDatabaseMapping tablesForRestore (RestoreDatabaseMapping c)
    else (None, tablesForRestore) in
  match adjusted with
  | (Some err, _) => ret (Some err)
  | (None, tablesForRestore) =>
  match tablesForRestore with
  | [] => ret (Some (fmt.Errorf ("no have found schemas by " +:+ tablePattern +:+ " in " +:+
                                 backupName)))
  | _ =>
  dropped <- dropExistsTables tablesForRestore ignoreDependencies version ;;
  match dropped with
  | (Some dropErr, _) => ret (Some dropErr)
  | (None, tablesForRestore) =>
      if isEmbedded then restoreSchemaEmbedded backupName tablesForRestore
      else restoreSchemaRegular tablesForRestore version
  end end end end end end end end.

(** *** restoreDataRegular *)

(** The body of [for sourceDb, targetDb := range RestoreDatabaseMapping];
    [None] is the panic of [regexp.MustCompile]. *)
Definition adjustTablePattern (tablePattern : string) (rule : string * string)
    : option string :=
  let '(sourceDb, targetDb) := rule in
  if decide (tablePattern = "") then Some (tablePattern +:+ targetDb +:+ ".*")
  else
    let sourceDbRE := "(^" +:+ sourceDb +:+ ".*)|(," +:+ sourceDb +:+ ".*)" in
    if negb (regexp_compiles sourceDbRE) then None
    else if regexp_MatchString sourceDbRE tablePattern then
      let substitution := targetDb +:+ ".*" in
      let substitution :=
        if strings.HasPrefix (regexp_FirstSubmatch1 sourceDbRE tablePattern) ","
        then "," +:+ substitution else substitution in
      Some (regexp_ReplaceAllString sourceDbRE tablePattern substitution)
    else Some (tablePattern +:+ "," +:+ targetDb +:+ ".*").

Fixpoint adjustTablePatterns (rules : list (string * string)) (tablePattern : string)
    : option string :=
  match rules with
  | [] => Some tablePattern
  | rule :: rest =>
      match adjustTablePattern tablePattern rule with
      | None => None
      | Some tablePattern' => adjustTablePatterns rest tablePattern'
      end
  end.

Definition hasDiskNamed (disks : list clickhouse.Disk) (disk : string) : bool :=
  existsb (fun d => bool_decide (clickhouse.DiskName d = disk)) disks.

Definition missingDiskWarning (t : metadata.TableMetadata) (disk defaultPath : string) : string :=
  "table '" +:+ metadata.Database t +:+ "." +:+ metadata.Table t +:+ "' require disk '" +:+
  disk +:+ "' that not found in clickhouse table system.disks, you can add nonexistent disks to `disk_mapping` in  `clickhouse` config section, data will restored to " +:+
  defaultPath.

(** The loop [for disk := range t.Parts] of one table. *)
Fixpoint addMissingDisks (t : metadata.TableMetadata) (diskMap : gmap string string)
    (partDisks : list string) (disks : list clickhouse.Disk) : M W (list clickhouse.Disk) :=
  match partDisks with
  | [] => ret disks
  | disk :: rest =>
      match diskMap !! disk with
      | Some _ => addMissingDisks t diskMap rest disks
      | None =>
          let defaultPath := default "" (diskMap !! "default") in
          Warnf (missingDiskWarning t disk defaultPath) ;;;
          let disks :=
            if hasDiskNamed disks disk then disks
            else (disks ++ [ {| clickhouse.DiskName := disk;
                                clickhouse.DiskPath := defaultPath;
                                clickhouse.DiskType := "local" |} ])%list in
          addMissingDisks t diskMap rest disks
      end
  end.

(** The loop [for _, t := range tablesForRestore] over the disks. *)
Fixpoint addMissingDisksOfTables (tablesForRestore : list metadata.TableMetadata)
    (diskMap : gmap string string) (disks : list clickhouse.Disk)
    : M W (list clickhouse.Disk) :=
  match tablesForRestore with
  | [] => ret disks
  | t :: rest =>
      disks' <- addMissingDisks t diskMap (map fst (map_to_list (metadata.Parts t))) disks ;;
      addMissingDisksOfTables rest diskMap disks'
  end.

Definition dstDatabaseOf (mapping : gmap string string) (table : metadata.TableMetadata)
    : string :=
  if Nat.ltb 0 (size mapping) then
    match mapping !! metadata.Database table with
    | Some targetDB => targetDB
    | None => metadata.Database table
    end
  else metadata.Database table.

Definition isLive (chTables : list clickhouse.Table) (dstDatabase table : string) : bool :=
  existsb (fun chTable => bool_decide (dstDatabase = clickhouse.Database chTable)
                          && bool_decide (table = clickhouse.Name chTable)) chTables.

(** The loop filling [missingTables]. *)
Fixpoint findMissingTables (mapping : gmap string string) (chTables : list clickhouse.Table)
    (tablesForRestore : list metadata.TableMetadata) (missingTables : list string)
    : list string :=
  match tablesForRestore with
  | [] => missingTables
  | table :: rest =>
      let dstDatabase := dstDatabaseOf mapping table in
      findMissingTables mapping chTables rest
        (if isLive chTables dstDatabase (metadata.Table table) then missingTables
         else (missingTables ++
               ["'" +:+ dstDatabase +:+ "." +:+ metadata.Table table +:+ "'"])%list)
  end.

Definition missingTablesError (missingTables : list string) : error :=
  fmt.Errorf (strings.Join missingTables ", " +:+
              " is not created. Restore schema first or create missing tables manually").

Definition dstTablesMapOf (chTables : list clickhouse.Table)
    : gmap (string * string) clickhouse.Table :=
  foldl (fun m chTable =>
           <[(clickhouse.Database chTable, clickhouse.Name chTable) := chTable]> m)
        ∅ chTables.

(** The body of the last loop, for one table. *)
Definition placeTable (backupName : string) (mapping : gmap string string)
    (dstTablesMap : gmap (string * string) clickhouse.Table)
    (disks : list clickhouse.Disk) (table : metadata.TableMetadata) : M W (option error) :=
  (* need mapped database path and original table.Database for CopyDataToDetached *)
  let dstDatabase := dstDatabaseOf mapping table in
  let mapped := setDatabase table dstDatabase in      (* tablesForRestore[i] *)
  match dstTablesMap !! (dstDatabase, metadata.Table table) with
  | None =>
      ret (Some (fmt.Errorf ("can't find '" +:+ dstDatabase +:+ "." +:+ metadata.Table table +:+
                             "' in current system.tables")))
  | Some dstTable =>
      r <- filesystemhelper.CopyDataToDetached backupName table disks
             (clickhouse.DataPaths dstTable) ;;
      match r with
      | Some err =>
          ret (Some (fmt.Errorf ("can't restore '" +:+ metadata.Database table +:+ "." +:+
                                 metadata.Table table +:+ "': " +:+ Error err)))
      | None =>
          a <- withWorld (ch_AttachPartitions mapped disks) ;;
          match a with
          | Some err =>
              ret (Some (fmt.Errorf ("can't attach partitions for table '" +:+
                                     metadata.Database mapped +:+ "." +:+
                                     metadata.Table mapped +:+ "': " +:+ Error err)))
          | None => ret None
          end
      end
  end.

Fixpoint placeTables (backupName : string) (mapping : gmap string string)
    (dstTablesMap : gmap (string * string) clickhouse.Table)
    (disks : list clickhouse.Disk) (tablesForRestore : list metadata.TableMetadata)
    : M W (option error) :=
  match tablesForRestore with
  | [] => ret None
  | table :: rest =>
      check placeTable backupName mapping dstTablesMap disks table ;;
      placeTables backupName mapping dstTablesMap disks rest
  end.

Definition restoreDataRegular (backupName tablePattern : string)
    (tablesForRestore : list metadata.TableMetadata) (diskMap : gmap string string)
    (disks : list clickhouse.Disk) : M W (option error) :=
  c <- getCfg ;;
  let mapping := RestoreDatabaseMapping c in
  match adjustTablePatterns (map_to_list mapping) tablePattern with
  | None => fun _ => Panic
  | Some tablePattern =>
      g <- readWorld (fun w => ch_GetTables w tablePattern) ;;
      match g with
      | inl err => ret (Some err)
      | inr chTables =>
          disks <- addMissingDisksOfTables tablesForRestore diskMap disks ;;
          let dstTablesMap := dstTablesMapOf chTables in
          let missingTables := findMissingTables mapping chTables tablesForRestore [] in
          if Nat.ltb 0 (length missingTables) then ret (Some (missingTablesError missingTables))
          else placeTables backupName mapping dstTablesMap disks tablesForRestore
      end
  end.

(** *** RestoreData *)

Definition diskMapOf (disks : list clickhouse.Disk) : gmap string string :=
  foldl (fun m disk => <[clickhouse.DiskName disk := clickhouse.DiskPath disk]> m) ∅ disks.

Definition RestoreData (backupName tablePattern : string) (partitions : list string)
    (disks : list clickhouse.Disk) (isEmbedded : bool) : M W (option error) :=
  dp <- readWorld (fun w => ch_GetDefaultPath w disks) ;;
  match dp with
  | inl _ => ret (Some ErrUnknownClickhouseDataPath)
  | inr defaultDataPath =>
  shadow <- readWorld (fun w =>
              ch_IsClickhouseShadow w (path.Join [defaultDataPath; "backup"; backupName; "shadow"])) ;;
  if (shadow : bool) then ret (Some (fmt.Errorf "backups created in v0.0.1 is not supported now"))
  else
  lb <- readWorld (fun w => getLocalBackup_Legacy w backupName disks) ;;
  match lb with
  | inl err => ret (Some (fmt.Errorf ("can't restore: " +:+ Error err)))
  | inr legacy =>
  let diskMap := diskMapOf disks in
  c <- getCfg ;;
  tl <- (if (legacy : bool) then readWorld (fun w => ch_GetBackupTablesLegacy w backupName disks)
         else
           let metadataPath :=
             if isEmbedded
             then path.Join [default "" (diskMap !! EmbeddedBackupDisk c); backupName; "metadata"]
             else path.Join [defaultDataPath; "backup"; backupName; "metadata"] in
           readWorld (fun w =>
             getTableListByPatternLocal w c metadataPath tablePattern false partitions)) ;;
  match tl with
  | inl err => ret (Some err)
  | inr tablesForRestore =>
  match tablesForRestore with
  | [] => ret (Some (fmt.Errorf ("no have found schemas by " +:+ tablePattern +:+ " in " +:+
                                 backupName)))
  | _ =>
      if isEmbedded then restoreDataEmbedded backupName tablesForRestore partitions
      else restoreDataRegular backupName tablePattern tablesForRestore diskMap disks
  end end end end.

(** *** restoreEmptyDatabase, restoreRBAC, restoreConfigs *)

Definition restoreEmptyDatabase (tablePattern : string) (database : metadata.DatabasesMeta)
    (dropTable schemaOnly : bool) : M W (option error) :=
  c <- getCfg ;;
  let targetDB :=
    match RestoreDatabaseMapping c !! metadata.DbName database with
    | Some mapped => mapped
    | None => metadata.DbName database
    end in
  (* issue 583 *)
  if ShallSkipDatabase c targetDB tablePattern then ret None
  else
    (* issue 514 *)
    check (if schemaOnly && dropTable then
             let onCluster :=
               if decide (RestoreSchemaOnCluster c = "") then ""
               else " ON CLUSTER '" +:+ RestoreSchemaOnCluster c +:+ "'" in
             withWorld (ch_QueryContext ("DROP DATABASE IF EXISTS `" +:+ targetDB +:+ "` " +:+
                                         onCluster +:+ " SYNC"))
           else ret None) ;;
    let substitution := "CREATE DATABASE IF NOT EXISTS ${1}`" +:+ targetDB +:+ "`${3}" in
    withWorld (ch_CreateDatabaseFromQuery
                 (CreateDatabaseRE_ReplaceAllString (metadata.DbQuery database) substitution)
                 (RestoreSchemaOnCluster c)).

Fixpoint chownFiles (files : list string) (disks : list clickhouse.Disk) : M W (option error) :=
  match files with
  | [] => ret None
  | localFile :: rest =>
      check filesystemhelper.Chown localFile disks false ;; chownFiles rest disks
  end.

Definition restoreBackupRelatedDir (backupName backupPrefixDir destinationDir : string)
    (disks : list clickhouse.Disk) : M W (option error) :=
  dp <- readWorld (fun w => ch_GetDefaultPath w disks) ;;
  match dp with
  | inl _ => ret (Some ErrUnknownClickhouseDataPath)
  | inr defaultDataPath =>
      let srcBackupDir := path.Join [defaultDataPath; "backup"; backupName; backupPrefixDir] in
      st <- readWorld (fun w => os_Stat w srcBackupDir) ;;
      match st with
      | inl err => ret (Some err)
      | inr info =>
          if negb (IsDir info) then ret (Some (fmt.Errorf (srcBackupDir +:+ " is not a dir")))
          else
            check withWorld (recursiveCopy_Copy srcBackupDir destinationDir) ;;
            g <- readWorld (fun w => filepathx_Glob w (path.Join [destinationDir; "**"])) ;;
            match g with
            | inl err => ret (Some err)
            | inr files => chownFiles (files ++ [destinationDir])%list disks
            end
      end
  end.

Fixpoint removeFiles (files : list string) : M W (option error) :=
  match files with
  | [] => ret None
  | f :: rest => check withWorld (os_Remove f) ;; removeFiles rest
  end.

(** restoreRBAC - copy backup_name>/rbac folder to access_data_path *)
Definition restoreRBAC (backupName : string) (disks : list clickhouse.Disk)
    : M W (option error) :=
  ap <- readWorld ch_GetAccessManagementPath ;;
  match ap with
  | inl err => ret (Some err)
  | inr accessPath =>
      r <- restoreBackupRelatedDir backupName "access" accessPath disks ;;
      match r with
      | None =>
          let markFile := path.Join [accessPath; "need_rebuild_lists.mark"] in
          check withWorld (os_Create markFile) ;;
          _ <- filesystemhelper.Chown markFile disks false ;;
          let listFilesPattern := path.Join [accessPath; "*.list"] in
          g <- readWorld (fun w => filepathx_Glob w listFilesPattern) ;;
          match g with
          | inl err => ret (Some err)
          | inr listFiles => check removeFiles listFiles ;; ret None
          end
      | Some err => if negb (os.IsNotExist err) then ret (Some err) else ret None
      end
  end.

(** restoreConfigs - copy backup_name/configs folder to /etc/clickhouse-server/ *)
Definition restoreConfigs (backupName : string) (disks : list clickhouse.Disk)
    : M W (option error) :=
  c <- getCfg ;;
  r <- restoreBackupRelatedDir backupName "configs" (ConfigDir c) disks ;;
  match r with
  | Some err => if os.IsNotExist err then ret None else ret (Some err)
  | None => ret None
  end.

(** *** Restore *)

Fixpoint restoreEmptyDatabases (tablePattern : string) (databases : list metadata.DatabasesMeta)
    (dropTable schemaOnly : bool) : M W (option error) :=
  match databases with
  | [] => ret None
  | database :: rest =>
      check (if negb (IsInformationSchema (metadata.DbName database))
             then restoreEmptyDatabase tablePattern database dropTable schemaOnly
             else ret None) ;;
      restoreEmptyDatabases tablePattern rest dropTable schemaOnly
  end.

Fixpoint createFunctions (functions : list metadata.FunctionsMeta) : M W (option error) :=
  match functions with
  | [] => ret None
  | function :: rest =>
      c <- getCfg ;;
      check withWorld (ch_CreateUserDefinedFunction (metadata.FnName function)
                         (metadata.FnCreateQuery function) (RestoreSchemaOnCluster c)) ;;
      createFunctions rest
  end.

(** The loop reading [metadata.json]: the body read, the error of the
    last read and [isEmbedded]. *)
Fixpoint readMetafiles (w : W) (embeddedBackupPath : string) (paths : list string)
    (body : string) (err : option error) : string * option error * bool :=
  match paths with
  | [] => (body, err, false)
  | metadataPath :: rest =>
      match os_ReadFile w metadataPath with
      | inr content =>
          if negb (bool_decide (embeddedBackupPath = ""))
          then (content, None, strings.HasPrefix metadataPath embeddedBackupPath)
          else readMetafiles w embeddedBackupPath rest content None
      | inl e => readMetafiles w embeddedBackupPath rest "" (Some e)
      end
  end.

(** [%v] of an error that may be nil. *)
Definition showError (err : option error) : string :=
  match err with Some e => Error e | None => "<nil>" end.

(** The two phases at the end of [Restore]. *)
Definition restorePhases (backupName tablePattern : string) (partitions : list string)
    (schemaOnly dataOnly dropTable ignoreDependencies : bool)
    (disks : list clickhouse.Disk) (isEmbedded : bool) : M W (option error) :=
  check (if schemaOnly || eqb schemaOnly dataOnly
         then RestoreSchema backupName tablePattern dropTable ignoreDependencies disks isEmbedded
         else ret None) ;;
  check (if dataOnly || eqb schemaOnly dataOnly
         then RestoreData backupName tablePattern partitions disks isEmbedded
         else ret None) ;;
  ret None.

(** The restart of the server after access or configs were restored. *)
Definition restartServer (backupName : string) : M W (option error) :=
  c <- getCfg ;;
  Warnf (backupName +:+ " contains `access` or `configs` directory, so we need exec " +:+
         RestartCommand c) ;;;
  match shellwords_Parse (RestartCommand c) with
  | inl err => ret (Some err)
  | inr cmd =>
      match cmd with
      | [] => fun _ => Panic        (* cmd[0] *)
      | _ => withWorld (exec_CombinedOutput cmd)
      end
  end.

(** [Restore], after the connection is open (the deferred [Close] is in
    [Restore] below). *)
Definition restoreConnected (backupName tablePattern : string) (partitions : list string)
    (schemaOnly dataOnly dropTable ignoreDependencies rbacOnly configsOnly : bool)
    : M W (option error) :=
  let doRestoreData := negb schemaOnly || dataOnly in
  if decide (backupName = "") then
    _ <- withWorld PrintLocalBackups ;;
    ret (Some (fmt.Errorf "select backup for restore"))
  else
  gd <- readWorld ch_GetDisks ;;
  match gd with
  | inl err => ret (Some err)
  | inr disks =>
  dp <- readWorld (fun w => ch_GetDefaultPath w disks) ;;
  match dp with
  | inl err => Warnf (Error err) ;;; ret (Some ErrUnknownClickhouseDataPath)
  | inr defaultDataPath =>
  let backupMetafileLocalPaths := [path.Join [defaultDataPath; "backup"; backupName; "metadata.json"]] in
  ep <- readWorld (fun w => ch_GetEmbeddedBackupPath w disks) ;;
  let '(embeddedBackupPath, err) := ep in
  c <- getCfg ;;
  located <-
    (if bool_decide (err = None) && negb (bool_decide (embeddedBackupPath = "")) then
       ret (inr (backupMetafileLocalPaths ++
                 [path.Join [embeddedBackupPath; backupName; "metadata.json"]])%list)
     else if UseEmbeddedBackupRestore c && bool_decide (EmbeddedBackupDisk c = "") then
       Warnf (showError err) ;;; ret (inr backupMetafileLocalPaths)
     else match err with
          | Some e => ret (inl e)
          | None => ret (inr backupMetafileLocalPaths)
          end) ;;
  match located with
  | inl e => ret (Some e)
  | inr backupMetafileLocalPaths =>
  rd <- readWorld (fun w => readMetafiles w embeddedBackupPath backupMetafileLocalPaths "" err) ;;
  let '(backupMetadataBody, err, isEmbedded) := rd in
  err <- (if negb (bool_decide (RestoreSchemaOnCluster c = "")) then
            am <- readWorld (fun w => ch_ApplyMacros w (RestoreSchemaOnCluster c)) ;;
            setCfg (setRestoreSchemaOnCluster c (fst am)) ;;;
            ret (snd am)
          else ret err) ;;
  manifest <-
    (match err with
     | None =>
         match json_Unmarshal_BackupMetadata backupMetadataBody with
         | inl e => ret (Some (Some e))
         | inr backupMetadata =>
             r <- (if schemaOnly || doRestoreData then
                     check restoreEmptyDatabases tablePattern (metadata.Databases backupMetadata)
                             dropTable schemaOnly ;;
                     createFunctions (metadata.Functions backupMetadata)
                   else ret None) ;;
             match r with
             | Some e => ret (Some (Some e))
             | None =>
                 if Nat.eqb (length (metadata.Tables backupMetadata)) 0 then
                   Warnf ("'" +:+ backupName +:+ "' doesn't contains tables for restore") ;;;
                   if negb rbacOnly && negb configsOnly then ret (Some None) else ret None
                 else ret None
             end
         end
     | Some e =>
         (* Legacy backups don't contain metadata.json *)
         if negb (os.IsNotExist e) then ret (Some (Some e)) else ret None
     end) ;;
  match manifest with
  | Some returned => ret returned
  | None =>
  rbac <- (if rbacOnly && negb isEmbedded then
             r <- restoreRBAC backupName disks ;;
             match r with Some e => ret (inl e) | None => ret (inr true) end
           else ret (inr false)) ;;
  match rbac with
  | inl e => ret (Some e)
  | inr needRestart =>
  configs <- (if configsOnly && negb isEmbedded then
                r <- restoreConfigs backupName disks ;;
                match r with Some e => ret (inl e) | None => ret (inr true) end
              else ret (inr needRestart)) ;;
  match configs with
  | inl e => ret (Some e)
  | inr needRestart =>
      if (needRestart : bool) then restartServer backupName
      else restorePhases backupName tablePattern partitions schemaOnly dataOnly dropTable
             ignoreDependencies disks isEmbedded
  end end end end end end.

(** Restore - restore tables matched by tablePattern from backupName *)
Definition Restore (backupName tablePattern : string) (databaseMapping partitions : list string)
    (schemaOnly dataOnly dropTable ignoreDependencies rbacOnly configsOnly : bool)
    (commandId : nat) : M W (option error) :=
  ctx <- readWorld (fun w => status_GetContextWithCancel w commandId) ;;
  match ctx with
  | Some err => ret (Some err)
  | None =>
      let backupName := CleanBackupNameRE_ReplaceAllString backupName in
      check prepareRestoreDatabaseMapping databaseMapping ;;
      conn <- withWorld ch_Connect ;;
      match conn with
      | Some err => ret (Some (fmt.Errorf ("can't connect to clickhouse: " +:+ Error err)))
      | None =>
          r <- restoreConnected backupName tablePattern partitions schemaOnly dataOnly
                 dropTable ignoreDependencies rbacOnly configsOnly ;;
          _ <- withWorld ch_Close ;;
          ret r
      end
  end.

End Restore.
End backup.

(** ** pkg/utils: HumanizeDuration

    A [time.Duration] is a number of nanoseconds.  Go's [Duration.String]
    and [Duration.Round] are parameters.  [FormatBytes] formats floating
    point numbers and is not modelled. *)

Module utils.

Definition Millisecond : Z := 1000000.
Definition Minute : Z := 60000000000.
Definition day : Z := Minute * 60 * 24.
Definition year : Z := 365 * day.

Section Humanize.
Variable Duration_String : Z -> string.
Variable Duration_Round : Z -> Z -> Z.

Definition HumanizeDuration (d : Z) : string :=
  if (d <? day)%Z then Duration_String (Duration_Round d Millisecond)
  else
    let '(b, d) :=
      if (year <=? d)%Z then
        let years := Z.quot d year in
        (pretty years +:+ "y", (d - years * year)%Z)
      else ("", d) in
    let days := Z.quot d day in
    let d := (d - days * day)%Z in
    b +:+ pretty days +:+ "d" +:+ Duration_String d.

End Humanize.

End utils.

(** ** Definitions used to state the properties *)

Module spec.

(** The rules of a mapping argument list: the items between commas of
    every argument, in order. *)
Definition mappingRules (databaseMapping : list string) : list string :=
  flat_map (fun arg => strings.Split arg ",") databaseMapping.

(** A rule is accepted when it has exactly two parts around one colon. *)
Definition acceptedRule (m : string) : bool :=
  Nat.eqb (length (strings.Split m ":")) 2.

(** A rule made of two names that are not empty. *)
Definition twoNonEmptyNames (m : string) : Prop :=
  exists src dst, strings.Split m ":" = [src; dst] /\ src <> "" /\ dst <> "".

Definition ruleSource (m : string) : string := default "" (strings.Split m ":" !! 0).
Definition ruleDestination (m : string) : string := default "" (strings.Split m ":" !! 1).

(** The destination of the last rule that declares [src]. *)
Definition lastDeclared (rules : list string) (src : string) : option string :=
  ruleDestination <$> last (filter (fun m => ruleSource m = src) rules).

Definition mappingError (m : string) : error :=
  fmt.Errorf ("restore-database-mapping " +:+ m +:+
    " should only have srcDatabase:destinationDatabase format for each map rule").

Definition withMapping {W} (s : State W) (m : gmap string string) : State W :=
  {| world := world s; cfg := backup.setRestoreDatabaseMapping (cfg s) m;
     uid := uid s; gid := gid s; chownLock := chownLock s; logs := logs s |}.

Definition emptyConfig : Config :=
  {| RestoreDatabaseMapping := ∅; RestoreSchemaOnCluster := "";
     UseEmbeddedBackupRestore := false; EmbeddedBackupDisk := "";
     RestartCommand := ""; ConfigDir := "" |}.

(** The state of a fresh process in the world [w]. *)
Definition initState {W} (w : W) : State W :=
  {| world := w; cfg := emptyConfig; uid := None; gid := None;
     chownLock := false; logs := [] |}.

End spec.

Module spec_partitions.

(** The identifiers of a literal filter: the items between commas of the
    trimmed filter, each trimmed of blanks. *)
Definition literalIds (partitionArg : string) : list string :=
  (fun item => strings.Trim item filesystemhelper.blanks)
    <$> strings.Split (strings.Trim partitionArg filesystemhelper.blanks) ",".

(** The tables a tuple is evaluated against: database, name and query of
    every live and every captured table. *)
Definition evaluatedTables (tablesFromClickHouse : list clickhouse.Table)
    (tablesFromMetadata : list metadata.TableMetadata) : list (string * string * string) :=
  filesystemhelper.liveItems tablesFromClickHouse ++
  filesystemhelper.capturedItems tablesFromMetadata.

Definition withLog {W} (s : State W) (l : LogLevel) (text : string) : State W :=
  {| world := world s; cfg := cfg s; uid := uid s; gid := gid s;
     chownLock := chownLock s;
     logs := logs s ++ [ {| level := l; message := text |} ] |}.

End spec_partitions.

(** ** A small world to run the model in

    A server that executes every statement it is given, and a file
    system that is a finite map from paths to kinds.  It is used for the
    examples only. *)

Module testbed.

Record World := {
  journal : list string;               (* what the server was asked, oldest first *)
  liveTables : list clickhouse.Table;  (* system.tables *)
  captured : list metadata.TableMetadata;  (* the tables of the backup *)
  files : gmap string bool;            (* path to "is a directory" *)
}.

Definition record (text : string) (w : World) : World :=
  {| journal := journal w ++ [text]; liveTables := liveTables w;
     captured := captured w; files := files w |}.

Definition setFiles (f : gmap string bool) (w : World) : World :=
  {| journal := journal w; liveTables := liveTables w; captured := captured w; files := f |}.

Definition stat (w : World) (p : string) : error + FileInfo :=
  match files w !! p with
  | Some dir => inr {| IsDir := dir; IsRegular := negb dir; StatUid := 101; StatGid := 101;
                       Size := 1 |}
  | None => inl (SysError ENOENT ("stat " +:+ p +:+ ": no such file or directory"))
  end.

Definition visitsOf (w : World) (root : string) : list Visit :=
  match stat w root with
  | inl err =>
      [ {| visitPath := root; visitInfo := None; visitErr := Some err |} ]
  | inr info =>
      {| visitPath := root; visitInfo := Some info; visitErr := None |} ::
      omap (fun entry : string * bool =>
              if strings.HasPrefix (fst entry) (root +:+ "/") then
                Some {| visitPath := fst entry;
                        visitInfo := Some {| IsDir := snd entry; IsRegular := negb (snd entry);
                                             StatUid := 101; StatGid := 101; Size := 1 |};
                        visitErr := None |}
              else None)
           (map_to_list (files w))
  end.

#[export] Instance testOS : OperatingSystem World := {|
  os_Getuid := fun _ => 101;
  os_Stat := stat;
  os_Lstat := stat;
  os_MkdirAll := fun p w =>
    match files w !! p with
    | Some true => (None, w)
    | Some false => (Some (SysError ENOTDIR ("mkdir " +:+ p +:+ ": not a directory")), w)
    | None => (None, setFiles (<[p := true]> (files w)) w)
    end;
  os_Chown := fun _ _ _ w => (None, w);
  os_Link := fun src dst w =>
    match files w !! dst with
    | Some _ => (Some (SysError EEXIST ("link " +:+ src +:+ " " +:+ dst +:+ ": file exists")), w)
    | None =>
        match files w !! src with
        | Some false => (None, setFiles (<[dst := false]> (files w)) w)
        | _ => (Some (SysError ENOENT ("link " +:+ src +:+ " " +:+ dst +:+
                                       ": no such file or directory")), w)
        end
    end;
  os_ReadFile := fun _ p => inl (SysError ENOENT ("open " +:+ p +:+ ": no such file or directory"));
  os_Create := fun p w => (None, setFiles (<[p := false]> (files w)) w);
  os_Remove := fun p w => (None, setFiles (delete p (files w)) w);
  os_Rename := fun src dst w =>
    match files w !! src with
    | Some kind => (None, setFiles (<[dst := kind]> (delete src (files w))) w)
    | None => (Some (SysError ENOENT ("rename " +:+ src +:+ " " +:+ dst +:+
                                      ": no such file or directory")), w)
    end;
  filepath_Walk_visits := visitsOf;
  filepathx_Glob := fun _ _ => inr [];
  recursiveCopy_Copy := fun _ _ w => (None, w);
  shellwords_Parse := fun s => inr (strings.Split s " ");
  exec_CombinedOutput := fun _ w => (None, w);
|}.

Definition defaultPathOf (disks : list clickhouse.Disk) : error + string :=
  match find (fun d => bool_decide (clickhouse.DiskName d = "default")) disks with
  | Some d => inr (clickhouse.DiskPath d)
  | None => inl (ErrorString "no default disk")
  end.

(** The disk of a data path: the disk whose path is a prefix of it. *)
Definition disksByPaths (disks : list clickhouse.Disk) (dataPaths : list string)
    : gmap string string :=
  foldl (fun m d =>
           match find (fun p => strings.HasPrefix p (clickhouse.DiskPath d)) dataPaths with
           | Some p => <[clickhouse.DiskName d := p]> m
           | None => m
           end) ∅ disks.

#[export] Instance testServer : ClickHouse World := {|
  ch_Connect := fun w => (None, w);
  ch_Close := fun w => (tt, w);
  ch_GetDisks := fun _ =>
    inr [ {| clickhouse.DiskName := "default"; clickhouse.DiskPath := "/var/lib/clickhouse";
             clickhouse.DiskType := "local" |} ];
  ch_GetDefaultPath := fun _ disks => defaultPathOf disks;
  ch_GetEmbeddedBackupPath := fun _ _ => ("", None);
  ch_ApplyMacros := fun _ s => (s, None);
  ch_GetVersion := fun _ => inr 22;
  ch_GetTables := fun w _ => inr (liveTables w);
  ch_GetAccessManagementPath := fun _ => inr "/var/lib/clickhouse/access";
  ch_IsClickhouseShadow := fun _ _ => false;
  ch_GetBackupTablesLegacy := fun w _ _ => inr (captured w);
  ch_QueryContext := fun q w => (None, record q w);
  ch_CreateDatabase := fun db _ w => (None, record ("CREATE DATABASE " +:+ db) w);
  ch_CreateDatabaseFromQuery := fun q _ w => (None, record q w);
  ch_CreateUserDefinedFunction := fun _ q _ w => (None, record q w);
  ch_CreateTable := fun _ q _ _ _ _ w => (None, record q w);
  ch_DropTable := fun _ q _ _ _ w => (None, record ("DROP " +:+ q) w);
  ch_AttachPartitions := fun t _ w =>
    (None, record ("ATTACH " +:+ metadata.Database t +:+ "." +:+ metadata.Table t) w);
  ch_Select_SystemBackups := fun q _ _ w => (inr ["RESTORED"], record q w);
  (** a tuple is evaluated by a table that has a partitioning expression *)
  partition_GetPartitionId := fun _ _ _ query partitionTuple =>
    if strings.Contains query "PARTITION BY" then (None, partitionTuple)
    else (Some (ErrorString "table has no partition key"), "");
  clickhouse_GetDisksByPaths := disksByPaths;
|}.

#[export] Instance testPackage : Package World := {|
  status_GetContextWithCancel := fun _ _ => None;
  PrintLocalBackups := fun w => (tt, w);
  json_Unmarshal_BackupMetadata := fun _ =>
    inr {| metadata.Databases := []; metadata.Tables := []; metadata.Functions := [] |};
  IsInformationSchema := fun db => bool_decide (db = "information_schema");
  ShallSkipDatabase := fun _ _ _ => false;
  getTableListByPatternLocal := fun w _ _ _ _ _ => inr (captured w);
  changeTableQueryToAdjustDatabaseMapping := fun tables _ => (None, tables);
  getLocalBackup_Legacy := fun _ _ _ => inr false;
  common_TablePathEncode := fun s => s;
|}.

#[export] Instance testRegexp : Regexp := {|
  CreateDatabaseRE_ReplaceAllString := fun q _ => q;
  UUIDWithReplicatedMergeTreeRE_ReplaceAllString := fun q => q;
  CleanBackupNameRE_ReplaceAllString := fun s => s;
  regexp_compiles := fun _ => true;
  regexp_MatchString := fun _ _ => false;
  regexp_FirstSubmatch1 := fun _ _ => "";
  regexp_ReplaceAllString := fun _ s _ => s;
|}.

Definition directoryInfo : FileInfo :=
  {| IsDir := true; IsRegular := false; StatUid := 101; StatGid := 101; Size := 4096 |}.

Definition regularInfo : FileInfo :=
  {| IsDir := false; IsRegular := true; StatUid := 101; StatGid := 101; Size := 1 |}.

(** An operating system in which a part is already staged: every
    directory exists, a part has two files, and every link finds its
    destination in place. *)
Definition stagedOS : OperatingSystem World := {|
  os_Getuid := fun _ => 101;
  os_Stat := fun _ _ => inr directoryInfo;
  os_Lstat := fun _ _ => inr directoryInfo;
  os_MkdirAll := fun _ w => (None, w);
  os_Chown := fun _ _ _ w => (None, w);
  os_Link := fun src dst w =>
    (Some (SysError EEXIST ("link " +:+ src +:+ " " +:+ dst +:+ ": file exists")), w);
  os_ReadFile := os_ReadFile (OperatingSystem := testOS);
  os_Create := os_Create (OperatingSystem := testOS);
  os_Remove := os_Remove (OperatingSystem := testOS);
  os_Rename := os_Rename (OperatingSystem := testOS);
  filepath_Walk_visits := fun _ root =>
    [ {| visitPath := root; visitInfo := Some directoryInfo; visitErr := None |};
      {| visitPath := root +:+ "/checksums.txt"; visitInfo := Some regularInfo;
         visitErr := None |};
      {| visitPath := root +:+ "/data.bin"; visitInfo := Some regularInfo;
         visitErr := None |} ];
  filepathx_Glob := filepathx_Glob (OperatingSystem := testOS);
  recursiveCopy_Copy := recursiveCopy_Copy (OperatingSystem := testOS);
  shellwords_Parse := shellwords_Parse (OperatingSystem := testOS);
  exec_CombinedOutput := exec_CombinedOutput (OperatingSystem := testOS);
|}.

Definition emptyWorld : World :=
  {| journal := []; liveTables := []; captured := []; files := ∅ |}.

(** The same operating system for a process that runs as root. *)
Definition rootOS : OperatingSystem World := {|
  os_Getuid := fun _ => 0;
  os_Stat := stat;
  os_Lstat := stat;
  os_MkdirAll := os_MkdirAll (OperatingSystem := testOS);
  os_Chown := os_Chown (OperatingSystem := testOS);
  os_Link := os_Link (OperatingSystem := testOS);
  os_ReadFile := os_ReadFile (OperatingSystem := testOS);
  os_Create := os_Create (OperatingSystem := testOS);
  os_Remove := os_Remove (OperatingSystem := testOS);
  os_Rename := os_Rename (OperatingSystem := testOS);
  filepath_Walk_visits := visitsOf;
  filepathx_Glob := filepathx_Glob (OperatingSystem := testOS);
  recursiveCopy_Copy := recursiveCopy_Copy (OperatingSystem := testOS);
  shellwords_Parse := shellwords_Parse (OperatingSystem := testOS);
  exec_CombinedOutput := exec_CombinedOutput (OperatingSystem := testOS);
|}.

End testbed.

(** ** Data of the examples *)

Module examples.

Definition literal_example : list string := ["20230101,20230102"; " 20230103 , 20230101"].

(** A live table without a partitioning expression. *)
Definition unpartitioned : clickhouse.Table :=
  {| clickhouse.Database := "db1"; clickhouse.Name := "t1";
     clickhouse.CreateTableQuery := "CREATE TABLE db1.t1 (d Date) ENGINE = Log";
     clickhouse.DataPaths := [] |}.

(** A captured table with one part on the default disk and no DDL text. *)
Definition noDDL : metadata.TableMetadata :=
  {| metadata.Table := "t1"; metadata.Database := "db1";
     metadata.Parts := {[ "default" := [ {| metadata.PartName := "20230101_1_1_0" |} ] ]};
     metadata.Query := "" |}.

(** The same table with a second part on a disk named cold. *)
Definition coldTable : metadata.TableMetadata :=
  {| metadata.Table := "t1"; metadata.Database := "db1";
     metadata.Parts := {[ "default" := [ {| metadata.PartName := "20230101_1_1_0" |} ];
                          "cold" := [ {| metadata.PartName := "20220101_1_1_0" |} ] ]};
     metadata.Query := "CREATE TABLE db1.t1 (d Date) ENGINE = MergeTree PARTITION BY d" |}.

(** A captured table whose only part is on the disk named cold. *)
Definition coldOnly : metadata.TableMetadata :=
  {| metadata.Table := "t1"; metadata.Database := "db1";
     metadata.Parts := {[ "cold" := [ {| metadata.PartName := "20220101_1_1_0" |} ] ]};
     metadata.Query := "CREATE TABLE db1.t1 (d Date) ENGINE = MergeTree PARTITION BY d" |}.

Definition defaultDisk : clickhouse.Disk :=
  {| clickhouse.DiskName := "default"; clickhouse.DiskPath := "/var/lib/clickhouse";
     clickhouse.DiskType := "local" |}.

(** A world where the table db1.t1 is live. *)
Definition liveWorld : testbed.World :=
  {| testbed.journal := [];
     testbed.liveTables :=
       [ {| clickhouse.Database := "db1"; clickhouse.Name := "t1";
            clickhouse.CreateTableQuery :=
              "CREATE TABLE db1.t1 (d Date) ENGINE = MergeTree PARTITION BY d";
            clickhouse.DataPaths := ["/var/lib/clickhouse/data/db1/t1/"] |} ];
     testbed.captured := [coldTable];
     testbed.files := ∅ |}.

(** A world with the backup of one part of db1.t1 on the default disk. *)
Definition backupWorld : testbed.World :=
  {| testbed.journal := [];
     testbed.liveTables := testbed.liveTables liveWorld;
     testbed.captured := [noDDL];
     testbed.files :=
       {[ "/var/lib/clickhouse/backup/2023-01-01/shadow/db1/t1/default/20230101_1_1_0" := true;
          "/var/lib/clickhouse/backup/2023-01-01/shadow/db1/t1/default/20230101_1_1_0/checksums.txt" := false;
          "/var/lib/clickhouse/backup/2023-01-01/shadow/db1/t1/default/20230101_1_1_0/data.bin" := false ]} |}.

End examples.

(** ** Definitions used to state the properties of the schema phases *)

Module spec_schema.

Section Engine.
Context {W : Type} `{!ClickHouse W}.

(** The server refused, with [err], a drop of the table of [schema]. *)
Definition dropRefused (schema : metadata.TableMetadata) (ignoreDependencies : bool)
    (version : nat) (err : error) : Prop :=
  exists (w : W) (query onCluster : string),
    fst (ch_DropTable (metadata.Database schema, metadata.Table schema) query onCluster
           ignoreDependencies version w) = Some err.

(** The server accepted a drop of the table of [schema] with [query]. *)
Definition dropAccepted (schema : metadata.TableMetadata) (ignoreDependencies : bool)
    (version : nat) (query : string) : Prop :=
  exists (w : W) (onCluster : string),
    fst (ch_DropTable (metadata.Database schema, metadata.Table schema) query onCluster
           ignoreDependencies version w) = None.

(** The server refused, with [err], to create the table of [schema]. *)
Definition createRefused (schema : metadata.TableMetadata) (version : nat) (err : error)
    : Prop :=
  exists (w : W) (query onCluster : string),
    fst (ch_CreateTable (metadata.Database schema, metadata.Table schema) query false false
           onCluster version w) = Some err.

(** The server refused, with [err], to create the database [db]. *)
Definition createDatabaseRefused (db : string) (err : error) : Prop :=
  exists (w : W) (onCluster : string), fst (ch_CreateDatabase db onCluster w) = Some err.

End Engine.

Definition tableGuess (schema : metadata.TableMetadata) : string :=
  "CREATE TABLE `" +:+ metadata.Database schema +:+ "`.`" +:+ metadata.Table schema +:+ "`".

Definition dictionaryGuess (schema : metadata.TableMetadata) : string :=
  "CREATE DICTIONARY `" +:+ metadata.Database schema +:+ "`.`" +:+ metadata.Table schema +:+ "`".

Definition viewGuess (schema : metadata.TableMetadata) : string :=
  "CREATE MATERIALIZED VIEW `" +:+ metadata.Database schema +:+ "`.`" +:+
  metadata.Table schema +:+ "`".

Definition createDatabaseFailure (db : string) (err : error) : error :=
  fmt.Errorf ("can't create database '" +:+ db +:+ "': " +:+ Error err).

(** What the drop phase leaves of an entry when the server accepts every
    drop: the guess for a materialized view where the text was empty. *)
Definition viewGuessed (t : metadata.TableMetadata) : metadata.TableMetadata :=
  if decide (metadata.Query t = "") then backup.setQuery t (viewGuess t) else t.

(** Two entries for the same table with the same parts. *)
Definition sameTable (a b : metadata.TableMetadata) : Prop :=
  metadata.Database a = metadata.Database b /\
  metadata.Table a = metadata.Table b /\
  metadata.Parts a = metadata.Parts b.

Section Guess.
Context {W : Type} `{!ClickHouse W}.

(** [written] is the entry [original] as the drop phase leaves it in the
    slice of the caller: the same table, and the same text unless the
    text was empty and a guess that the server accepted was stored. *)
Definition guessed (ignoreDependencies : bool) (version : nat)
    (original written : metadata.TableMetadata) : Prop :=
  sameTable written original /\
  (metadata.Query original <> "" -> metadata.Query written = metadata.Query original) /\
  (metadata.Query original = "" ->
     metadata.Query written = "" \/
     (metadata.Query written ∈ backup.dropCandidates original /\
      dropAccepted original ignoreDependencies version (metadata.Query written))).

(** The table of [x] is the table of an entry of [entries]. *)
Definition fromEntries (entries : list metadata.TableMetadata) (x : metadata.TableMetadata)
    : Prop :=
  exists y, y ∈ entries /\ sameTable x y.

(** The errors the create phase can return: the retry budget was used up
    on a table of [entries], or the database of one could not be
    created. *)
Definition createError (totalRetries version : nat) (entries : list metadata.TableMetadata)
    (err : error) : Prop :=
  exists schema e, schema ∈ entries /\
    ((createRefused schema version e /\ err = backup.createFailure schema e totalRetries) \/
     (createDatabaseRefused (metadata.Database schema) e /\
      err = createDatabaseFailure (metadata.Database schema) e)).

End Guess.

(** [s'] is [s] with its first occurrence of [old], if there is one,
    replaced by [new], and nothing else changed. *)
Definition replacedFirst (old new s s' : string) : Prop :=
  (strings.Contains s old = false /\ s' = s) \/
  (exists pre post,
     s = pre +:+ old +:+ post /\
     s' = pre +:+ new +:+ post /\
     forall k, k < String.length pre -> strings.HasPrefix (strings.drop k s) old = false).

End spec_schema.

(** ** Definitions used to state the properties of the data restore *)

Module spec_data.

(** The destination of a table: its database after the mapping, and its
    name. *)
Definition destination (mapping : gmap string string) (table : metadata.TableMetadata)
    : string * string :=
  (default (metadata.Database table) (mapping !! metadata.Database table),
   metadata.Table table).

(** A live table exists under that database and name. *)
Definition live (chTables : list clickhouse.Table) (dst : string * string) : Prop :=
  exists chTable, chTable ∈ chTables /\
    clickhouse.Database chTable = fst dst /\ clickhouse.Name chTable = snd dst.

#[export] Instance live_dec chTables dst : Decision (live chTables dst).
Proof.
  refine (cast_if (decide (Exists (fun chTable =>
            clickhouse.Database chTable = fst dst /\ clickhouse.Name chTable = snd dst)
            chTables)));
    unfold live; rewrite Exists_exists in *; done.
Defined.

Definition qualified (dst : string * string) : string :=
  "'" +:+ fst dst +:+ "." +:+ snd dst +:+ "'".

(** The names of the selected tables that have no live table at their
    destination, in the order of the selection. *)
Definition missingNames (mapping : gmap string string) (chTables : list clickhouse.Table)
    (tablesForRestore : list metadata.TableMetadata) : list string :=
  qualified <$> filter (fun dst => ~ live chTables dst)
                  (destination mapping <$> tablesForRestore).

(** The entry put in the disk list for a disk the server does not have. *)
Definition syntheticDisk (diskMap : gmap string string) (disk : string) : clickhouse.Disk :=
  {| clickhouse.DiskName := disk;
     clickhouse.DiskPath := default "" (diskMap !! "default");
     clickhouse.DiskType := "local" |}.

(** [disk] is a disk that [t] has parts on and the disk map lacks. *)
Definition lacksDisk (diskMap : gmap string string) (t : metadata.TableMetadata)
    (disk : string) : Prop :=
  disk ∈ dom (metadata.Parts t) /\ diskMap !! disk = None.

Definition warning (text : string) : LogEntry := {| level := WarnLevel; message := text |}.

(** The state [s] after [entries] were logged. *)
Definition logged {W} (s : State W) (entries : list LogEntry) : State W :=
  {| world := world s; cfg := cfg s; uid := uid s; gid := gid s;
     chownLock := chownLock s; logs := logs s ++ entries |}.

(** The warnings for the disks of [partDisks] that the disk map lacks. *)
Definition diskWarnings (diskMap : gmap string string) (t : metadata.TableMetadata)
    (partDisks : list string) : list LogEntry :=
  (fun disk => warning (backup.missingDiskWarning t disk (default "" (diskMap !! "default"))))
    <$> filter (fun disk => diskMap !! disk = None) partDisks.

(** The warnings of the pass over the disks of all tables. *)
Definition allDiskWarnings (diskMap : gmap string string)
    (tablesForRestore : list metadata.TableMetadata) : list LogEntry :=
  flat_map (fun t => diskWarnings diskMap t (map fst (map_to_list (metadata.Parts t))))
    tablesForRestore.


(** The number of elements, four at most, of the path of a visit below
    [shadowPath]. *)
Definition depthBelow (shadowPath : string) (v : Visit) : nat :=
  length (strings.SplitN
            (strings.Trim (strings.TrimPrefix (visitPath v) shadowPath) "/") "/" 4).

(** The entry of one table in the statement of the embedded restore. *)
Definition embeddedEntry (mapping : gmap string string) (partitions : list string)
    (t : metadata.TableMetadata) : string :=
  let kind := if strings.Contains (metadata.Query t) " DICTIONARY "
              then "DICTIONARY" else "TABLE" in
  let name := "`" +:+ metadata.Database t +:+ "`.`" +:+ metadata.Table t +:+ "`" in
  let renamed :=
    match mapping !! metadata.Database t with
    | Some newDb => " AS `" +:+ newDb +:+ "`.`" +:+ metadata.Table t +:+ "`"
    | None => ""
    end in
  let filtered :=
    if negb (strings.Contains (metadata.Query t) " VIEW ")
       && bool_decide (kind = "TABLE") && Nat.ltb 0 (length partitions)
    then " PARTITIONS '" +:+ strings.Join partitions "','" +:+ "'"
    else "" in
  kind +:+ " " +:+ name +:+ renamed +:+ filtered.

(** The state [s] with [chownLock] held. *)
Definition locked {W} (s : State W) : State W :=
  {| world := world s; cfg := cfg s; uid := uid s; gid := gid s;
     chownLock := true; logs := logs s |}.

End spec_data.

(** * Properties *)

Local Open Scope list_scope.

(** ** Go's strings *)

Module strings_facts.

Lemma HasPrefix_app (s t : string) : strings.HasPrefix (s +:+ t) s = true.
Proof.
  induction s as [|c s IH]; simpl; [done|].
  by rewrite Ascii.eqb_refl.
Qed.

Lemma append_cons (c : ascii) (a b : string) : String c a +:+ b = String c (a +:+ b).
Proof. reflexivity. Qed.

Lemma append_nil (b : string) : "" +:+ b = b.
Proof. reflexivity. Qed.

Lemma HasPrefix_drop (s p : string) :
  strings.HasPrefix s p = true -> s = p +:+ strings.drop (String.length p) s.
Proof.
  revert s. induction p as [|c p IH]; intros s H; [done|].
  destruct s as [|d s]; [done|]. simpl in H.
  destruct (Ascii.eqb c d) eqn:Hc; [|done].
  apply Ascii.eqb_eq in Hc as ->. rewrite append_cons. simpl. f_equal. by apply IH.
Qed.

Lemma length_app (a b : string) :
  String.length (a +:+ b) = String.length a + String.length b.
Proof. induction a as [|c a IH]; [done|]. rewrite append_cons. simpl. by rewrite IH. Qed.

Lemma app_assoc (a b c : string) : (a +:+ b) +:+ c = a +:+ (b +:+ c).
Proof. induction a as [|x a IH]; [done|]. rewrite !append_cons. by rewrite IH. Qed.

Lemma Contains_nil_r (s : string) : strings.Contains s "" = true.
Proof. by destruct s. Qed.

(** [strings.Replace(s, old, new, 1)] replaces the first occurrence of
    [old] and nothing else. *)
Lemma Replace1_first (s old new : string) :
  old <> "" ->
  spec_schema.replacedFirst old new s (strings.Replace1 s old new).
Proof.
  intros Hold. unfold spec_schema.replacedFirst.
  induction s as [|c s IH].
  - left. destruct old; [done|]. done.
  - destruct (strings.HasPrefix (String c s) old) eqn:Hp.
    + right. exists "", (strings.drop (String.length old) (String c s)).
      split; [by apply HasPrefix_drop|]. split.
      * cbn [strings.Replace1]. by rewrite Hp.
      * simpl. lia.
    + cbn [strings.Replace1 strings.Contains]. rewrite Hp.
      destruct IH as [[Hno ->]|(pre & post & -> & -> & Hfirst)].
      * left. done.
      * right. exists (String c pre), post. split; [done|]. split; [done|].
        intros [|k] Hk; [done|]. simpl. apply Hfirst. simpl in Hk. lia.
Qed.

Lemma Replace1_absent (s old new : string) :
  strings.Contains s old = false -> strings.Replace1 s old new = s.
Proof.
  induction s as [|c s IH]; cbn [strings.Replace1 strings.Contains].
  - by destruct (strings.HasPrefix "" old).
  - destruct (strings.HasPrefix (String c s) old); [done|]. intros H. by rewrite IH.
Qed.

Lemma replacedFirst_length (old new s s' : string) :
  String.length old = String.length new ->
  spec_schema.replacedFirst old new s s' -> String.length s' = String.length s.
Proof.
  intros Hlen [[_ ->]|(pre & post & -> & -> & _)]; [done|].
  rewrite !length_app. lia.
Qed.

End strings_facts.

(** ** The monad *)

Module monad_facts.

Lemma bind_ret_l {W A B} (a : A) (k : A -> M W B) (s : State W) :
  bind (ret a) k s = k a s.
Proof. reflexivity. Qed.

Lemma bind_Ret {W A B} (m : M W A) (k : A -> M W B) (s s' : State W) (a : A) :
  m s = Ret a s' -> bind m k s = k a s'.
Proof. intros H. unfold bind. by rewrite H. Qed.

End monad_facts.

(** ** Database mapping *)

Module mapping_facts.
Import spec backup.

Definition register (mapping : gmap string string) (m : string) : gmap string string :=
  <[ruleSource m := ruleDestination m]> mapping.

Lemma acceptedRule_split (m : string) :
  acceptedRule m = true -> strings.Split m ":" = [ruleSource m; ruleDestination m].
Proof.
  unfold acceptedRule, ruleSource, ruleDestination. intros H.
  destruct (strings.Split m ":") as [|a [|b [|c l]]]; simpl in H; try discriminate H.
  reflexivity.
Qed.

Lemma registerRules_rejected (m : string) (rest : list string) (mapping : gmap string string) :
  acceptedRule m = false ->
  registerRules (m :: rest) mapping = (Some (mappingError m), mapping).
Proof.
  unfold acceptedRule. intros H. simpl.
  destruct (strings.Split m ":") as [|a [|b [|c l]]]; simpl in H; try discriminate H;
    reflexivity.
Qed.

Lemma registerRules_accepted (m : string) (rest : list string) (mapping : gmap string string) :
  acceptedRule m = true ->
  registerRules (m :: rest) mapping = registerRules rest (register mapping m).
Proof.
  intros H. simpl. by rewrite (acceptedRule_split m H).
Qed.

Lemma registerRules_app (a b : list string) (mapping : gmap string string) :
  registerRules (a ++ b) mapping =
  match registerRules a mapping with
  | (Some err, mapping') => (Some err, mapping')
  | (None, mapping') => registerRules b mapping'
  end.
Proof.
  revert mapping. induction a as [|m a IH]; intros mapping; [done|].
  destruct (acceptedRule m) eqn:Hm.
  - rewrite <- app_comm_cons, !registerRules_accepted by done. apply IH.
  - by rewrite <- app_comm_cons, !registerRules_rejected.
Qed.

Lemma registerArgs_rules (databaseMapping : list string) (mapping : gmap string string) :
  registerArgs databaseMapping mapping = registerRules (mappingRules databaseMapping) mapping.
Proof.
  revert mapping. induction databaseMapping as [|arg rest IH]; intros mapping; [done|].
  unfold mappingRules in *. simpl. rewrite registerRules_app.
  destruct (registerRules (strings.Split arg ",") mapping) as [[err|] mapping']; [done|].
  apply IH.
Qed.

Lemma registerRules_all_accepted (rules : list string) (mapping : gmap string string) :
  find (fun m => negb (acceptedRule m)) rules = None ->
  registerRules rules mapping = (None, foldl register mapping rules).
Proof.
  revert mapping. induction rules as [|m rules IH]; intros mapping H; [done|].
  simpl in H. destruct (acceptedRule m) eqn:Hm; simpl in H; [|done].
  rewrite registerRules_accepted by done. by apply IH.
Qed.

Lemma registerRules_first_rejected (rules : list string) (mapping : gmap string string) (m : string) :
  find (fun m => negb (acceptedRule m)) rules = Some m ->
  exists mapping', registerRules rules mapping = (Some (mappingError m), mapping').
Proof.
  revert mapping. induction rules as [|r rules IH]; intros mapping H; [done|].
  simpl in H. destruct (acceptedRule r) eqn:Hr; simpl in H.
  - rewrite registerRules_accepted by done. by apply IH.
  - injection H as <-. rewrite registerRules_rejected by done. eauto.
Qed.

Lemma lookup_registered (rules : list string) (mapping : gmap string string) (src : string) :
  foldl register mapping rules !! src =
  match lastDeclared rules src with
  | Some dst => Some dst
  | None => mapping !! src
  end.
Proof.
  induction rules as [|m rules IH] using rev_ind.
  - done.
  - rewrite foldl_app. simpl. unfold register at 1, lastDeclared.
    rewrite filter_app, filter_cons, filter_nil.
    destruct (decide (ruleSource m = src)) as [->|Hne].
    + rewrite lookup_insert_eq, last_snoc. done.
    + rewrite lookup_insert_ne by done. rewrite app_nil_r. apply IH.
Qed.

End mapping_facts.

Module mapping_claims.
Import spec backup mapping_facts.

(** C3, as the code has it.  [prepareRestoreDatabaseMapping] splits every
    argument on commas and every item on colons.  It returns an error for
    the first item that does not split into exactly two parts (the parts
    may be empty names).  Otherwise it returns nil and has registered the
    pairs in order: a source name maps to the destination of the last
    pair that declares it, and the other names keep their entry. *)
Theorem prepareRestoreDatabaseMapping_registers {W : Type}
    (databaseMapping : list string) (s : State W) :
  match find (fun m => negb (acceptedRule m)) (mappingRules databaseMapping) with
  | Some m =>
      exists s', prepareRestoreDatabaseMapping databaseMapping s = Ret (Some (mappingError m)) s'
  | None =>
      exists mapping',
        prepareRestoreDatabaseMapping databaseMapping s = Ret None (withMapping s mapping') /\
        forall src,
          mapping' !! src =
          match lastDeclared (mappingRules databaseMapping) src with
          | Some dst => Some dst
          | None => RestoreDatabaseMapping (cfg s) !! src
          end
  end.
Proof.
  unfold prepareRestoreDatabaseMapping, bind, getCfg, setCfg, ret.
  rewrite registerArgs_rules.
  destruct (find _ (mappingRules databaseMapping)) as [m|] eqn:Hfind.
  - destruct (registerRules_first_rejected _ (RestoreDatabaseMapping (cfg s)) _ Hfind)
      as [mapping' ->].
    eauto.
  - rewrite (registerRules_all_accepted _ _ Hfind).
    eexists. split; [reflexivity|].
    intros src. apply lookup_registered.
Qed.

(** C3 as stated fails: the rule [db1:] has an empty destination name,
    and it is accepted and registered. *)
Lemma prepareRestoreDatabaseMapping_accepts_empty_name :
  ~ twoNonEmptyNames "db1:" /\
  prepareRestoreDatabaseMapping ["db1:"] (initState tt)
  = Ret None (withMapping (initState tt) {["db1" := ""]}).
Proof.
  split.
  - intros (src & dst & Hsplit & _ & Hdst).
    vm_compute in Hsplit. congruence.
  - reflexivity.
Qed.

End mapping_claims.

(** ** Partition resolver *)

Module partition_facts.
Import spec_partitions filesystemhelper.

Section Resolver.
Context {W : Type} `{!ClickHouse W}.

Lemma addLiterals_set (items : list string) (partitionsMap : gset string) :
  addLiterals items partitionsMap
  = list_to_set ((fun item => strings.Trim item blanks) <$> items) ∪ partitionsMap.
Proof.
  unfold addLiterals. revert partitionsMap.
  induction items as [|item items IH]; intros partitionsMap; simpl.
  - set_solver.
  - rewrite IH. set_solver.
Qed.

Lemma resolveArgs_literal (w : W) (live : list clickhouse.Table)
    (captured : list metadata.TableMetadata) (args : list string) (partitionsMap : gset string) :
  Forall (fun arg => isTupleForm arg = false) args ->
  resolveArgs w live captured args partitionsMap
  = inr (list_to_set (flat_map literalIds args) ∪ partitionsMap).
Proof.
  intros Hlit. revert partitionsMap.
  induction Hlit as [|arg args Harg _ IH]; intros partitionsMap; simpl.
  - f_equal. set_solver.
  - rewrite Harg, IH, addLiterals_set. f_equal.
    rewrite list_to_set_app_L. unfold literalIds. set_solver.
Qed.

Lemma resolveTuple_fails (w : W) (items : list (string * string * string))
    (partitionTuple database name query : string) (partitionsMap : gset string) :
  (database, name, query) ∈ items ->
  fst (partition_GetPartitionId w database name query partitionTuple) <> None ->
  exists err, resolveTuple w items partitionTuple partitionsMap = inl err.
Proof.
  intros Hin Hfail. revert partitionsMap.
  induction items as [|[[d n] q] items IH]; intros partitionsMap; simpl.
  - by apply elem_of_nil in Hin.
  - apply elem_of_cons in Hin as [Heq|Hin].
    + injection Heq as <- <- <-.
      destruct (partition_GetPartitionId w database name query partitionTuple) as [[err|] id];
        [eauto|done].
    + destruct (partition_GetPartitionId w d n q partitionTuple) as [[err|] id]; [eauto|].
      by apply IH.
Qed.

Lemma resolveTuples_fails (w : W) (live : list clickhouse.Table)
    (captured : list metadata.TableMetadata) (tuples : list string)
    (partitionTuple database name query : string) (partitionsMap : gset string) :
  partitionTuple ∈ tuples ->
  (database, name, query) ∈ evaluatedTables live captured ->
  fst (partition_GetPartitionId w database name query partitionTuple) <> None ->
  exists err, resolveTuples w live captured tuples partitionsMap = inl err.
Proof.
  intros Hin Htable Hfail. revert partitionsMap.
  induction tuples as [|other tuples IH]; intros partitionsMap; simpl.
  - by apply elem_of_nil in Hin.
  - apply elem_of_cons in Hin as [<-|Hin].
    + unfold evaluatedTables in Htable. apply elem_of_app in Htable as [Hl|Hc].
      * destruct (resolveTuple_fails w _ _ _ _ _ partitionsMap Hl Hfail) as [err ->]. eauto.
      * destruct (resolveTuple w (liveItems live) partitionTuple partitionsMap) as [err|m1];
          [eauto|].
        destruct (resolveTuple_fails w _ _ _ _ _ m1 Hc Hfail) as [err ->]. eauto.
    + destruct (resolveTuple w (liveItems live) other partitionsMap) as [err|m1]; [eauto|].
      destruct (resolveTuple w (capturedItems captured) other m1) as [err|m2]; [eauto|].
      by apply IH.
Qed.

Lemma resolveArgs_fails (w : W) (live : list clickhouse.Table)
    (captured : list metadata.TableMetadata) (args : list string)
    (partitionArg partitionTuple database name query : string) (partitionsMap : gset string) :
  partitionArg ∈ args ->
  isTupleForm partitionArg = true ->
  partitionTuple ∈ tuplesOf partitionArg ->
  (database, name, query) ∈ evaluatedTables live captured ->
  fst (partition_GetPartitionId w database name query partitionTuple) <> None ->
  exists err, resolveArgs w live captured args partitionsMap = inl err.
Proof.
  intros Hin Hform Htuple Htable Hfail. revert partitionsMap.
  induction args as [|other args IH]; intros partitionsMap; simpl.
  - by apply elem_of_nil in Hin.
  - apply elem_of_cons in Hin as [<-|Hin].
    + rewrite Hform.
      destruct (resolveTuples_fails w live captured _ _ _ _ _ partitionsMap Htuple Htable Hfail)
        as [err ->].
      eauto.
    + destruct (isTupleForm other); [|by apply IH].
      destruct (resolveTuples w live captured (tuplesOf other) partitionsMap) as [err|m];
        [eauto|by apply IH].
Qed.

End Resolver.
End partition_facts.

Module partition_claims.
Import spec spec_partitions filesystemhelper partition_facts testbed examples.

(** C7.  When every filter is of the literal form (its trimmed text does
    not start with a parenthesis), the identifier set is exactly the set
    of the items between commas of each trimmed filter, each trimmed of
    blanks (the cutset of the source: space and tab) and otherwise
    verbatim; the list returned has the elements of that set, each once.
    In particular [20230101,20230102] gives the set of [20230101] and
    [20230102]. *)
Theorem CreatePartitionsToBackupMap_literal {W : Type} `{!ClickHouse W}
    (live : list clickhouse.Table) (captured : list metadata.TableMetadata)
    (partitions : list string) (s : State W) :
  Forall (fun partitionArg => isTupleForm partitionArg = false) partitions ->
  exists ids : gset string,
    CreatePartitionsToBackupMap live captured partitions s = Ret (ids, elements ids) s /\
    ids = list_to_set (flat_map literalIds partitions) /\
    (forall id, id ∈ ids <->
       exists partitionArg, partitionArg ∈ partitions /\ id ∈ literalIds partitionArg) /\
    NoDup (elements ids) /\
    (partitions = ["20230101,20230102"] -> ids = {["20230101"; "20230102"]}).
Proof.
  intros Hlit. exists (list_to_set (flat_map literalIds partitions)).
  split; [|split; [done|split; [|split]]].
  - unfold CreatePartitionsToBackupMap. destruct partitions as [|arg rest] eqn:Heq.
    + simpl. by rewrite elements_empty.
    + rewrite <- Heq in *. unfold bind, readWorld, ret.
      rewrite (resolveArgs_literal _ _ _ _ _ Hlit).
      by rewrite (right_id_L ∅ (∪)).
  - intros id. rewrite elem_of_list_to_set, list_elem_of_In, in_flat_map.
    split; intros (arg & Harg & Hid); exists arg.
    + by rewrite !list_elem_of_In.
    + by rewrite <- !list_elem_of_In.
  - apply NoDup_elements.
  - intros ->. apply set_eq. intros id.
    rewrite elem_of_list_to_set. vm_compute flat_map. set_solver.
Qed.

(** The theorem at two literal filters, with a repeated identifier. *)
Lemma CreatePartitionsToBackupMap_literal_witness :
  Forall (fun partitionArg => isTupleForm partitionArg = false) literal_example /\
  exists ids : gset string,
    CreatePartitionsToBackupMap (W := testbed.World) [] [] literal_example
      (initState emptyWorld)
    = Ret (ids, elements ids) (initState emptyWorld) /\
    ids = {["20230101"; "20230102"; "20230103"]}.
Proof.
  assert (Hlit : Forall (fun partitionArg => isTupleForm partitionArg = false) literal_example).
  { repeat constructor. }
  split; [exact Hlit|].
  destruct (CreatePartitionsToBackupMap_literal (W := testbed.World) [] [] literal_example
              (initState emptyWorld) Hlit) as (ids & Hrun & Hids & _).
  exists ids. split; [exact Hrun|].
  rewrite Hids. clear. apply set_eq. intros id.
  rewrite elem_of_list_to_set.
  change (flat_map literalIds literal_example)
    with ["20230101"; "20230102"; "20230103"; "20230101"].
  rewrite !elem_of_cons, elem_of_nil, !elem_of_union, !elem_of_singleton. tauto.
Defined.

(** C4.  When a filter of the tuple form has a tuple whose evaluation
    fails for one of the live or captured tables, the resolution returns
    the empty identifier set and the filters it was given, whatever the
    other filters are, and logs the error. *)
Theorem CreatePartitionsToBackupMap_aborts {W : Type} `{!ClickHouse W}
    (live : list clickhouse.Table) (captured : list metadata.TableMetadata)
    (partitions : list string) (s : State W)
    (partitionArg partitionTuple database name query : string) :
  partitionArg ∈ partitions ->
  isTupleForm partitionArg = true ->
  partitionTuple ∈ tuplesOf partitionArg ->
  (database, name, query) ∈ evaluatedTables live captured ->
  fst (partition_GetPartitionId (world s) database name query partitionTuple) <> None ->
  exists err,
    CreatePartitionsToBackupMap live captured partitions s
    = Ret (∅, partitions)
          (withLog s ErrorLevel ("partition.GetPartitionId error: " +:+ Error err)).
Proof.
  intros Hin Hform Htuple Htable Hfail.
  destruct (resolveArgs_fails (world s) live captured partitions _ _ _ _ _ ∅
              Hin Hform Htuple Htable Hfail) as [err Herr].
  exists err. unfold CreatePartitionsToBackupMap.
  destruct partitions as [|arg rest] eqn:Heq; [by apply elem_of_nil in Hin|].
  rewrite <- Heq in *. unfold bind, readWorld. rewrite Herr. reflexivity.
Qed.

(** The theorem at a literal filter followed by two tuples, for a live
    table that has no partitioning expression: the identifier of the
    literal filter is not returned. *)
Lemma CreatePartitionsToBackupMap_aborts_witness :
  tuplesOf "(2023,1), (2023,2)" = ["2023,1"; "2023,2"] /\
  exists err,
    CreatePartitionsToBackupMap [unpartitioned] [] ["20221231"; "(2023,1), (2023,2)"]
      (initState emptyWorld)
    = Ret (∅, ["20221231"; "(2023,1), (2023,2)"])
          (withLog (initState emptyWorld) ErrorLevel
             ("partition.GetPartitionId error: " +:+ Error err)).
Proof.
  split; [reflexivity|].
  apply (CreatePartitionsToBackupMap_aborts [unpartitioned] [] _ (initState emptyWorld)
           "(2023,1), (2023,2)" "2023,2" "db1" "t1"
           "CREATE TABLE db1.t1 (d Date) ENGINE = Log").
  - apply list_elem_of_further, list_elem_of_here.
  - reflexivity.
  - apply list_elem_of_further, list_elem_of_here.
  - apply list_elem_of_here.
  - discriminate.
Defined.

End partition_claims.

(** ** Schema phases: the drop loop *)

Module drop_facts.
Import spec spec_schema backup.

Section Engine.
Context {W : Type} `{!ClickHouse W}.

Lemma dropCandidates_cases (schema : metadata.TableMetadata) :
  dropCandidates schema =
  if Nat.ltb 0 (size (metadata.Parts schema))
  then [tableGuess schema; dictionaryGuess schema; viewGuess schema]
  else [dictionaryGuess schema; viewGuess schema].
Proof. unfold dropCandidates. by destruct (Nat.ltb _ _). Qed.

Lemma DropTable_Ret (schema : metadata.TableMetadata) (query : string)
    (ignoreDependencies : bool) (version : nat) (s : State W) :
  exists s',
    DropTable schema query ignoreDependencies version s
    = Ret (fst (ch_DropTable (metadata.Database schema, metadata.Table schema) query
                  (RestoreSchemaOnCluster (cfg s)) ignoreDependencies version (world s))) s'.
Proof.
  unfold DropTable, bind, getCfg, withWorld.
  destruct (ch_DropTable _ _ _ _ _ _) as [r w']. simpl. eauto.
Qed.

(** The inner loop: what it returns for [dropErr] and for the stored
    query. *)
Lemma tryQueries_Ret (schema : metadata.TableMetadata) (ignoreDependencies : bool)
    (version : nat) (queries : list string) (dropErr : option error) (stored : string)
    (s : State W) :
  exists e st s',
    tryQueries schema ignoreDependencies version queries dropErr stored s = Ret (e, st) s' /\
    (queries = [] -> e = dropErr) /\
    (queries <> [] ->
       match e with
       | Some err => dropRefused schema ignoreDependencies version err
       | None => Some st = last queries
       end) /\
    (st = stored \/ (st ∈ queries /\ dropAccepted schema ignoreDependencies version st)).
Proof.
  revert dropErr stored s.
  induction queries as [|query rest IH]; intros dropErr stored s; simpl.
  - exists dropErr, stored, s. unfold ret. repeat split; try done. by left.
  - destruct (DropTable_Ret schema query ignoreDependencies version s) as [s1 Hdrop].
    unfold bind at 1. rewrite Hdrop.
    set (r := fst (ch_DropTable _ _ _ _ _ _)) in *.
    destruct (IH r (match r with None => query | Some _ => stored end) s1)
      as (e & st & s' & Hrun & Hnil & Hcons & Hst).
    exists e, st, s'. split; [exact Hrun|]. split; [done|]. split.
    + intros _. destruct rest as [|q2 rest'].
      * specialize (Hnil eq_refl). subst e. destruct r as [err|] eqn:Hr.
        -- exists (world s), query, (RestoreSchemaOnCluster (cfg s)). exact Hr.
        -- simpl in Hrun. unfold ret in Hrun. by injection Hrun as <- _.
      * specialize (Hcons ltac:(done)). destruct e; [done|].
        by rewrite Hcons.
    + destruct Hst as [->|[Hin Hacc]].
      * destruct r eqn:Hr; [by left|]. right. split; [apply list_elem_of_here|].
        exists (world s), (RestoreSchemaOnCluster (cfg s)). exact Hr.
      * right. split; [by apply list_elem_of_further|done].
Qed.

Lemma dropOne_Ret (schema : metadata.TableMetadata) (ignoreDependencies : bool)
    (version : nat) (dropErr : option error) (s : State W) :
  exists e st s',
    dropOne schema ignoreDependencies version dropErr s = Ret (e, st) s' /\
    match e with
    | Some err => dropRefused schema ignoreDependencies version err
    | None => metadata.Query schema = "" -> st = viewGuess schema
    end /\
    guessed ignoreDependencies version schema (setQuery schema st).
Proof.
  unfold dropOne. destruct (decide (metadata.Query schema = "")) as [Hq|Hq].
  - destruct (tryQueries_Ret schema ignoreDependencies version (dropCandidates schema)
                dropErr (metadata.Query schema) s) as (e & st & s' & Hrun & _ & Hcons & Hst).
    exists e, st, s'. split; [exact Hrun|].
    assert (Hne : dropCandidates schema <> []).
    { rewrite dropCandidates_cases. by destruct (Nat.ltb _ _). }
    specialize (Hcons Hne). split.
    + destruct e as [err|]; [done|]. intros _.
      rewrite dropCandidates_cases in Hcons.
      destruct (Nat.ltb _ _); simpl in Hcons; by injection Hcons.
    + split; [done|]. split; [done|]. intros _. simpl.
      destruct Hst as [->|Hst]; [by left|by right].
  - destruct (DropTable_Ret schema (metadata.Query schema) ignoreDependencies version s)
      as [s1 Hdrop].
    unfold bind. rewrite Hdrop. eexists _, _, _. split; [reflexivity|]. split.
    + destruct (fst _) as [err|] eqn:Hr; [|done].
      exists (world s), (metadata.Query schema), (RestoreSchemaOnCluster (cfg s)). exact Hr.
    + split; [done|]. split; [done|]. done.
Qed.

Lemma guessed_refl (ignoreDependencies : bool) (version : nat) (t : metadata.TableMetadata) :
  guessed ignoreDependencies version t t.
Proof. split; [done|]. split; [done|]. by left. Qed.

(** One pass: it returns; when it ends the budget is not exhausted, and
    the retries grew by the number of entries it carried over. *)
Lemma dropPass_Ret (totalRetries : nat) (ignoreDependencies : bool) (version : nat)
    (entries : list metadata.TableMetadata) (dropErr : option error) (dropRetries : nat)
    (notDropped : list metadata.TableMetadata) (s : State W) :
  dropRetries < totalRetries ->
  exists p s',
    dropPass totalRetries ignoreDependencies version entries dropErr dropRetries notDropped s
    = Ret p s' /\
    match p with
    | PassReturned err written =>
        (exists schema e, schema ∈ entries /\
           dropRefused schema ignoreDependencies version e /\
           err = dropFailure schema e totalRetries) /\
        Forall2 (guessed ignoreDependencies version) entries written
    | PassEnded _ retries' notDone written =>
        (exists failed, notDone = notDropped ++ failed /\
           retries' = dropRetries + length failed /\
           forall x, x ∈ failed -> x ∈ entries) /\
        retries' < totalRetries /\
        Forall2 (guessed ignoreDependencies version) entries written
    end.
Proof.
  revert dropErr dropRetries notDropped s.
  induction entries as [|schema rest IH]; intros dropErr dropRetries notDropped s Hlt; simpl.
  - eexists _, _. split; [reflexivity|]. split; [|split; [done|constructor]].
    exists []. rewrite app_nil_r. split; [done|]. split; [simpl; lia|].
    intros x Hx. by apply elem_of_nil in Hx.
  - destruct (dropOne_Ret schema ignoreDependencies version dropErr s)
      as (e & st & s1 & Hone & He & Hguess).
    unfold bind at 1. rewrite Hone. simpl.
    destruct e as [err|].
    + destruct (Nat.leb totalRetries (S dropRetries)) eqn:Hbudget.
      * apply Nat.leb_le in Hbudget.
        eexists _, _. split; [reflexivity|]. split.
        -- exists schema, err. split; [apply list_elem_of_here|]. split; [done|].
           replace totalRetries with (S dropRetries) by lia. done.
        -- constructor; [done|]. apply Forall2_same_length_lookup. split; [done|].
           intros i x y Hx Hy. rewrite Hx in Hy. injection Hy as <-. apply guessed_refl.
      * apply Nat.leb_gt in Hbudget.
        unfold bind at 1, Warnf, logf. 
        destruct (IH (Some err) (S dropRetries) (notDropped ++ [schema])
                    {| world := world s1; cfg := cfg s1; uid := uid s1; gid := gid s1;
                       chownLock := chownLock s1;
                       logs := logs s1 ++
                         [ {| level := WarnLevel;
                              message := "can't drop table '" +:+ metadata.Database schema +:+
                                "." +:+ metadata.Table schema +:+ "': " +:+ Error err +:+
                                ", will try again" |} ] |} Hbudget)
          as (p & s' & Hpass & Hp).
        unfold bind. rewrite Hpass. eexists _, _. split; [reflexivity|].
        destruct p as [perr written|e' retries' notDone written]; simpl.
        -- destruct Hp as [(x & e & Hx & Hxe & ->) Hw]. split.
           ++ exists x, e. split; [by apply list_elem_of_further|done].
           ++ by constructor.
        -- destruct Hp as [(failed & -> & -> & Hsub) [Hlt' Hw]]. split; [|split].
           ++ exists (schema :: failed). rewrite <- app_assoc. split; [done|].
              split; [simpl; lia|].
              intros x Hx. apply elem_of_cons in Hx as [->|Hx];
                [apply list_elem_of_here|by apply list_elem_of_further, Hsub].
           ++ done.
           ++ by constructor.
    + destruct (IH None dropRetries notDropped s1 Hlt) as (p & s' & Hpass & Hp).
      unfold bind. rewrite Hpass. eexists _, _. split; [reflexivity|].
      destruct p as [perr written|e' retries' notDone written]; simpl.
      * destruct Hp as [(x & e & Hx & Hxe & ->) Hw]. split.
        -- exists x, e. split; [by apply list_elem_of_further|done].
        -- by constructor.
      * destruct Hp as [(failed & -> & -> & Hsub) [Hlt' Hw]]. split; [|split].
        -- exists failed. split; [done|]. split; [done|].
           intros x Hx. by apply list_elem_of_further, Hsub.
        -- done.
        -- by constructor.
Qed.

Lemma dropLoop_step (fuel totalRetries : nat) (ignoreDependencies : bool) (version : nat)
    (first : bool) (queue : list metadata.TableMetadata) (dropErr : option error)
    (dropRetries : nat) (caller : list metadata.TableMetadata) (s : State W) :
  dropRetries < totalRetries ->
  dropLoop (S fuel) totalRetries ignoreDependencies version first queue dropErr
    dropRetries caller s
  = bind (dropPass totalRetries ignoreDependencies version queue dropErr dropRetries [])
      (fun p =>
         match p with
         | PassReturned err entries => ret (Some err, if first then entries else caller)
         | PassEnded dropErr' dropRetries' notDroppedTables entries =>
             let callerTables' := if first then entries else caller in
             match notDroppedTables with
             | [] => ret (None, callerTables')
             | _ => dropLoop fuel totalRetries ignoreDependencies version false
                      notDroppedTables dropErr' dropRetries' callerTables'
             end
         end) s.
Proof.
  intros Hlt. apply Nat.ltb_lt in Hlt. simpl. by rewrite Hlt.
Qed.

Lemma dropLoop_done (fuel totalRetries : nat) (ignoreDependencies : bool) (version : nat)
    (first : bool) (queue : list metadata.TableMetadata) (dropErr : option error)
    (dropRetries : nat) (caller : list metadata.TableMetadata) (s : State W) :
  totalRetries <= dropRetries ->
  dropLoop fuel totalRetries ignoreDependencies version first queue dropErr
    dropRetries caller s = Ret (None, caller) s.
Proof.
  intros Hge. apply Nat.ltb_ge in Hge. destruct fuel; simpl; by rewrite Hge.
Qed.

(** The loop returns when it has one unit of fuel for each retry that is
    left. *)
Lemma dropLoop_Ret (fuel totalRetries : nat) (ignoreDependencies : bool) (version : nat)
    (first : bool) (queue : list metadata.TableMetadata) (dropErr : option error)
    (dropRetries : nat) (caller : list metadata.TableMetadata) (s : State W) :
  totalRetries - dropRetries <= fuel ->
  exists r tables' s',
    dropLoop fuel totalRetries ignoreDependencies version first queue dropErr
      dropRetries caller s = Ret (r, tables') s' /\
    match r with
    | None => True
    | Some err =>
        exists schema e, schema ∈ queue /\
          dropRefused schema ignoreDependencies version e /\
          err = dropFailure schema e totalRetries
    end /\
    (if first then caller = queue -> Forall2 (guessed ignoreDependencies version) queue tables'
     else tables' = caller).
Proof.
  revert first queue dropErr dropRetries caller s.
  induction fuel as [|fuel IH]; intros first queue dropErr dropRetries caller s Hfuel.
  - rewrite dropLoop_done by lia. eexists _, _, _. split; [reflexivity|]. split; [done|].
    destruct first; [|done]. intros ->.
    apply Forall2_same_length_lookup. split; [done|].
    intros i x y Hx Hy. rewrite Hx in Hy. injection Hy as <-. apply guessed_refl.
  - destruct (decide (dropRetries < totalRetries)) as [Hlt|Hge].
    + rewrite dropLoop_step by done.
      destruct (dropPass_Ret totalRetries ignoreDependencies version queue dropErr
                  dropRetries [] s Hlt) as (p & s1 & Hpass & Hp).
      unfold bind at 1. rewrite Hpass.
      destruct p as [err written|e' retries' notDone written].
      * destruct Hp as [Herr Hw]. eexists _, _, _. split; [reflexivity|]. split; [done|].
        by destruct first.
      * destruct Hp as [(failed & Hnd & -> & Hsub) [Hlt' Hw]]. simpl in Hnd. subst notDone.
        destruct failed as [|f failed'].
        -- eexists _, _, _. split; [reflexivity|]. split; [done|]. by destruct first.
        -- destruct (IH false (f :: failed') e' (dropRetries + length (f :: failed'))
                       (if first then written else caller) s1) as (r & tables' & s' & Hrun & Hr & Ht).
           { simpl. simpl in Hlt'. lia. }
           exists r, tables', s'. split; [exact Hrun|]. split.
           ++ destruct r as [err|]; [|done].
              destruct Hr as (x & e & Hx & Hxe & ->). exists x, e. split; [by apply Hsub|done].
           ++ simpl in Ht. subst tables'. by destruct first.
    + rewrite dropLoop_done by lia. eexists _, _, _. split; [reflexivity|]. split; [done|].
      destruct first; [|done]. intros ->.
      apply Forall2_same_length_lookup. split; [done|].
      intros i x y Hx Hy. rewrite Hx in Hy. injection Hy as <-. apply guessed_refl.
Qed.

(** More fuel than the retries that are left changes nothing. *)
Lemma dropLoop_fuel (fuel1 fuel2 totalRetries : nat) (ignoreDependencies : bool)
    (version : nat) (first : bool) (queue : list metadata.TableMetadata)
    (dropErr : option error) (dropRetries : nat) (caller : list metadata.TableMetadata)
    (s : State W) :
  totalRetries - dropRetries <= fuel1 ->
  totalRetries - dropRetries <= fuel2 ->
  dropLoop fuel1 totalRetries ignoreDependencies version first queue dropErr
    dropRetries caller s
  = dropLoop fuel2 totalRetries ignoreDependencies version first queue dropErr
      dropRetries caller s.
Proof.
  revert fuel2 first queue dropErr dropRetries caller s.
  induction fuel1 as [|fuel1 IH]; intros fuel2 first queue dropErr dropRetries caller s H1 H2.
  - by rewrite !dropLoop_done by lia.
  - destruct (decide (dropRetries < totalRetries)) as [Hlt|Hge];
      [|by rewrite !dropLoop_done by lia].
    destruct fuel2 as [|fuel2]; [lia|].
    rewrite !dropLoop_step by done.
    destruct (dropPass_Ret totalRetries ignoreDependencies version queue dropErr
                dropRetries [] s Hlt) as (p & s1 & Hpass & Hp).
    unfold bind. rewrite Hpass.
    destruct p as [err written|e' retries' notDone written]; [done|].
    destruct Hp as [(failed & Hnd & -> & Hsub) [Hlt' Hw]]. simpl in Hnd. subst notDone.
    destruct failed as [|f failed']; [done|].
    apply IH; simpl; simpl in Hlt'; lia.
Qed.

End Engine.
End drop_facts.

Module drop_properties.
Import spec spec_schema backup drop_facts testbed.

(** X1.  [dropExistsTables] returns for every table list and every
    server: as many passes as there are tables are enough, and more fuel
    does not change the result.  When it returns an error, the error is
    made of the names of one of the tables, of an error the server gave
    for a drop of that table, and of the number of tables as the retry
    count. *)
Theorem dropExistsTables_bounded {W : Type} `{!ClickHouse W}
    (tablesForDrop : list metadata.TableMetadata) (ignoreDependencies : bool)
    (version : nat) (s : State W) :
  exists r tables' s',
    dropExistsTables tablesForDrop ignoreDependencies version s = Ret (r, tables') s' /\
    (forall fuel, length tablesForDrop <= fuel ->
       dropLoop fuel (length tablesForDrop) ignoreDependencies version true tablesForDrop
         None 0 tablesForDrop s = Ret (r, tables') s') /\
    match r with
    | None => True
    | Some err =>
        exists schema e, schema ∈ tablesForDrop /\
          dropRefused schema ignoreDependencies version e /\
          err = dropFailure schema e (length tablesForDrop)
    end.
Proof.
  unfold dropExistsTables.
  destruct (dropLoop_Ret (length tablesForDrop) (length tablesForDrop) ignoreDependencies
              version true tablesForDrop None 0 tablesForDrop s ltac:(lia))
    as (r & tables' & s' & Hrun & Hr & _).
  exists r, tables', s'. split; [exact Hrun|]. split; [|exact Hr].
  intros fuel Hfuel. rewrite <- Hrun. apply dropLoop_fuel; lia.
Qed.

(** X2.  After [dropExistsTables] the slice of the caller has, entry by
    entry, the same tables with the same parts; an entry keeps its text,
    unless the text was empty: then it is still empty or it is one of the
    guesses for that entry, one that the server accepted. *)
Theorem dropExistsTables_guesses {W : Type} `{!ClickHouse W}
    (tablesForDrop : list metadata.TableMetadata) (ignoreDependencies : bool)
    (version : nat) (s : State W) :
  exists r tables' s',
    dropExistsTables tablesForDrop ignoreDependencies version s = Ret (r, tables') s' /\
    Forall2 (guessed ignoreDependencies version) tablesForDrop tables'.
Proof.
  unfold dropExistsTables.
  destruct (dropLoop_Ret (length tablesForDrop) (length tablesForDrop) ignoreDependencies
              version true tablesForDrop None 0 tablesForDrop s ltac:(lia))
    as (r & tables' & s' & Hrun & _ & Hguess).
  exists r, tables', s'. split; [exact Hrun|]. by apply Hguess.
Qed.

Section Accepting.
Context {W : Type} `{!ClickHouse W}.
Variables (ignoreDependencies : bool) (version : nat).
Hypothesis accepts : forall table query onCluster (w : W),
  fst (ch_DropTable table query onCluster ignoreDependencies version w) = None.

Lemma dropOne_accepting (schema : metadata.TableMetadata) (dropErr : option error)
    (s : State W) :
  exists s',
    dropOne schema ignoreDependencies version dropErr s
    = Ret (None, metadata.Query (viewGuessed schema)) s'.
Proof.
  destruct (dropOne_Ret schema ignoreDependencies version dropErr s)
    as (e & st & s' & Hrun & He & Hg).
  destruct e as [err|].
  - destruct He as (w & q & c & Hw). by rewrite accepts in Hw.
  - exists s'. rewrite Hrun. do 2 f_equal. unfold viewGuessed.
    destruct (decide (metadata.Query schema = "")) as [Hq|Hq].
    + by rewrite He.
    + destruct Hg as (_ & Hkeep & _). by apply Hkeep.
Qed.

Lemma setQuery_viewGuessed (schema : metadata.TableMetadata) :
  setQuery schema (metadata.Query (viewGuessed schema)) = viewGuessed schema.
Proof.
  unfold viewGuessed. destruct (decide _); [done|]. by destruct schema.
Qed.

Lemma dropPass_accepting (totalRetries : nat) (entries : list metadata.TableMetadata)
    (dropErr : option error) (dropRetries : nat) (notDropped : list metadata.TableMetadata)
    (s : State W) :
  exists e s',
    dropPass totalRetries ignoreDependencies version entries dropErr dropRetries notDropped s
    = Ret (PassEnded e dropRetries notDropped (viewGuessed <$> entries)) s'.
Proof.
  revert dropErr s. induction entries as [|schema rest IH]; intros dropErr s; simpl.
  - eexists _, _. reflexivity.
  - destruct (dropOne_accepting schema dropErr s) as [s1 Hone].
    unfold bind at 1. rewrite Hone. simpl.
    destruct (IH None s1) as (e & s' & Hpass).
    unfold bind. rewrite Hpass. simpl. rewrite setQuery_viewGuessed. eauto.
Qed.

End Accepting.

(** X3.  With a server that accepts every drop it is asked (as one that
    drops with IF EXISTS does), [dropExistsTables] returns nil after one
    pass, and every entry whose text was empty now has the guess for a
    materialized view, the last of the guesses, whatever the object is. *)
Theorem dropExistsTables_stores_last_guess {W : Type} `{!ClickHouse W}
    (tablesForDrop : list metadata.TableMetadata) (ignoreDependencies : bool)
    (version : nat) (s : State W) :
  (forall table query onCluster (w : W),
     fst (ch_DropTable table query onCluster ignoreDependencies version w) = None) ->
  exists s',
    dropExistsTables tablesForDrop ignoreDependencies version s
    = Ret (None, viewGuessed <$> tablesForDrop) s'.
Proof.
  intros Haccepts. unfold dropExistsTables.
  destruct tablesForDrop as [|t rest] eqn:Heq.
  - eexists. reflexivity.
  - rewrite <- Heq. assert (Hlen : 0 < length tablesForDrop) by (subst; simpl; lia).
    destruct (length tablesForDrop) as [|n] eqn:Hn; [lia|].
    rewrite dropLoop_step by lia.
    destruct (dropPass_accepting ignoreDependencies version Haccepts (S n) tablesForDrop
                None 0 [] s) as (e & s' & Hpass).
    unfold bind. rewrite Hpass. eexists. reflexivity.
Qed.

Lemma dropExistsTables_stores_last_guess_witness :
  exists s',
    dropExistsTables [examples.noDDL] false 22 (initState emptyWorld)
    = Ret (None, [setQuery examples.noDDL "CREATE MATERIALIZED VIEW `db1`.`t1`"]) s'.
Proof.
  apply (dropExistsTables_stores_last_guess [examples.noDDL] false 22 (initState emptyWorld)).
  reflexivity.
Defined.

End drop_properties.

(** ** Schema phases: the create loop *)

Module create_facts.
Import spec spec_schema backup.

Section Engine.
Context {W : Type} `{!ClickHouse W} `{!Regexp}.

Lemma rewriteUUID_Ret (onCluster query : string) (s : State W) :
  exists q s', rewriteUUID onCluster query s = Ret q s' /\ cfg s' = cfg s.
Proof.
  unfold rewriteUUID.
  destruct (_ && _); [|by eexists _, _].
  destruct (negb _); by eexists _, _.
Qed.

Lemma createError_further (totalRetries version : nat) (schema : metadata.TableMetadata)
    (rest : list metadata.TableMetadata) (err : error) :
  createError totalRetries version rest err ->
  createError totalRetries version (schema :: rest) err.
Proof.
  intros (x & e & Hx & Hcase). exists x, e. split; [by apply list_elem_of_further|done].
Qed.

Lemma createPass_Ret (totalRetries version : nat) (entries : list metadata.TableMetadata)
    (isDatabaseCreated : gset string) (restoreErr : option error) (restoreRetries : nat)
    (notRestored : list metadata.TableMetadata) (s : State W) :
  restoreRetries < totalRetries ->
  exists p s',
    createPass totalRetries version entries isDatabaseCreated restoreErr restoreRetries
      notRestored s = Ret p s' /\
    match p with
    | CreateReturned err => createError totalRetries version entries err
    | CreateEnded _ _ retries' notDone =>
        (exists failed, notDone = notRestored ++ failed /\
           retries' = restoreRetries + length failed /\
           Forall (fromEntries entries) failed) /\
        retries' < totalRetries
    end.
Proof.
  revert isDatabaseCreated restoreErr restoreRetries notRestored s.
  induction entries as [|schema rest IH];
    intros isDatabaseCreated restoreErr restoreRetries notRestored s Hlt; simpl.
  - eexists _, _. split; [reflexivity|]. split; [|done].
    exists []. rewrite app_nil_r. split; [done|]. split; [simpl; lia|constructor].
  - unfold bind at 1, getCfg.
    (* the database *)
    assert (Hdb : exists created s1,
      (if decide (metadata.Database schema ∈ isDatabaseCreated)
       then ret (inr isDatabaseCreated)
       else
         bind (withWorld (ch_CreateDatabase (metadata.Database schema)
                            (RestoreSchemaOnCluster (cfg s))))
           (fun e => match e with
                     | Some err =>
                         ret (inl (fmt.Errorf ("can't create database '" +:+
                                     metadata.Database schema +:+ "': " +:+ Error err)))
                     | None => ret (inr ({[metadata.Database schema]} ∪ isDatabaseCreated))
                     end)) s = Ret created s1 /\
      cfg s1 = cfg s /\
      match created with
      | inl err => exists e, createDatabaseRefused (metadata.Database schema) e /\
                     err = createDatabaseFailure (metadata.Database schema) e
      | inr _ => True
      end).
    { destruct (decide _); [by eexists _, _|].
      unfold bind, withWorld.
      destruct (ch_CreateDatabase _ _ _) as [[e|] w'] eqn:Hcd; eexists _, _;
        (split; [reflexivity|]); (split; [done|]); [|done].
      exists e. split; [|done]. exists (world s), (RestoreSchemaOnCluster (cfg s)).
      by rewrite Hcd. }
    destruct Hdb as (created & s1 & Hdb & Hcfg & Hcreated).
    unfold bind at 1. rewrite Hdb.
    destruct created as [err|created].
    { eexists _, _. split; [reflexivity|].
      destruct Hcreated as (e & He & ->). exists schema, e.
      split; [apply list_elem_of_here|by right]. }
    destruct (rewriteUUID_Ret (RestoreSchemaOnCluster (cfg s))
                (attachViews (metadata.Query schema)) s1) as (query & s2 & Huuid & Hcfg2).
    unfold bind at 1. rewrite Huuid.
    unfold bind at 1, withWorld.
    destruct (ch_CreateTable _ _ _ _ _ _ _) as [[err|] w3] eqn:Hct; simpl.
    + destruct (Nat.leb totalRetries (S restoreRetries)) eqn:Hbudget.
      * apply Nat.leb_le in Hbudget. eexists _, _. split; [reflexivity|].
        exists schema, err. split; [apply list_elem_of_here|]. left. split.
        -- exists (world s2), query, (RestoreSchemaOnCluster (cfg s)). by rewrite Hct.
        -- replace totalRetries with (S restoreRetries) by lia. done.
      * apply Nat.leb_gt in Hbudget.
        unfold bind at 1, Warnf, logf.
        match goal with
        | |- context [createPass _ _ _ _ _ _ _ ?st] =>
            destruct (IH created (Some err) (S restoreRetries)
                        (notRestored ++ [setQuery schema query]) st Hbudget)
              as (p & s' & Hpass & Hp)
        end.
        rewrite Hpass. eexists _, _. split; [reflexivity|].
        destruct p as [perr|created' e' retries' notDone].
        -- by apply createError_further.
        -- destruct Hp as [(failed & -> & -> & Hsub) Hlt']. split; [|done].
           exists (setQuery schema query :: failed). rewrite <- app_assoc.
           split; [done|]. split; [simpl; lia|].
           constructor.
           ++ exists schema. split; [apply list_elem_of_here|done].
           ++ eapply Forall_impl; [exact Hsub|].
              intros x (y & Hy & Hxy). exists y. split; [by apply list_elem_of_further|done].
    + match goal with
      | |- context [createPass _ _ _ _ _ _ _ ?st] =>
          destruct (IH created None restoreRetries notRestored st Hlt)
            as (p & s' & Hpass & Hp)
      end.
      rewrite Hpass. eexists _, _. split; [reflexivity|].
      destruct p as [perr|created' e' retries' notDone].
      * by apply createError_further.
      * destruct Hp as [(failed & -> & -> & Hsub) Hlt']. split; [|done].
        exists failed. split; [done|]. split; [done|].
        eapply Forall_impl; [exact Hsub|].
        intros x (y & Hy & Hxy). exists y. split; [by apply list_elem_of_further|done].
Qed.

Lemma createError_from (totalRetries version : nat)
    (orig queue : list metadata.TableMetadata) (err : error) :
  Forall (fromEntries orig) queue ->
  createError totalRetries version queue err ->
  createError totalRetries version orig err.
Proof.
  intros Hfrom (x & e & Hx & Hcase).
  rewrite Forall_forall in Hfrom. destruct (Hfrom x Hx) as (y & Hy & Hdb & Htb & _).
  exists y, e. split; [done|].
  unfold createRefused, createFailure in *. rewrite <- Hdb, <- Htb. done.
Qed.

Lemma fromEntries_trans (orig queue : list metadata.TableMetadata)
    (x : metadata.TableMetadata) :
  Forall (fromEntries orig) queue -> fromEntries queue x -> fromEntries orig x.
Proof.
  intros Hfrom (y & Hy & Hxy). rewrite Forall_forall in Hfrom.
  destruct (Hfrom y Hy) as (z & Hz & Hyz). exists z. split; [done|].
  destruct Hxy as (? & ? & ?), Hyz as (? & ? & ?). repeat split; congruence.
Qed.

Lemma createLoop_step (fuel totalRetries version : nat)
    (queue : list metadata.TableMetadata) (isDatabaseCreated : gset string)
    (restoreErr : option error) (restoreRetries : nat) (s : State W) :
  restoreRetries < totalRetries ->
  createLoop (S fuel) totalRetries version queue isDatabaseCreated restoreErr restoreRetries s
  = bind (createPass totalRetries version queue isDatabaseCreated restoreErr restoreRetries [])
      (fun p =>
         match p with
         | CreateReturned err => ret (Some err)
         | CreateEnded isDatabaseCreated' restoreErr' restoreRetries' notRestoredTables =>
             match notRestoredTables with
             | [] => ret None
             | _ => createLoop fuel totalRetries version notRestoredTables
                      isDatabaseCreated' restoreErr' restoreRetries'
             end
         end) s.
Proof.
  intros Hlt. apply Nat.ltb_lt in Hlt. simpl. by rewrite Hlt.
Qed.

Lemma createLoop_done (fuel totalRetries version : nat)
    (queue : list metadata.TableMetadata) (isDatabaseCreated : gset string)
    (restoreErr : option error) (restoreRetries : nat) (s : State W) :
  totalRetries <= restoreRetries ->
  createLoop fuel totalRetries version queue isDatabaseCreated restoreErr restoreRetries s
  = Ret None s.
Proof.
  intros Hge. apply Nat.ltb_ge in Hge. destruct fuel; simpl; by rewrite Hge.
Qed.

Lemma createLoop_Ret (fuel totalRetries version : nat)
    (queue : list metadata.TableMetadata) (isDatabaseCreated : gset string)
    (restoreErr : option error) (restoreRetries : nat) (s : State W) :
  totalRetries - restoreRetries <= fuel ->
  exists r s',
    createLoop fuel totalRetries version queue isDatabaseCreated restoreErr restoreRetries s
    = Ret r s' /\
    match r with
    | None => True
    | Some err => createError totalRetries version queue err
    end.
Proof.
  revert queue isDatabaseCreated restoreErr restoreRetries s.
  induction fuel as [|fuel IH];
    intros queue isDatabaseCreated restoreErr restoreRetries s Hfuel.
  - rewrite createLoop_done by lia. by eexists _, _.
  - destruct (decide (restoreRetries < totalRetries)) as [Hlt|Hge];
      [|rewrite createLoop_done by lia; by eexists _, _].
    rewrite createLoop_step by done.
    destruct (createPass_Ret totalRetries version queue isDatabaseCreated restoreErr
                restoreRetries [] s Hlt) as (p & s1 & Hpass & Hp).
    unfold bind. rewrite Hpass.
    destruct p as [err|created' e' retries' notDone]; [by eexists _, _|].
    destruct Hp as [(failed & Hnd & -> & Hsub) Hlt']. simpl in Hnd. subst notDone.
    destruct failed as [|f failed']; [by eexists _, _|].
    destruct (IH (f :: failed') created' e' (restoreRetries + length (f :: failed')) s1)
      as (r & s' & Hrun & Hr).
    { simpl. simpl in Hlt'. lia. }
    exists r, s'. split; [exact Hrun|].
    destruct r as [err|]; [|done]. by eapply createError_from.
Qed.

Lemma createLoop_fuel (fuel1 fuel2 totalRetries version : nat)
    (queue : list metadata.TableMetadata) (isDatabaseCreated : gset string)
    (restoreErr : option error) (restoreRetries : nat) (s : State W) :
  totalRetries - restoreRetries <= fuel1 ->
  totalRetries - restoreRetries <= fuel2 ->
  createLoop fuel1 totalRetries version queue isDatabaseCreated restoreErr restoreRetries s
  = createLoop fuel2 totalRetries version queue isDatabaseCreated restoreErr restoreRetries s.
Proof.
  revert fuel2 queue isDatabaseCreated restoreErr restoreRetries s.
  induction fuel1 as [|fuel1 IH];
    intros fuel2 queue isDatabaseCreated restoreErr restoreRetries s H1 H2.
  - by rewrite !createLoop_done by lia.
  - destruct (decide (restoreRetries < totalRetries)) as [Hlt|Hge];
      [|by rewrite !createLoop_done by lia].
    destruct fuel2 as [|fuel2]; [lia|].
    rewrite !createLoop_step by done.
    destruct (createPass_Ret totalRetries version queue isDatabaseCreated restoreErr
                restoreRetries [] s Hlt) as (p & s1 & Hpass & Hp).
    unfold bind. rewrite Hpass.
    destruct p as [err|created' e' retries' notDone]; [done|].
    destruct Hp as [(failed & Hnd & -> & Hsub) Hlt']. simpl in Hnd. subst notDone.
    destruct failed as [|f failed']; [done|].
    apply IH; simpl; simpl in Hlt'; lia.
Qed.

End Engine.
End create_facts.

Module create_properties.
Import spec spec_schema backup create_facts.

(** X4.  [restoreSchemaRegular] returns for every table list and every
    server: as many passes as there are tables are enough, and more fuel
    does not change the result.  An error it returns is either the one of
    a database that could not be created, or is made of the names of one
    of the tables, of an error the server gave for the creation of that
    table, and of the number of tables as the retry count. *)
Theorem restoreSchemaRegular_bounded {W : Type} `{!ClickHouse W} `{!Regexp}
    (tablesForRestore : list metadata.TableMetadata) (version : nat) (s : State W) :
  exists r s',
    restoreSchemaRegular tablesForRestore version s = Ret r s' /\
    (forall fuel, length tablesForRestore <= fuel ->
       createLoop fuel (length tablesForRestore) version tablesForRestore ∅ None 0 s
       = Ret r s') /\
    match r with
    | None => True
    | Some err => createError (length tablesForRestore) version tablesForRestore err
    end.
Proof.
  unfold restoreSchemaRegular.
  destruct (createLoop_Ret (length tablesForRestore) (length tablesForRestore) version
              tablesForRestore ∅ None 0 s ltac:(lia)) as (r & s' & Hrun & Hr).
  exists r, s'. split; [exact Hrun|]. split; [|exact Hr].
  intros fuel Hfuel. rewrite <- Hrun. apply createLoop_fuel; lia.
Qed.

(** X5.  [attachViews] is three replacements in a row, for materialized,
    window and live views: each replaces the first occurrence of its
    CREATE phrase in the text it is given by the ATTACH phrase and leaves
    the rest of that text, later occurrences too, as it is; the length of
    the text does not change. *)
Theorem attachViews_first_only (query : string) :
  exists q1 q2,
    replacedFirst "CREATE MATERIALIZED VIEW" "ATTACH MATERIALIZED VIEW" query q1 /\
    replacedFirst "CREATE WINDOW VIEW" "ATTACH WINDOW VIEW" q1 q2 /\
    replacedFirst "CREATE LIVE VIEW" "ATTACH LIVE VIEW" q2 (attachViews query) /\
    String.length (attachViews query) = String.length query.
Proof.
  unfold attachViews.
  set (q1 := strings.Replace1 query "CREATE MATERIALIZED VIEW" "ATTACH MATERIALIZED VIEW").
  set (q2 := strings.Replace1 q1 "CREATE WINDOW VIEW" "ATTACH WINDOW VIEW").
  assert (H1 := strings_facts.Replace1_first query "CREATE MATERIALIZED VIEW"
                  "ATTACH MATERIALIZED VIEW" ltac:(done)).
  assert (H2 := strings_facts.Replace1_first q1 "CREATE WINDOW VIEW"
                  "ATTACH WINDOW VIEW" ltac:(done)).
  assert (H3 := strings_facts.Replace1_first q2 "CREATE LIVE VIEW"
                  "ATTACH LIVE VIEW" ltac:(done)).
  exists q1, q2. split; [exact H1|]. split; [exact H2|]. split; [exact H3|].
  etrans; [exact (strings_facts.replacedFirst_length "CREATE LIVE VIEW" "ATTACH LIVE VIEW"
                    _ _ eq_refl H3)|].
  etrans; [exact (strings_facts.replacedFirst_length "CREATE WINDOW VIEW"
                    "ATTACH WINDOW VIEW" _ _ eq_refl H2)|].
  exact (strings_facts.replacedFirst_length "CREATE MATERIALIZED VIEW"
           "ATTACH MATERIALIZED VIEW" _ _ eq_refl H1).
Qed.

End create_properties.

(** ** Data restore *)

Module data_facts.
Import spec spec_data backup.

Lemma dstDatabaseOf_destination (mapping : gmap string string) (table : metadata.TableMetadata) :
  (dstDatabaseOf mapping table, metadata.Table table) = destination mapping table.
Proof.
  unfold dstDatabaseOf, destination. f_equal.
  destruct (Nat.ltb 0 (size mapping)) eqn:Hsize.
  - by destruct (mapping !! metadata.Database table).
  - apply Nat.ltb_ge in Hsize. assert (size mapping = 0) as Hz by lia.
    apply map_size_empty_inv in Hz. subst mapping. by rewrite lookup_empty.
Qed.

Lemma isLive_live (chTables : list clickhouse.Table) (dst : string * string) :
  isLive chTables (fst dst) (snd dst) = true <-> live chTables dst.
Proof.
  unfold isLive, live. rewrite existsb_exists. split.
  - intros (chTable & Hin & Hmatch). exists chTable.
    apply andb_true_iff in Hmatch as [H1 H2].
    apply bool_decide_eq_true in H1. apply bool_decide_eq_true in H2.
    split; [by apply list_elem_of_In|done].
  - intros (chTable & Hin & H1 & H2). exists chTable.
    split; [by apply list_elem_of_In|].
    apply andb_true_iff. split; by apply bool_decide_eq_true.
Qed.

Lemma findMissingTables_names (mapping : gmap string string)
    (chTables : list clickhouse.Table) (tables : list metadata.TableMetadata)
    (missingTables : list string) :
  findMissingTables mapping chTables tables missingTables
  = missingTables ++ missingNames mapping chTables tables.
Proof.
  unfold missingNames. revert missingTables.
  induction tables as [|table rest IH]; intros missingTables; cbn [findMissingTables].
  - by rewrite app_nil_r.
  - rewrite IH, fmap_cons, filter_cons.
    pose proof (isLive_live chTables (destination mapping table)) as Hlive.
    rewrite <- dstDatabaseOf_destination in Hlive at 1 2. simpl in Hlive.
    destruct (isLive chTables _ _) eqn:Hl.
    + rewrite decide_False; [done|]. intros Hn. apply Hn. by apply Hlive.
    + rewrite decide_True.
      * rewrite <- app_assoc. simpl. rewrite <- dstDatabaseOf_destination. done.
      * intros Hn. apply Hlive in Hn. done.
Qed.

Lemma logged_nil {W} (s : State W) : logged s [] = s.
Proof. destruct s. unfold logged. simpl. by rewrite app_nil_r. Qed.

Lemma logged_logged {W} (s : State W) (a b : list LogEntry) :
  logged (logged s a) b = logged s (a ++ b).
Proof. unfold logged. simpl. by rewrite <- app_assoc. Qed.

Lemma hasDiskNamed_app (a b : list clickhouse.Disk) (disk : string) :
  hasDiskNamed (a ++ b) disk = hasDiskNamed a disk || hasDiskNamed b disk.
Proof. unfold hasDiskNamed. apply existsb_app. Qed.

Lemma hasDiskNamed_synthetic (diskMap : gmap string string) (disk : string) :
  hasDiskNamed [syntheticDisk diskMap disk] disk = true.
Proof. unfold hasDiskNamed. simpl. by rewrite bool_decide_eq_true_2. Qed.

Section Disks.
Context {W : Type}.

(** The disks of one table: the list only grows, by synthetic entries
    for disks that the map lacks and the list did not name. *)
Lemma addMissingDisks_Ret (t : metadata.TableMetadata) (diskMap : gmap string string)
    (partDisks : list string) (disks : list clickhouse.Disk) (s : State W) :
  exists added,
    addMissingDisks t diskMap partDisks disks s
    = Ret (disks ++ added) (logged s (diskWarnings diskMap t partDisks)) /\
    Forall (fun d => d = syntheticDisk diskMap (clickhouse.DiskName d) /\
                     clickhouse.DiskName d ∈ partDisks /\
                     diskMap !! clickhouse.DiskName d = None /\
                     hasDiskNamed disks (clickhouse.DiskName d) = false) added /\
    (forall disk, disk ∈ partDisks -> diskMap !! disk = None ->
       hasDiskNamed (disks ++ added) disk = true).
Proof.
  revert disks s. induction partDisks as [|disk rest IH]; intros disks s.
  - exists []. rewrite app_nil_r. unfold diskWarnings. rewrite filter_nil, fmap_nil, logged_nil.
    split; [done|]. split; [constructor|]. intros d Hd. by apply elem_of_nil in Hd.
  - cbn [addMissingDisks]. unfold diskWarnings. rewrite filter_cons.
    destruct (diskMap !! disk) as [p|] eqn:Hdisk.
    + rewrite decide_False by done.
      destruct (IH disks s) as (added & Hrun & Hsyn & Hnamed).
      exists added. split; [exact Hrun|]. split.
      * eapply Forall_impl; [exact Hsyn|]. intros d (? & ? & ? & ?).
        repeat split; try done. by apply list_elem_of_further.
      * intros d Hd Hnone. apply elem_of_cons in Hd as [->|Hd]; [congruence|by apply Hnamed].
    + rewrite decide_True by done. rewrite fmap_cons.
      unfold bind at 1, Warnf, logf.
      set (s1 := {| world := world s |}).
      assert (Hs1 : s1 = logged s [warning (missingDiskWarning t disk
                                             (default "" (diskMap !! "default")))]) by done.
      destruct (hasDiskNamed disks disk) eqn:Hhas.
      * destruct (IH disks s1) as (added & Hrun & Hsyn & Hnamed).
        exists added. rewrite Hrun, Hs1, logged_logged. split; [done|]. split.
        -- eapply Forall_impl; [exact Hsyn|]. intros d (? & ? & ? & ?).
           repeat split; try done. by apply list_elem_of_further.
        -- intros d Hd Hnone. apply elem_of_cons in Hd as [->|Hd]; [|by apply Hnamed].
           rewrite hasDiskNamed_app, Hhas. done.
      * destruct (IH (disks ++ [syntheticDisk diskMap disk]) s1)
          as (added & Hrun & Hsyn & Hnamed).
        exists (syntheticDisk diskMap disk :: added).
        unfold syntheticDisk in Hrun at 1. rewrite Hrun, Hs1, logged_logged.
        rewrite <- app_assoc. split; [done|]. split.
        -- constructor.
           ++ simpl. split; [done|]. split; [apply list_elem_of_here|done].
           ++ eapply Forall_impl; [exact Hsyn|]. intros d (? & ? & ? & Hno).
              repeat split; try done; [by apply list_elem_of_further|].
              rewrite hasDiskNamed_app in Hno. by apply orb_false_iff in Hno as [? _].
        -- intros d Hd Hnone. rewrite <- app_assoc in Hnamed.
           apply elem_of_cons in Hd as [->|Hd]; [|by apply Hnamed].
           rewrite !hasDiskNamed_app.
           change (syntheticDisk diskMap disk :: added)
             with ([syntheticDisk diskMap disk] ++ added).
           rewrite hasDiskNamed_app, hasDiskNamed_synthetic.
           by rewrite orb_true_r.
Qed.

Lemma partDisks_dom (t : metadata.TableMetadata) (disk : string) :
  disk ∈ map fst (map_to_list (metadata.Parts t)) <-> disk ∈ dom (metadata.Parts t).
Proof.
  rewrite elem_of_dom. change (map fst) with (fmap (M := list) (@fst string (list metadata.Part))).
  rewrite list_elem_of_fmap. split.
  - intros ([d parts] & -> & Hin). apply elem_of_map_to_list in Hin. by exists parts.
  - intros [parts Hparts]. exists (disk, parts). split; [done|]. by apply elem_of_map_to_list.
Qed.

Lemma addMissingDisksOfTables_Ret (tables : list metadata.TableMetadata)
    (diskMap : gmap string string) (disks : list clickhouse.Disk) (s : State W) :
  exists added,
    addMissingDisksOfTables tables diskMap disks s
    = Ret (disks ++ added) (logged s (allDiskWarnings diskMap tables)) /\
    Forall (fun d => d = syntheticDisk diskMap (clickhouse.DiskName d) /\
                     (exists t, t ∈ tables /\ lacksDisk diskMap t (clickhouse.DiskName d)) /\
                     hasDiskNamed disks (clickhouse.DiskName d) = false) added /\
    (forall t disk, t ∈ tables -> lacksDisk diskMap t disk ->
       hasDiskNamed (disks ++ added) disk = true /\
       warning (missingDiskWarning t disk (default "" (diskMap !! "default")))
         ∈ allDiskWarnings diskMap tables).
Proof.
  revert disks s. induction tables as [|t rest IH]; intros disks s.
  - exists []. rewrite app_nil_r. simpl. rewrite logged_nil. split; [done|].
    split; [constructor|]. intros t d Ht. by apply elem_of_nil in Ht.
  - cbn [addMissingDisksOfTables].
    destruct (addMissingDisks_Ret t diskMap (map fst (map_to_list (metadata.Parts t)))
                disks s) as (added1 & Hrun1 & Hsyn1 & Hnamed1).
    unfold bind. rewrite Hrun1.
    destruct (IH (disks ++ added1)
                (logged s (diskWarnings diskMap t (map fst (map_to_list (metadata.Parts t))))))
      as (added2 & Hrun2 & Hsyn2 & Hnamed2).
    exists (added1 ++ added2). rewrite Hrun2, logged_logged, app_assoc.
    split; [done|]. split.
    + apply Forall_app. split.
      * eapply Forall_impl; [exact Hsyn1|]. intros d (? & Hin & ? & ?).
        split; [done|]. split; [|done]. exists t. split; [apply list_elem_of_here|].
        split; [by apply partDisks_dom|done].
      * eapply Forall_impl; [exact Hsyn2|]. intros d (? & (t' & Ht' & ?) & Hno).
        split; [done|]. split.
        -- exists t'. split; [by apply list_elem_of_further|done].
        -- rewrite hasDiskNamed_app in Hno. by apply orb_false_iff in Hno as [? _].
    + intros t' disk Ht' [Hdom Hnone]. apply elem_of_cons in Ht' as [->|Ht'].
      * split.
        -- rewrite hasDiskNamed_app, Hnamed1; [done| |done]. by apply partDisks_dom.
        -- unfold allDiskWarnings. simpl. apply elem_of_app. left.
           unfold diskWarnings. apply list_elem_of_fmap. exists disk. split; [done|].
           apply list_elem_of_filter. split; [done|]. by apply partDisks_dom.
      * destruct (Hnamed2 t' disk Ht' (conj Hdom Hnone)) as [Hhas Hwarn].
        split; [exact Hhas|].
        unfold allDiskWarnings. simpl. apply elem_of_app. by right.
Qed.

End Disks.
End data_facts.

Module data_properties.
Import spec spec_data backup data_facts testbed.

Section Restore.
Context {W : Type} `{!OperatingSystem W} `{!ClickHouse W} `{!Package W} `{!Regexp}.

Lemma dstTablesMapOf_live (chTables : list clickhouse.Table) (dst : string * string) :
  is_Some (dstTablesMapOf chTables !! dst) <-> live chTables dst.
Proof.
  unfold dstTablesMapOf, live. induction chTables as [|chTable rest IH] using rev_ind.
  - simpl. rewrite lookup_empty. split; [by intros [? ?]|].
    intros (c & Hc & _). by apply elem_of_nil in Hc.
  - rewrite foldl_app. simpl.
    destruct (decide ((clickhouse.Database chTable, clickhouse.Name chTable) = dst)) as [Heq|Hne].
    + rewrite Heq, lookup_insert_eq. split; [|by eauto].
      intros _. exists chTable. split; [apply elem_of_app; right; apply list_elem_of_here|].
      by rewrite <- Heq.
    + rewrite lookup_insert_ne by done. rewrite IH. split.
      * intros (c & Hc & H1 & H2). exists c. split; [apply elem_of_app; by left|done].
      * intros (c & Hc & H1 & H2). apply elem_of_app in Hc as [Hc|Hc]; [by exists c|].
        apply elem_of_cons in Hc as [->|Hc]; [|by apply elem_of_nil in Hc].
        destruct Hne. destruct dst. simpl in *. congruence.
Qed.

Lemma missingNames_nil (mapping : gmap string string) (chTables : list clickhouse.Table)
    (tables : list metadata.TableMetadata) :
  missingNames mapping chTables tables = [] ->
  forall table, table ∈ tables -> live chTables (destination mapping table).
Proof.
  unfold missingNames. intros Hnil table Hin.
  apply fmap_nil_inv in Hnil.
  destruct (decide (live chTables (destination mapping table))) as [Hl|Hn]; [done|].
  assert (Hmem : destination mapping table
                 ∈ filter (fun dst => ~ live chTables dst) (destination mapping <$> tables)).
  { apply list_elem_of_filter. split; [done|]. apply list_elem_of_fmap. by exists table. }
  rewrite Hnil in Hmem. by apply elem_of_nil in Hmem.
Qed.

End Restore.

(** X6.  When the live tables were read, [restoreDataRegular] compares
    every selected table, under its mapped database, with the live
    tables before it places any data: if some are missing it returns one
    error that lists all of them, in the order of the selection, and the
    world is as it was (only the warnings about disks were logged). *)
Theorem restoreDataRegular_reports_all_missing {W : Type}
    `{!OperatingSystem W} `{!ClickHouse W} `{!Package W} `{!Regexp}
    (backupName tablePattern tablePattern' : string)
    (tablesForRestore : list metadata.TableMetadata) (diskMap : gmap string string)
    (disks : list clickhouse.Disk) (chTables : list clickhouse.Table) (s : State W) :
  adjustTablePatterns (map_to_list (RestoreDatabaseMapping (cfg s))) tablePattern
    = Some tablePattern' ->
  ch_GetTables (world s) tablePattern' = inr chTables ->
  missingNames (RestoreDatabaseMapping (cfg s)) chTables tablesForRestore <> [] ->
  restoreDataRegular backupName tablePattern tablesForRestore diskMap disks s
  = Ret (Some (missingTablesError
                 (missingNames (RestoreDatabaseMapping (cfg s)) chTables tablesForRestore)))
        (logged s (allDiskWarnings diskMap tablesForRestore)).
Proof.
  intros Hpattern Htables Hmissing.
  unfold restoreDataRegular, bind at 1, getCfg. rewrite Hpattern.
  unfold bind at 1, readWorld. rewrite Htables.
  destruct (addMissingDisksOfTables_Ret tablesForRestore diskMap disks s)
    as (added & Hdisks & _).
  unfold bind. rewrite Hdisks. rewrite findMissingTables_names. simpl.
  destruct (missingNames _ _ _) as [|name rest]; [done|]. reflexivity.
Qed.

(** X7.  A disk that a table has parts on and the disk map lacks does not
    stop [restoreDataRegular]: when no table is missing, the data is
    placed with the disk list it was given followed by synthetic disks,
    each of type local at the path of the default disk; the list then
    names every such disk, and a warning was logged for each. *)
Theorem restoreDataRegular_substitutes_disks {W : Type}
    `{!OperatingSystem W} `{!ClickHouse W} `{!Package W} `{!Regexp}
    (backupName tablePattern tablePattern' : string)
    (tablesForRestore : list metadata.TableMetadata) (diskMap : gmap string string)
    (disks : list clickhouse.Disk) (chTables : list clickhouse.Table) (s : State W) :
  adjustTablePatterns (map_to_list (RestoreDatabaseMapping (cfg s))) tablePattern
    = Some tablePattern' ->
  ch_GetTables (world s) tablePattern' = inr chTables ->
  missingNames (RestoreDatabaseMapping (cfg s)) chTables tablesForRestore = [] ->
  exists added,
    restoreDataRegular backupName tablePattern tablesForRestore diskMap disks s
    = placeTables backupName (RestoreDatabaseMapping (cfg s)) (dstTablesMapOf chTables)
        (disks ++ added) tablesForRestore
        (logged s (allDiskWarnings diskMap tablesForRestore)) /\
    Forall (fun d => d = syntheticDisk diskMap (clickhouse.DiskName d) /\
                     (exists t, t ∈ tablesForRestore /\
                                lacksDisk diskMap t (clickhouse.DiskName d)) /\
                     hasDiskNamed disks (clickhouse.DiskName d) = false) added /\
    (forall t disk, t ∈ tablesForRestore -> lacksDisk diskMap t disk ->
       hasDiskNamed (disks ++ added) disk = true /\
       warning (missingDiskWarning t disk (default "" (diskMap !! "default")))
         ∈ allDiskWarnings diskMap tablesForRestore).
Proof.
  intros Hpattern Htables Hmissing.
  destruct (addMissingDisksOfTables_Ret tablesForRestore diskMap disks s)
    as (added & Hdisks & Hsyn & Hnamed).
  exists added. split; [|by split].
  unfold restoreDataRegular, bind at 1, getCfg. rewrite Hpattern.
  unfold bind at 1, readWorld. rewrite Htables.
  unfold bind. rewrite Hdisks. rewrite findMissingTables_names, Hmissing. reflexivity.
Qed.

(** X8.  The check for missing tables and the lookup of the destination
    table agree: when no selected table is missing, the map of the live
    tables has an entry for the destination of every selected table, so
    the lookup made before the data of a table is placed finds it. *)
Theorem placeTable_finds_destination
    (mapping : gmap string string) (chTables : list clickhouse.Table)
    (tablesForRestore : list metadata.TableMetadata) (table : metadata.TableMetadata) :
  findMissingTables mapping chTables tablesForRestore [] = [] ->
  table ∈ tablesForRestore ->
  is_Some (dstTablesMapOf chTables !! (dstDatabaseOf mapping table, metadata.Table table)).
Proof.
  intros Hnone Hin. rewrite findMissingTables_names in Hnone. simpl in Hnone.
  rewrite dstDatabaseOf_destination. apply dstTablesMapOf_live.
  by eapply missingNames_nil.
Qed.

Lemma restoreDataRegular_reports_all_missing_witness :
  restoreDataRegular "2023-01-01" "db1.*" [examples.noDDL; examples.coldTable]
    (diskMapOf [examples.defaultDisk]) [examples.defaultDisk]
    (withMapping (initState emptyWorld) {["db1" := "db2"]})
  = Ret (Some (ErrorString
          "'db2.t1', 'db2.t1' is not created. Restore schema first or create missing tables manually"))
        (logged (withMapping (initState emptyWorld) {["db1" := "db2"]})
           (allDiskWarnings (diskMapOf [examples.defaultDisk])
              [examples.noDDL; examples.coldTable])).
Proof.
  rewrite (restoreDataRegular_reports_all_missing "2023-01-01" "db1.*" "db1.*,db2.*"
             [examples.noDDL; examples.coldTable] (diskMapOf [examples.defaultDisk])
             [examples.defaultDisk] []
             (withMapping (initState emptyWorld) {["db1" := "db2"]})).
  - reflexivity.
  - reflexivity.
  - reflexivity.
  - vm_compute. discriminate.
Defined.

Lemma restoreDataRegular_substitutes_disks_witness :
  exists added,
    restoreDataRegular "2023-01-01" "db1.*" [examples.coldTable]
      (diskMapOf [examples.defaultDisk]) [examples.defaultDisk]
      (initState examples.liveWorld)
    = placeTables "2023-01-01" ∅ (dstTablesMapOf (liveTables examples.liveWorld))
        ([examples.defaultDisk] ++ added) [examples.coldTable]
        (logged (initState examples.liveWorld)
           (allDiskWarnings (diskMapOf [examples.defaultDisk]) [examples.coldTable])) /\
    hasDiskNamed ([examples.defaultDisk] ++ added) "cold" = true.
Proof.
  destruct (restoreDataRegular_substitutes_disks "2023-01-01" "db1.*" "db1.*"
              [examples.coldTable] (diskMapOf [examples.defaultDisk])
              [examples.defaultDisk] (liveTables examples.liveWorld)
              (initState examples.liveWorld)
              ltac:(reflexivity) ltac:(reflexivity) ltac:(reflexivity))
    as (added & Hrun & _ & Hnamed).
  exists added. split; [exact Hrun|].
  apply (Hnamed examples.coldTable "cold").
  - apply list_elem_of_here.
  - split; [|reflexivity]. apply elem_of_dom. by eexists.
Defined.

Lemma placeTable_finds_destination_witness :
  is_Some (dstTablesMapOf (liveTables examples.liveWorld)
             !! (dstDatabaseOf ∅ examples.coldTable, metadata.Table examples.coldTable)).
Proof.
  apply (placeTable_finds_destination ∅ (liveTables examples.liveWorld)
           [examples.coldTable] examples.coldTable).
  - reflexivity.
  - apply list_elem_of_here.
Defined.

End data_properties.

(** ** The orchestrator *)

Module restore_facts.
Import spec backup.

Lemma bind_ext {W A B} (m : M W A) (k k' : A -> M W B) (s : State W) :
  (forall a s', k a s' = k' a s') -> bind m k s = bind m k' s.
Proof. intros H. unfold bind. destruct (m s); [apply H|done..]. Qed.

(** Two runs that differ in a continuation only. *)
Ltac same_run :=
  repeat first
    [ reflexivity
    | apply bind_ext; intros
    | match goal with
      | |- (match ?x with _ => _ end) _ = (match ?x with _ => _ end) _ => destruct x
      | |- (if ?x then _ else _) _ = (if ?x then _ else _) _ => destruct x
      end ].

Section Orchestrator.
Context {W : Type} `{!OperatingSystem W} `{!ClickHouse W} `{!Package W} `{!Regexp}.

Lemma restoreEmptyDatabases_no_drop (tablePattern : string)
    (databases : list metadata.DatabasesMeta) (schemaOnly : bool) :
  restoreEmptyDatabases tablePattern databases false schemaOnly
  = restoreEmptyDatabases tablePattern databases false false.
Proof.
  induction databases as [|database rest IH]; [done|].
  simpl. rewrite IH. unfold restoreEmptyDatabase. by rewrite !andb_false_r.
Qed.

Lemma restoreConnected_both_flags (backupName tablePattern : string) (partitions : list string)
    (ignoreDependencies rbacOnly configsOnly : bool) (s : State W) :
  restoreConnected backupName tablePattern partitions true true false ignoreDependencies
    rbacOnly configsOnly s
  = restoreConnected backupName tablePattern partitions false false false ignoreDependencies
      rbacOnly configsOnly s.
Proof.
  unfold restoreConnected. simpl negb. simpl orb.
  destruct (decide (backupName = "")); [done|].
  same_run.
  match goal with
  | |- bind (match ?e with _ => _ end) _ _ = _ => destruct e as [e|]; [same_run|]
  end.
  destruct (json_Unmarshal_BackupMetadata _) as [e|backupMetadata]; [same_run|].
  cbn [negb orb]. rewrite restoreEmptyDatabases_no_drop.
  same_run.
Qed.

End Orchestrator.
End restore_facts.

Module restore_properties.
Import spec backup restore_facts mapping_facts testbed.

(** X9.  [Restore] with both [schemaOnly] and [dataOnly] set, and
    [dropTable] not set, does exactly what it does with neither flag set,
    in every state and world: the same calls, the same result, the same
    final state. *)
Theorem Restore_both_flags_as_neither {W : Type}
    `{!OperatingSystem W} `{!ClickHouse W} `{!Package W} `{!Regexp}
    (backupName tablePattern : string) (databaseMapping partitions : list string)
    (ignoreDependencies rbacOnly configsOnly : bool) (commandId : nat) (s : State W) :
  Restore backupName tablePattern databaseMapping partitions true true false
    ignoreDependencies rbacOnly configsOnly commandId s
  = Restore backupName tablePattern databaseMapping partitions false false false
      ignoreDependencies rbacOnly configsOnly commandId s.
Proof.
  unfold Restore. same_run. unfold bind at 1 3. by rewrite restoreConnected_both_flags.
Qed.

(** X10.  A malformed database mapping stops [Restore] before it connects
    to the server: it returns the error of the first rule that does not
    have two parts, and the world is as it was. *)
Theorem Restore_rejects_mapping_first {W : Type}
    `{!OperatingSystem W} `{!ClickHouse W} `{!Package W} `{!Regexp}
    (backupName tablePattern : string) (databaseMapping partitions : list string)
    (schemaOnly dataOnly dropTable ignoreDependencies rbacOnly configsOnly : bool)
    (commandId : nat) (s : State W) (m : string) :
  status_GetContextWithCancel (world s) commandId = None ->
  find (fun m => negb (acceptedRule m)) (mappingRules databaseMapping) = Some m ->
  exists s',
    Restore backupName tablePattern databaseMapping partitions schemaOnly dataOnly dropTable
      ignoreDependencies rbacOnly configsOnly commandId s = Ret (Some (mappingError m)) s' /\
    world s' = world s /\ logs s' = logs s.
Proof.
  intros Hctx Hfind. unfold Restore, bind at 1, readWorld. rewrite Hctx.
  unfold bind at 1, prepareRestoreDatabaseMapping, bind, getCfg, setCfg, ret.
  rewrite registerArgs_rules.
  destruct (registerRules_first_rejected _ (RestoreDatabaseMapping (cfg s)) _ Hfind)
    as [mapping' ->].
  eexists. split; [reflexivity|]. done.
Qed.

Lemma Restore_rejects_mapping_first_witness :
  exists s',
    Restore "2023-01-01" "db1.*" ["db1:db2,db3"] [] false false false false false false 0
      (initState emptyWorld)
    = Ret (Some (mappingError "db3")) s' /\
    world s' = emptyWorld /\ logs s' = [].
Proof.
  apply (Restore_rejects_mapping_first "2023-01-01" "db1.*" ["db1:db2,db3"] []
           false false false false false false 0 (initState emptyWorld) "db3");
    reflexivity.
Defined.

(** X11.  A backup without a configs directory is not an error for
    [restoreConfigs]: when the directory does not exist it returns nil
    and changes nothing. *)
Theorem restoreConfigs_missing_directory {W : Type} `{!OperatingSystem W} `{!ClickHouse W}
    (backupName defaultDataPath : string) (disks : list clickhouse.Disk) (e : error)
    (s : State W) :
  ch_GetDefaultPath (world s) disks = inr defaultDataPath ->
  os_Stat (world s) (path.Join [defaultDataPath; "backup"; backupName; "configs"]) = inl e ->
  os.IsNotExist e = true ->
  restoreConfigs backupName disks s = Ret None s.
Proof.
  intros Hpath Hstat Hnot.
  unfold restoreConfigs, bind at 1, getCfg.
  unfold bind at 1, restoreBackupRelatedDir, bind at 1, readWorld. rewrite Hpath.
  unfold bind at 1. rewrite Hstat. unfold ret. by rewrite Hnot.
Qed.

Lemma restoreConfigs_missing_directory_witness :
  restoreConfigs "2023-01-01" [examples.defaultDisk] (initState emptyWorld)
  = Ret None (initState emptyWorld).
Proof.
  apply (restoreConfigs_missing_directory "2023-01-01" "/var/lib/clickhouse"
           [examples.defaultDisk]
           (SysError ENOENT
              "stat /var/lib/clickhouse/backup/2023-01-01/configs: no such file or directory"));
    reflexivity.
Defined.

(** X23.  The registration of a mapping is not undone by an error: when
    a rule is malformed, the rules before it, all well formed, have been
    registered in the configuration when the error is returned. *)
Theorem prepareRestoreDatabaseMapping_keeps_earlier_rules {W : Type}
    (databaseMapping : list string) (s : State W) (m : string) :
  find (fun m => negb (acceptedRule m)) (mappingRules databaseMapping) = Some m ->
  exists before after,
    mappingRules databaseMapping = before ++ m :: after /\
    Forall (fun r => acceptedRule r = true) before /\
    prepareRestoreDatabaseMapping databaseMapping s
    = Ret (Some (mappingError m))
          (withMapping s (foldl register (RestoreDatabaseMapping (cfg s)) before)).
Proof.
  intros Hfind.
  unfold prepareRestoreDatabaseMapping, bind, getCfg, setCfg, ret.
  rewrite registerArgs_rules.
  generalize (RestoreDatabaseMapping (cfg s)) as mapping.
  induction (mappingRules databaseMapping) as [|r rules IH]; intros mapping; [done|].
  simpl in Hfind. destruct (acceptedRule r) eqn:Hr; simpl in Hfind.
  - destruct (IH Hfind (register mapping r)) as (before & after & -> & Hacc & Hrun).
    exists (r :: before), after. split; [done|]. split; [by constructor|].
    rewrite registerRules_accepted by done. exact Hrun.
  - injection Hfind as <-. exists [], rules. split; [done|]. split; [constructor|].
    by rewrite registerRules_rejected.
Qed.

Lemma prepareRestoreDatabaseMapping_keeps_earlier_rules_witness :
  prepareRestoreDatabaseMapping ["db1:db2,db3"] (initState emptyWorld)
  = Ret (Some (mappingError "db3"))
        (withMapping (initState emptyWorld) {["db1" := "db2"]}).
Proof.
  destruct (prepareRestoreDatabaseMapping_keeps_earlier_rules ["db1:db2,db3"]
              (initState emptyWorld) "db3" eq_refl) as (before & after & Hrules & _ & Hrun).
  rewrite Hrun. clear Hrun.
  assert (Hbefore : before = ["db1:db2"]).
  { change (mappingRules ["db1:db2,db3"]) with (["db1:db2"] ++ "db3" :: []) in Hrules.
    destruct before as [|b0 [|b1 before']].
    - discriminate Hrules.
    - by injection Hrules as <- _.
    - simpl in Hrules. injection Hrules as _ _ Hrest.
      destruct before'; discriminate Hrest. }
  subst before. reflexivity.
Defined.

(** X24.  Without a backup name (nothing is left of it after cleaning)
    [Restore] connects, prints the local backups, returns the error that
    asks to select a backup, and closes the connection; it reads neither
    disks nor metadata. *)
Theorem Restore_needs_backup_name {W : Type}
    `{!OperatingSystem W} `{!ClickHouse W} `{!Package W} `{!Regexp}
    (backupName tablePattern : string) (databaseMapping partitions : list string)
    (schemaOnly dataOnly dropTable ignoreDependencies rbacOnly configsOnly : bool)
    (commandId : nat) (s : State W) :
  status_GetContextWithCancel (world s) commandId = None ->
  find (fun m => negb (acceptedRule m)) (mappingRules databaseMapping) = None ->
  CleanBackupNameRE_ReplaceAllString backupName = "" ->
  fst (ch_Connect (world s)) = None ->
  exists s',
    Restore backupName tablePattern databaseMapping partitions schemaOnly dataOnly dropTable
      ignoreDependencies rbacOnly configsOnly commandId s
    = Ret (Some (fmt.Errorf "select backup for restore")) s' /\
    world s' = snd (ch_Close (snd (PrintLocalBackups (snd (ch_Connect (world s)))))) /\
    logs s' = logs s.
Proof.
  intros Hctx Hrules Hname Hconn. unfold Restore, bind at 1, readWorld. rewrite Hctx.
  unfold bind at 1, prepareRestoreDatabaseMapping, bind, getCfg, setCfg, ret.
  rewrite registerArgs_rules, (registerRules_all_accepted _ _ Hrules).
  unfold withWorld. simpl.
  destruct (ch_Connect (world s)) as [conn w1]. simpl in Hconn. subst conn.
  unfold restoreConnected. rewrite Hname. unfold bind, withWorld, ret. simpl.
  destruct (PrintLocalBackups w1) as [[] w2]. simpl.
  destruct (ch_Close w2) as [[] w3]. simpl.
  eexists. split; [reflexivity|]. done.
Qed.

Lemma Restore_needs_backup_name_witness :
  exists s',
    Restore "" "" [] [] false false false false false false 0 (initState emptyWorld)
    = Ret (Some (fmt.Errorf "select backup for restore")) s' /\
    world s' = emptyWorld /\ logs s' = [].
Proof.
  destruct (Restore_needs_backup_name "" "" [] [] false false false false false false 0
              (initState emptyWorld))
    as (s' & Hrun & Hworld & Hlogs); [reflexivity..|].
  exists s'. split; [exact Hrun|]. split; [rewrite Hworld|rewrite Hlogs]; reflexivity.
Defined.

(** X25.  A backup without an access directory is not an error for
    [restoreRBAC] either: when the directory does not exist it returns
    nil and changes nothing; the mark file is not created and no list
    file is removed. *)
Theorem restoreRBAC_missing_directory {W : Type} `{!OperatingSystem W} `{!ClickHouse W}
    (backupName accessPath defaultDataPath : string) (disks : list clickhouse.Disk)
    (e : error) (s : State W) :
  ch_GetAccessManagementPath (world s) = inr accessPath ->
  ch_GetDefaultPath (world s) disks = inr defaultDataPath ->
  os_Stat (world s) (path.Join [defaultDataPath; "backup"; backupName; "access"]) = inl e ->
  os.IsNotExist e = true ->
  restoreRBAC backupName disks s = Ret None s.
Proof.
  intros Haccess Hpath Hstat Hnot.
  unfold restoreRBAC, bind at 1, readWorld. rewrite Haccess.
  unfold bind at 1, restoreBackupRelatedDir, bind at 1, readWorld. rewrite Hpath.
  unfold bind at 1. rewrite Hstat. unfold ret. by rewrite Hnot.
Qed.

Lemma restoreRBAC_missing_directory_witness :
  restoreRBAC "2023-01-01" [examples.defaultDisk] (initState emptyWorld)
  = Ret None (initState emptyWorld).
Proof.
  apply (restoreRBAC_missing_directory "2023-01-01" "/var/lib/clickhouse/access"
           "/var/lib/clickhouse" [examples.defaultDisk]
           (SysError ENOENT
              "stat /var/lib/clickhouse/backup/2023-01-01/access: no such file or directory"));
    reflexivity.
Defined.

End restore_properties.

(** ** File system helpers *)

Module chown_properties.
Import spec spec_data filesystemhelper testbed.

(** X12.  [Chown] does not release [chownLock] when the lookup of the
    owner fails.  For a process that runs as root and has no owner cached
    yet: if the default data path is not known, or the stat of it fails,
    [Chown] returns that error with the lock held, and every later call
    of [Chown], whatever its arguments, blocks for ever. *)
Theorem Chown_keeps_lock_on_error {W : Type} `{!OperatingSystem W} `{!ClickHouse W}
    (path : string) (disks : list clickhouse.Disk) (recursive : bool) (err : error)
    (s : State W) :
  os_Getuid (world s) = 0 ->
  uid s = None ->
  chownLock s = false ->
  (ch_GetDefaultPath (world s) disks = inl err \/
   exists dataPath, ch_GetDefaultPath (world s) disks = inr dataPath /\
                    os_Stat (world s) dataPath = inl err) ->
  Chown path disks recursive s = Ret (Some err) (locked s) /\
  forall path' disks' recursive', Chown path' disks' recursive' (locked s) = Blocked.
Proof.
  intros Hroot Huid Hfree Hlookup. split.
  - unfold Chown, bind at 1, readWorld. rewrite Hroot. simpl.
    unfold bind at 1, Lock. rewrite Hfree.
    unfold bind at 1. simpl. unfold bind at 1. simpl. rewrite Huid.
    unfold bind at 1, readWorld. simpl.
    destruct Hlookup as [Hpath|(dataPath & Hpath & Hstat)]; rewrite Hpath.
    + simpl. unfold ret, locked. by rewrite Huid.
    + unfold bind at 1. simpl. rewrite Hstat. simpl. unfold ret, locked. by rewrite Huid.
  - intros path' disks' recursive'.
    unfold Chown, bind at 1, readWorld. simpl. rewrite Hroot. simpl.
    reflexivity.
Qed.

Lemma Chown_keeps_lock_on_error_witness :
  Chown (OperatingSystem0 := rootOS) "/var/lib/clickhouse/store" [] false
    (initState emptyWorld)
  = Ret (Some (ErrorString "no default disk")) (locked (initState emptyWorld)) /\
  forall path' disks' recursive',
    Chown (OperatingSystem0 := rootOS) path' disks' recursive' (locked (initState emptyWorld))
    = Blocked.
Proof.
  apply (Chown_keeps_lock_on_error (OperatingSystem0 := rootOS)
           "/var/lib/clickhouse/store" [] false (ErrorString "no default disk")
           (initState emptyWorld)); try reflexivity.
  left. reflexivity.
Defined.

End chown_properties.

Module mkdir_facts.
Import spec spec_data filesystemhelper.

Lemma rev_acc_length (s acc : string) :
  String.length (strings.rev_acc s acc) = String.length s + String.length acc.
Proof.
  revert acc. induction s as [|c s IH]; intros acc; simpl; [done|].
  rewrite IH. simpl. lia.
Qed.

Lemma rev_length (s : string) : String.length (strings.rev s) = String.length s.
Proof. unfold strings.rev. rewrite rev_acc_length. simpl. lia. Qed.

Lemma TrimLeft_length (s cutset : string) :
  String.length (strings.TrimLeft s cutset) <= String.length s.
Proof.
  induction s as [|c s IH]; simpl; [done|].
  destruct (strings.inCutset c cutset); simpl; lia.
Qed.

Lemma dropElement_length (s : string) :
  String.length (dropElement s) <= String.length s.
Proof.
  induction s as [|c s IH]; simpl; [done|].
  destruct (Ascii.eqb c "/"); simpl; lia.
Qed.

Lemma drop_length (n : nat) (s : string) :
  String.length (strings.drop n s) = String.length s - n.
Proof.
  revert s. induction n as [|n IH]; intros s; simpl; [lia|].
  destruct s as [|c s]; simpl; [done|]. apply IH.
Qed.

(** The parent that [MkdirAll] recurses on is shorter than the path. *)
Lemma parentPath_shorter (path parent : string) :
  parentPath path = Some parent -> String.length parent < String.length path.
Proof.
  unfold parentPath.
  set (r := dropElement (strings.TrimLeft (strings.rev path) "/")).
  destruct (Nat.ltb 1 (String.length r)) eqn:Hlen; [|done].
  intros [= <-]. apply Nat.ltb_lt in Hlen.
  rewrite rev_length. change (String.length (strings.drop 1 r) < String.length path).
  rewrite (drop_length 1 r).
  pose proof (dropElement_length (strings.TrimLeft (strings.rev path) "/")) as H1.
  pose proof (TrimLeft_length (strings.rev path) "/") as H2.
  rewrite rev_length in H2. fold r in H1. lia.
Qed.


Section Files.
Context {W : Type} `{!OperatingSystem W} `{!ClickHouse W}.










End Files.
End mkdir_facts.

Module mkdir_properties.
Import spec spec_data filesystemhelper mkdir_facts testbed.



End mkdir_properties.

Module copy_facts.
Import spec spec_data filesystemhelper.

Section Unprivileged.
Context {W : Type} `{!OperatingSystem W} `{!ClickHouse W} `{!Package W}.

Lemma Chown_unprivileged (path : string) (disks : list clickhouse.Disk) (recursive : bool)
    (s : State W) :
  os_Getuid (world s) <> 0 -> Chown path disks recursive s = Ret None s.
Proof.
  intros Huid. unfold Chown, bind, readWorld.
  destruct (os_Getuid (world s)) as [|n]; [done|]. reflexivity.
Qed.

Hypothesis unprivileged : forall w : W, os_Getuid w <> 0.
Hypothesis mkdir_exists : forall p (w : W) e,
  fst (os_MkdirAll p w) = Some e -> os.IsExist e = true.
Hypothesis link_exists : forall src dst (w : W) e,
  fst (os_Link src dst w) = Some e -> os.IsExist e = true.
Hypothesis walk_clean : forall (w : W) root v,
  v ∈ filepath_Walk_visits w root -> visitErr v = None /\ is_Some (visitInfo v).
Hypothesis stat_directory : forall (w : W) p,
  match os_Stat w p with
  | inr info => IsDir info = true
  | inl e => os.IsNotExist e = true
  end.

Lemma Mkdir_tolerant (name : string) (disks : list clickhouse.Disk) (s : State W) :
  exists s', Mkdir name disks s = Ret None s'.
Proof.
  unfold Mkdir, bind at 1, withWorld.
  destruct (os_MkdirAll name (world s)) as [[e|] w'] eqn:Hmk.
  - rewrite (mkdir_exists name (world s) e) by (by rewrite Hmk). simpl.
    unfold bind. rewrite Chown_unprivileged by apply unprivileged. by eexists.
  - unfold bind. rewrite Chown_unprivileged by apply unprivileged. by eexists.
Qed.

Lemma MkdirAllFuel_returns (fuel : nat) (path : string) (disks : list clickhouse.Disk)
    (s : State W) :
  String.length path < fuel ->
  exists r s', MkdirAllFuel fuel path disks s = Ret r s'.
Proof.
  revert path s. induction fuel as [|fuel IH]; intros path s Hlen; [lia|].
  cbn [MkdirAllFuel]. unfold bind at 1, readWorld.
  destruct (os_Stat (world s) path) as [e|dir]; [|destruct (IsDir dir); by eexists _, _].
  assert (Hparent : exists r s1,
    match parentPath path with
    | Some parent => MkdirAllFuel fuel parent disks
    | None => ret None
    end s = Ret r s1).
  { destruct (parentPath path) as [parent|] eqn:Hp; [|by eexists _, _].
    apply IH. apply mkdir_facts.parentPath_shorter in Hp. lia. }
  destruct Hparent as (r & s1 & Hrun). unfold bind at 1. rewrite Hrun.
  destruct r as [e'|]; [by eexists _, _|].
  destruct (Mkdir_tolerant path disks s1) as [s2 Hmk].
  unfold bind. rewrite Hmk. by eexists _, _.
Qed.

Lemma linkVisit_tolerant (disks : list clickhouse.Disk) (partPath detachedPath : string)
    (v : Visit) (s : State W) :
  visitErr v = None -> is_Some (visitInfo v) ->
  exists s', linkVisit disks partPath detachedPath v s = Ret None s'.
Proof.
  intros Herr [info Hinfo]. unfold linkVisit. rewrite Herr, Hinfo.
  destruct (IsDir info); [apply Mkdir_tolerant|].
  destruct (negb (IsRegular info)); [by eexists|].
  unfold bind, withWorld.
  destruct (os_Link _ _ (world s)) as [[e|] w'] eqn:Hlink; simpl.
  - rewrite (link_exists _ _ (world s) e) by (by rewrite Hlink). simpl.
    rewrite Chown_unprivileged by apply unprivileged. by eexists.
  - rewrite Chown_unprivileged by apply unprivileged. by eexists.
Qed.

Lemma walkVisits_tolerant (disks : list clickhouse.Disk) (partPath detachedPath : string)
    (visits : list Visit) (s : State W) :
  Forall (fun v => visitErr v = None /\ is_Some (visitInfo v)) visits ->
  exists s', walkVisits visits (linkVisit disks partPath detachedPath) s = Ret None s'.
Proof.
  intros Hclean. revert s. induction Hclean as [|v rest [Herr Hinfo] _ IH]; intros s; simpl.
  - by eexists.
  - destruct (linkVisit_tolerant disks partPath detachedPath v s Herr Hinfo) as [s1 Hv].
    unfold bind. rewrite Hv. apply IH.
Qed.

Lemma copyPart_tolerant (backupName : string) (backupTable : metadata.TableMetadata)
    (disks : list clickhouse.Disk) (backupDisk : clickhouse.Disk)
    (detachedParentDir : string) (part : metadata.Part) (s : State W) :
  exists s',
    copyPart backupName backupTable disks backupDisk detachedParentDir part s = Ret None s'.
Proof.
  unfold copyPart. unfold bind at 1, readWorld.
  assert (Hfirst : exists s1,
    match os_Stat (world s) (path.Join [detachedParentDir; metadata.PartName part]) with
    | inl err =>
        if os.IsNotExist err then
          bind (MkdirAll (path.Join [detachedParentDir; metadata.PartName part]) disks)
            (fun mkdirErr =>
               match mkdirErr with
               | Some e => bind (Warnf ("error during Mkdir " +:+ Error e)) (fun _ => ret None)
               | None => ret None
               end)
        else ret (Some err)
    | inr info =>
        if negb (IsDir info) then
          ret (Some (fmt.Errorf ("'" +:+ path.Join [detachedParentDir; metadata.PartName part]
                                 +:+ "' should be directory or absent")))
        else ret None
    end s = Ret None s1).
  { pose proof (stat_directory (world s)
                  (path.Join [detachedParentDir; metadata.PartName part])) as Hstat.
    destruct (os_Stat _ _) as [err|info].
    - rewrite Hstat.
      destruct (MkdirAllFuel_returns
                  (S (String.length (path.Join [detachedParentDir; metadata.PartName part])))
                  (path.Join [detachedParentDir; metadata.PartName part]) disks s
                  ltac:(lia)) as (r & s1 & Hmk).
      unfold bind at 1, MkdirAll. rewrite Hmk. destruct r; by eexists.
    - rewrite Hstat. by eexists. }
  destruct Hfirst as [s1 Hfirst]. unfold bind at 1. rewrite Hfirst.
  unfold bind at 1, readWorld.
  match goal with
  | |- context [filepath_Walk ?root ?fn] =>
      assert (Hwalk : exists s2, filepath_Walk root fn s1 = Ret None s2)
  end.
  { unfold filepath_Walk, bind, readWorld. apply walkVisits_tolerant.
    apply Forall_forall. intros v Hv. by eapply walk_clean. }
  destruct Hwalk as [s2 Hwalk]. unfold bind. rewrite Hwalk. by eexists.
Qed.

Lemma copyParts_tolerant (backupName : string) (backupTable : metadata.TableMetadata)
    (disks : list clickhouse.Disk) (backupDisk : clickhouse.Disk)
    (detachedParentDir : string) (parts : list metadata.Part) (s : State W) :
  exists s',
    copyParts backupName backupTable disks backupDisk detachedParentDir parts s = Ret None s'.
Proof.
  revert s. induction parts as [|part rest IH]; intros s; simpl; [by eexists|].
  destruct (copyPart_tolerant backupName backupTable disks backupDisk detachedParentDir part s)
    as [s1 Hpart].
  unfold bind. rewrite Hpart. apply IH.
Qed.

Lemma copyDisks_tolerant (backupName : string) (backupTable : metadata.TableMetadata)
    (allDisks : list clickhouse.Disk) (dstDataPaths : gmap string string)
    (disks : list clickhouse.Disk) (s : State W) :
  exists s', copyDisks backupName backupTable allDisks dstDataPaths disks s = Ret None s'.
Proof.
  revert s. induction disks as [|backupDisk rest IH]; intros s; simpl; [by eexists|].
  destruct (default [] (metadata.Parts backupTable !! clickhouse.DiskName backupDisk))
    as [|part parts] eqn:Hparts.
  - unfold bind. simpl. apply IH.
  - destruct (copyParts_tolerant backupName backupTable allDisks backupDisk
                (path.Join [default "" (dstDataPaths !! clickhouse.DiskName backupDisk);
                            "detached"]) (part :: parts) s) as [s1 Hcopy].
    unfold bind at 1. rewrite Hcopy. apply IH.
Qed.

End Unprivileged.
End copy_facts.

Module copy_properties.
Import spec spec_data filesystemhelper copy_facts testbed.

(** X14.  [CopyDataToDetached] returns nil whenever the only failures it
    meets are of targets that already exist: in a world where the
    process is not root, the walks meet no error, whatever is looked up
    is a directory or absent, and creating a directory or a hard link
    fails only with an already-exists error. *)
Theorem CopyDataToDetached_tolerates_existing {W : Type}
    `{!OperatingSystem W} `{!ClickHouse W} `{!Package W}
    (backupName : string) (backupTable : metadata.TableMetadata)
    (disks : list clickhouse.Disk) (tableDataPaths : list string) (s : State W) :
  (forall w : W, os_Getuid w <> 0) ->
  (forall p (w : W) e, fst (os_MkdirAll p w) = Some e -> os.IsExist e = true) ->
  (forall src dst (w : W) e, fst (os_Link src dst w) = Some e -> os.IsExist e = true) ->
  (forall (w : W) root v,
     v ∈ filepath_Walk_visits w root -> visitErr v = None /\ is_Some (visitInfo v)) ->
  (forall (w : W) p,
     match os_Stat w p with
     | inr info => IsDir info = true
     | inl e => os.IsNotExist e = true
     end) ->
  exists s', CopyDataToDetached backupName backupTable disks tableDataPaths s = Ret None s'.
Proof.
  intros Huid Hmkdir Hlink Hwalk Hstat. unfold CopyDataToDetached.
  by apply copyDisks_tolerant.
Qed.

Lemma CopyDataToDetached_tolerates_existing_witness :
  exists s',
    CopyDataToDetached (OperatingSystem0 := stagedOS) "2023-01-01" examples.coldTable
      [examples.defaultDisk] ["/var/lib/clickhouse/data/db1/t1/"] (initState emptyWorld)
    = Ret None s'.
Proof.
  apply (CopyDataToDetached_tolerates_existing (OperatingSystem0 := stagedOS)
           "2023-01-01" examples.coldTable [examples.defaultDisk]
           ["/var/lib/clickhouse/data/db1/t1/"] (initState emptyWorld)).
  - intros w. simpl. lia.
  - intros p w e H. discriminate H.
  - intros src dst w e H. simpl in H. by injection H as <-.
  - intros w root v Hv. simpl in Hv.
    repeat (apply elem_of_cons in Hv as [->|Hv]; [by split; [|eexists]|]).
    by apply elem_of_nil in Hv.
  - intros w p. reflexivity.
Defined.

(** X15.  [CopyDataToDetached] looks only at the disks of the list it is
    given: when the table has no part on any of them it returns nil and
    changes nothing, whatever parts the table has on other disks. *)
Theorem CopyDataToDetached_skips_unlisted_disks {W : Type}
    `{!OperatingSystem W} `{!ClickHouse W} `{!Package W}
    (backupName : string) (backupTable : metadata.TableMetadata)
    (disks : list clickhouse.Disk) (tableDataPaths : list string) (s : State W) :
  (forall disk, disk ∈ disks ->
     default [] (metadata.Parts backupTable !! clickhouse.DiskName disk) = []) ->
  CopyDataToDetached backupName backupTable disks tableDataPaths s = Ret None s.
Proof.
  intros Hnone. unfold CopyDataToDetached.
  generalize (clickhouse_GetDisksByPaths disks tableDataPaths) as dstDataPaths.
  generalize disks at 1 as allDisks.
  induction disks as [|backupDisk rest IH]; intros allDisks dstDataPaths; simpl; [done|].
  rewrite (Hnone backupDisk) by apply list_elem_of_here.
  unfold bind. simpl. apply IH.
  intros disk Hdisk. apply Hnone. by apply list_elem_of_further.
Qed.

Lemma CopyDataToDetached_skips_unlisted_disks_witness :
  CopyDataToDetached "2023-01-01" examples.coldOnly [examples.defaultDisk]
    ["/var/lib/clickhouse/data/db1/t1/"] (initState emptyWorld)
  = Ret None (initState emptyWorld).
Proof.
  apply (CopyDataToDetached_skips_unlisted_disks "2023-01-01" examples.coldOnly
           [examples.defaultDisk] ["/var/lib/clickhouse/data/db1/t1/"]
           (initState emptyWorld)).
  intros disk Hdisk. apply elem_of_cons in Hdisk as [->|Hdisk]; [reflexivity|].
  by apply elem_of_nil in Hdisk.
Defined.

(** An example on the file system of the test world: the first run links
    the two files of the part into the detached directory, the second run
    finds them there, returns nil as well and leaves the files as they
    are. *)
Example CopyDataToDetached_twice :
  match CopyDataToDetached "2023-01-01" examples.noDDL [examples.defaultDisk]
          ["/var/lib/clickhouse/data/db1/t1/"] (initState examples.backupWorld) with
  | Ret None s1 =>
      match CopyDataToDetached "2023-01-01" examples.noDDL [examples.defaultDisk]
              ["/var/lib/clickhouse/data/db1/t1/"] s1 with
      | Ret None s2 =>
          files (world s1)
            !! "/var/lib/clickhouse/data/db1/t1/detached/20230101_1_1_0/data.bin" = Some false /\
          map_to_list (files (world s2)) = map_to_list (files (world s1))
      | _ => False
      end
  | _ => False
  end.
Proof. vm_compute. split; reflexivity. Qed.

End copy_properties.

Module partition_name_facts.
Import spec filesystemhelper strings_facts.

Lemma splitAux_nonempty (sep : string) (skip : nat) (s : string) :
  strings.splitAux sep skip s <> [].
Proof.
  revert skip. induction s as [|c s IH]; intros skip; simpl; [done|].
  destruct skip; [|apply IH].
  destruct (strings.HasPrefix _ _); [done|].
  specialize (IH 0). by destruct (strings.splitAux sep 0 s).
Qed.

(** The first of the fields of [s] between underscores. *)
Lemma firstField_cons (c : ascii) (s : string) :
  head (strings.Split (String c s) "_")
  = if Ascii.eqb "_" c then Some "" else String c <$> head (strings.Split s "_").
Proof.
  unfold strings.Split. cbn [strings.splitAux strings.HasPrefix].
  destruct (Ascii.eqb "_" c); [done|].
  pose proof (splitAux_nonempty "_" 0 s) as Hne.
  by destruct (strings.splitAux "_" 0 s).
Qed.

Lemma firstField_before_underscore (partition rest : string) :
  strings.Contains partition "_" = false ->
  head (strings.Split (partition +:+ "_" +:+ rest) "_") = Some partition.
Proof.
  induction partition as [|c p IH]; intros Hno.
  - rewrite append_nil. change ("_" +:+ rest) with (String "_" rest).
    by rewrite firstField_cons.
  - rewrite append_cons, firstField_cons.
    cbn [strings.Contains strings.HasPrefix] in Hno.
    destruct (Ascii.eqb "_" c); [done|]. by rewrite IH.
Qed.

Lemma drop_app (a b : string) : strings.drop (String.length a) (a +:+ b) = b.
Proof. induction a as [|c a IH]; [done|]. rewrite append_cons. simpl. apply IH. Qed.

Lemma TrimPrefix_app (a b : string) : strings.TrimPrefix (a +:+ b) a = b.
Proof. unfold strings.TrimPrefix. by rewrite HasPrefix_app, drop_app. Qed.

End partition_name_facts.

Module partition_name_properties.
Import spec filesystemhelper strings_facts partition_name_facts.

(** X16.  A part belongs to the partitions to back up when the text of
    its name before the first underscore is in the set; for a file name
    that starts with the disk name and an underscore, it is the text
    between that and the next underscore. *)
Theorem IsPartInPartition_first_field (partition rest disk : string)
    (partitionsBackupMap : gset string) :
  strings.Contains partition "_" = false ->
  IsPartInPartition (partition +:+ "_" +:+ rest) partitionsBackupMap
    = bool_decide (partition ∈ partitionsBackupMap) /\
  IsFileInPartition disk (disk +:+ "_" +:+ partition +:+ "_" +:+ rest) partitionsBackupMap
    = bool_decide (partition ∈ partitionsBackupMap).
Proof.
  intros Hno. unfold IsPartInPartition, IsFileInPartition. split.
  - by rewrite firstField_before_underscore.
  - rewrite <- (app_assoc disk "_"), TrimPrefix_app.
    by rewrite firstField_before_underscore.
Qed.

Lemma IsPartInPartition_first_field_witness :
  IsPartInPartition ("20230101" +:+ "_" +:+ "1_1_0") {["20230101"]}
    = bool_decide ("20230101" ∈ ({["20230101"]} : gset string)) /\
  IsFileInPartition "default" ("default" +:+ "_" +:+ "20230101" +:+ "_" +:+ "1_1_0")
    {["20230101"]}
    = bool_decide ("20230101" ∈ ({["20230101"]} : gset string)).
Proof.
  apply (IsPartInPartition_first_field "20230101" "1_1_0" "default"). reflexivity.
Defined.

End partition_name_properties.

Module partition_id_properties.
Import spec spec_partitions filesystemhelper partition_facts testbed.

Section Resolver.
Context {W : Type} `{!ClickHouse W}.

Lemma resolveTuple_no_empty (w : W) (items : list (string * string * string))
    (partitionTuple : string) (m m' : gset string) :
  "" ∉ m -> resolveTuple w items partitionTuple m = inr m' -> "" ∉ m'.
Proof.
  revert m. induction items as [|[[d n] q] items IH]; intros m Hm; simpl.
  - by intros [= <-].
  - destruct (partition_GetPartitionId w d n q partitionTuple) as [[err|] id]; [done|].
    apply IH. destruct (decide (id = "")); [done|]. set_solver.
Qed.

Lemma resolveTuples_no_empty (w : W) (live : list clickhouse.Table)
    (captured : list metadata.TableMetadata) (tuples : list string) (m m' : gset string) :
  "" ∉ m -> resolveTuples w live captured tuples m = inr m' -> "" ∉ m'.
Proof.
  revert m. induction tuples as [|t tuples IH]; intros m Hm; simpl.
  - by intros [= <-].
  - destruct (resolveTuple w (liveItems live) t m) as [err|m1] eqn:H1; [done|].
    destruct (resolveTuple w (capturedItems captured) t m1) as [err|m2] eqn:H2; [done|].
    apply IH. eapply resolveTuple_no_empty; [|exact H2].
    eapply resolveTuple_no_empty; [exact Hm|exact H1].
Qed.

Lemma resolveArgs_no_empty (w : W) (live : list clickhouse.Table)
    (captured : list metadata.TableMetadata) (args : list string) (m m' : gset string) :
  Forall (fun arg => isTupleForm arg = true) args ->
  "" ∉ m -> resolveArgs w live captured args m = inr m' -> "" ∉ m'.
Proof.
  intros Hform. revert m. induction Hform as [|arg args Harg _ IH]; intros m Hm; simpl.
  - by intros [= <-].
  - rewrite Harg.
    destruct (resolveTuples w live captured (tuplesOf arg) m) as [err|m1] eqn:H1; [done|].
    apply IH. by eapply resolveTuples_no_empty.
Qed.

End Resolver.

(** X17.  When every filter is of the tuple form, the empty identifier is
    never in the set [CreatePartitionsToBackupMap] returns: an empty
    identifier that the evaluation of a tuple gives is left out. *)
Theorem CreatePartitionsToBackupMap_tuples_no_empty_id {W : Type} `{!ClickHouse W}
    (live : list clickhouse.Table) (captured : list metadata.TableMetadata)
    (partitions : list string) (s s' : State W) (ids : gset string) (l : list string) :
  Forall (fun partitionArg => isTupleForm partitionArg = true) partitions ->
  CreatePartitionsToBackupMap live captured partitions s = Ret (ids, l) s' ->
  "" ∉ ids.
Proof.
  intros Hform. unfold CreatePartitionsToBackupMap.
  destruct partitions as [|arg rest] eqn:Heq.
  - intros [= <- _ _]. set_solver.
  - rewrite <- Heq in *. unfold bind, readWorld.
    destruct (resolveArgs (world s) live captured partitions ∅) as [err|m] eqn:Hres.
    + simpl. intros [= <- _ _]. set_solver.
    + intros [= <- _ _]. eapply resolveArgs_no_empty; [exact Hform| |exact Hres]. set_solver.
Qed.

Lemma CreatePartitionsToBackupMap_tuples_no_empty_id_witness :
  CreatePartitionsToBackupMap (liveTables examples.liveWorld) [] ["(2023,1), (2023,2)"]
    (initState examples.liveWorld)
  = Ret ({["2023,1"; "2023,2"]}, elements ({["2023,1"; "2023,2"]} : gset string))
        (initState examples.liveWorld) /\
  "" ∉ ({["2023,1"; "2023,2"]} : gset string).
Proof.
  assert (Hrun :
    CreatePartitionsToBackupMap (liveTables examples.liveWorld) [] ["(2023,1), (2023,2)"]
      (initState examples.liveWorld)
    = Ret ({["2023,1"; "2023,2"]}, elements ({["2023,1"; "2023,2"]} : gset string))
          (initState examples.liveWorld)).
  { assert (Hres : resolveArgs examples.liveWorld (liveTables examples.liveWorld) []
                     ["(2023,1), (2023,2)"] ∅
                   = inr ({["2023,1"; "2023,2"]} : gset string)) by reflexivity.
    unfold CreatePartitionsToBackupMap, bind, readWorld, ret.
    change (world (initState examples.liveWorld)) with examples.liveWorld.
    by rewrite Hres. }
  split; [exact Hrun|].
  apply (CreatePartitionsToBackupMap_tuples_no_empty_id (liveTables examples.liveWorld) []
           ["(2023,1), (2023,2)"] (initState examples.liveWorld)
           (initState examples.liveWorld) {["2023,1"; "2023,2"]}
           (elements ({["2023,1"; "2023,2"]} : gset string))).
  - repeat constructor.
  - exact Hrun.
Defined.

(** X18.  A literal filter with an empty item (an empty filter, two
    commas in a row, a comma at an end) puts the empty identifier in the
    set, so the set is not empty although the item names no partition. *)
Theorem CreatePartitionsToBackupMap_literal_empty_item {W : Type} `{!ClickHouse W}
    (live : list clickhouse.Table) (captured : list metadata.TableMetadata)
    (partitions : list string) (partitionArg : string) (s : State W) :
  Forall (fun partitionArg => isTupleForm partitionArg = false) partitions ->
  partitionArg ∈ partitions ->
  "" ∈ literalIds partitionArg ->
  exists ids : gset string,
    CreatePartitionsToBackupMap live captured partitions s = Ret (ids, elements ids) s /\
    "" ∈ ids /\ size ids <> 0.
Proof.
  intros Hlit Hin Hempty.
  exists (list_to_set (flat_map literalIds partitions)).
  assert (Hmem : "" ∈ (list_to_set (flat_map literalIds partitions) : gset string)).
  { rewrite elem_of_list_to_set, list_elem_of_In, in_flat_map.
    exists partitionArg. by rewrite <- !list_elem_of_In. }
  split; [|split; [exact Hmem|]].
  - unfold CreatePartitionsToBackupMap. destruct partitions as [|arg rest] eqn:Heq.
    + by apply elem_of_nil in Hin.
    + rewrite <- Heq in *. unfold bind, readWorld, ret.
      rewrite (resolveArgs_literal _ _ _ _ _ Hlit).
      by rewrite (right_id_L ∅ (∪)).
  - intros Hsize. apply size_empty_inv in Hsize. set_solver.
Qed.

Lemma CreatePartitionsToBackupMap_literal_empty_item_witness :
  exists ids : gset string,
    CreatePartitionsToBackupMap (W := World) [] [] ["20230101,"] (initState emptyWorld)
    = Ret (ids, elements ids) (initState emptyWorld) /\
    "" ∈ ids /\ size ids <> 0.
Proof.
  apply (CreatePartitionsToBackupMap_literal_empty_item (W := World) [] [] ["20230101,"]
           "20230101," (initState emptyWorld)).
  - repeat constructor.
  - apply list_elem_of_here.
  - vm_compute. apply list_elem_of_further, list_elem_of_here.
Defined.

End partition_id_properties.

Module shadow_properties.
Import spec spec_data filesystemhelper testbed.

(** X19.  [MoveShadow] does not look at the error of a visit.  When every
    visit of the walk is less than four path elements below the shadow
    path, as is the one visit of a shadow path that does not exist, it
    returns no part, size zero and nil, and changes nothing. *)
Theorem MoveShadow_ignores_shallow_visits {W : Type} `{!OperatingSystem W}
    (shadowPath backupPartsPath : string) (partitionsBackupMap : gset string) (s : State W) :
  Forall (fun v => depthBelow shadowPath v <> 4) (filepath_Walk_visits (world s) shadowPath) ->
  MoveShadow shadowPath backupPartsPath partitionsBackupMap s = Ret ([], 0%Z, None) s.
Proof.
  intros Hshallow. unfold MoveShadow, bind, readWorld.
  induction Hshallow as [|v rest Hv _ IH]; [done|].
  cbn [moveVisits]. unfold bind. unfold depthBelow in Hv.
  assert (Hvisit : moveVisit shadowPath backupPartsPath partitionsBackupMap ([], 0%Z) v s
                   = Ret ([], 0%Z, None) s).
  { unfold moveVisit.
    destruct (strings.SplitN _ "/" 4) as [|a [|b [|c [|d [|e l]]]]]; try done. }
  rewrite Hvisit. exact IH.
Qed.

Lemma MoveShadow_ignores_shallow_visits_witness :
  os_Stat emptyWorld "/var/lib/clickhouse/shadow/7"
    = inl (SysError ENOENT "stat /var/lib/clickhouse/shadow/7: no such file or directory") /\
  MoveShadow "/var/lib/clickhouse/shadow/7" "/var/lib/clickhouse/backup/b/shadow/db1/t1/default"
    ∅ (initState emptyWorld)
  = Ret ([], 0%Z, None) (initState emptyWorld).
Proof.
  split; [reflexivity|].
  apply (MoveShadow_ignores_shallow_visits "/var/lib/clickhouse/shadow/7"
           "/var/lib/clickhouse/backup/b/shadow/db1/t1/default" ∅ (initState emptyWorld)).
  repeat constructor. vm_compute. lia.
Defined.

End shadow_properties.

Module utils_properties.
Import utils.

(** X20.  For a duration of a day or more, [HumanizeDuration] splits it
    exactly: the years (shown only from one year on), the days and the
    rest add up to the duration, the rest is less than a day, and with
    years shown the days are less than 365. *)
Theorem HumanizeDuration_exact (Duration_String : Z -> string) (Duration_Round : Z -> Z -> Z)
    (d : Z) :
  (day <= d)%Z ->
  exists years days rest : Z,
    d = (years * year + days * day + rest)%Z /\
    (0 <= rest < day)%Z /\ (0 <= days)%Z /\ (0 <= years)%Z /\
    (year <= d -> 1 <= years /\ days < 365)%Z /\
    (d < year -> years = 0)%Z /\
    HumanizeDuration Duration_String Duration_Round d
    = (if (year <=? d)%Z then pretty years +:+ "y" else "")
      +:+ pretty days +:+ "d" +:+ Duration_String rest.
Proof.
  intros Hday. unfold HumanizeDuration.
  assert (Hd : (0 < day)%Z) by (vm_compute; done).
  assert (Hy : year = (365 * day)%Z) by reflexivity.
  destruct (d <? day)%Z eqn:Hlt; [apply Z.ltb_lt in Hlt; lia|].
  destruct (year <=? d)%Z eqn:Hyear.
  - apply Z.leb_le in Hyear.
    set (years := Z.quot d year). set (d1 := (d - years * year)%Z).
    assert (Hq : years = (d / year)%Z) by (apply Z.quot_div_nonneg; lia).
    assert (Hd1 : (0 <= d1 < year)%Z).
    { unfold d1. rewrite Hq. pose proof (Z.mod_pos_bound d year ltac:(lia)).
      pose proof (Z.div_mod d year ltac:(lia)). lia. }
    exists years, (Z.quot d1 day), (d1 - Z.quot d1 day * day)%Z.
    assert (Hq1 : Z.quot d1 day = (d1 / day)%Z) by (apply Z.quot_div_nonneg; lia).
    pose proof (Z.mod_pos_bound d1 day ltac:(lia)).
    pose proof (Z.div_mod d1 day ltac:(lia)).
    assert (0 <= d1 / day)%Z by (apply Z.div_pos; lia).
    assert (d1 / day < 365)%Z by (apply Z.div_lt_upper_bound; lia).
    assert (1 <= years)%Z.
    { rewrite Hq. apply Z.div_le_lower_bound; lia. }
    rewrite Hq1. repeat split; try lia.
  - apply Z.leb_gt in Hyear.
    exists 0%Z, (Z.quot d day), (d - Z.quot d day * day)%Z.
    assert (Hq1 : Z.quot d day = (d / day)%Z) by (apply Z.quot_div_nonneg; lia).
    pose proof (Z.mod_pos_bound d day ltac:(lia)).
    pose proof (Z.div_mod d day ltac:(lia)).
    assert (0 <= d / day)%Z by (apply Z.div_pos; lia).
    rewrite Hq1. repeat split; try lia.
Qed.

Lemma HumanizeDuration_exact_witness :
  exists years days rest : Z,
    (400 * day + 5 = years * year + days * day + rest)%Z /\
    (0 <= rest < day)%Z /\ (0 <= days)%Z /\ (0 <= years)%Z /\
    (year <= 400 * day + 5 -> 1 <= years /\ days < 365)%Z /\
    (400 * day + 5 < year -> years = 0)%Z /\
    HumanizeDuration (fun n => pretty n +:+ "ns") (fun n _ => n) (400 * day + 5)
    = (if (year <=? 400 * day + 5)%Z then pretty years +:+ "y" else "")
      +:+ pretty days +:+ "d" +:+ pretty rest +:+ "ns".
Proof.
  apply (HumanizeDuration_exact (fun n => pretty n +:+ "ns") (fun n _ => n) (400 * day + 5)).
  vm_compute. discriminate.
Defined.

End utils_properties.

Module embedded_properties.
Import spec spec_data backup strings_facts.

Lemma append_nil_r (a : string) : a +:+ "" = a.
Proof. induction a as [|c a IH]; [done|]. by rewrite append_cons, IH. Qed.

(** What the body of the loop adds for a table that has a query. *)
Lemma embeddedTablesSQL_cons (mapping : gmap string string) (partitions : list string)
    (l i : nat) (t : metadata.TableMetadata) (rest : list metadata.TableMetadata)
    (tablesSQL : string) :
  metadata.Query t <> "" ->
  embeddedTablesSQL mapping partitions l i (t :: rest) tablesSQL
  = embeddedTablesSQL mapping partitions l (S i) rest
      (tablesSQL +:+ embeddedEntry mapping partitions t +:+
       (if Nat.ltb i (l - 1) then ", " else "")).
Proof.
  intros Hq. cbn [embeddedTablesSQL]. rewrite decide_False by done. f_equal.
  unfold embeddedEntry.
  destruct (strings.Contains (metadata.Query t) " DICTIONARY ");
    destruct (strings.Contains (metadata.Query t) " VIEW ");
    destruct (mapping !! metadata.Database t);
    destruct (Nat.ltb 0 (length partitions));
    destruct (Nat.ltb i (l - 1));
    cbn [negb andb bool_decide decide_rel];
    repeat (rewrite ?bool_decide_eq_true_2, ?bool_decide_eq_false_2 by done;
            cbn [negb andb]);
    rewrite ?append_nil_r, ?app_assoc, ?append_nil_r; reflexivity.
Qed.

(** X21.  For tables that all have a query, the table list of the
    embedded restore statement is the entries of the tables, in order,
    joined by a comma and a space: one entry for each table, with its
    kind, its name, its new name when the database is mapped, and the
    partitions when it is a plain table and partitions are given. *)
Theorem embeddedTablesSQL_joins_entries (mapping : gmap string string)
    (partitions : list string) (tablesForRestore : list metadata.TableMetadata) :
  Forall (fun t => metadata.Query t <> "") tablesForRestore ->
  embeddedTablesSQL mapping partitions (length tablesForRestore) 0 tablesForRestore ""
  = strings.Join (embeddedEntry mapping partitions <$> tablesForRestore) ", ".
Proof.
  intros Hq.
  enough (Hgen : forall i tablesSQL,
    embeddedTablesSQL mapping partitions (i + length tablesForRestore) i tablesForRestore
      tablesSQL
    = tablesSQL +:+ strings.Join (embeddedEntry mapping partitions <$> tablesForRestore) ", ").
  { exact (Hgen 0 ""). }
  induction Hq as [|t rest Ht _ IH]; intros i tablesSQL.
  - simpl. by rewrite append_nil_r.
  - rewrite embeddedTablesSQL_cons by done.
    replace (i + length (t :: rest)) with (S i + length rest) by (simpl; lia).
    rewrite IH. rewrite fmap_cons.
    destruct rest as [|t2 rest'].
    + simpl. replace (Nat.ltb i (i + 0 - 0)) with false
        by (symmetry; apply Nat.ltb_ge; lia).
      by rewrite !append_nil_r.
    + replace (Nat.ltb i (S i + length (t2 :: rest') - 1)) with true
        by (symmetry; apply Nat.ltb_lt; simpl; lia).
      rewrite fmap_cons. cbn [strings.Join]. rewrite !app_assoc. reflexivity.
Qed.

Lemma embeddedTablesSQL_joins_entries_witness :
  embeddedTablesSQL {["db1" := "db2"]} ["20230101"] 2 0
    [examples.coldTable; examples.coldTable] ""
  = "TABLE `db1`.`t1` AS `db2`.`t1` PARTITIONS '20230101', TABLE `db1`.`t1` AS `db2`.`t1` PARTITIONS '20230101'".
Proof.
  rewrite (embeddedTablesSQL_joins_entries {["db1" := "db2"]} ["20230101"]
             [examples.coldTable; examples.coldTable]).
  - reflexivity.
  - repeat constructor; discriminate.
Defined.

End embedded_properties.

Module diskmap_properties.
Import spec spec_data backup.

(** X22.  The disk map [RestoreData] builds has an entry for exactly the
    names of the disks of the list, and the path of a name is the path of
    the last disk of the list with that name. *)
Theorem diskMapOf_last_path (disks : list clickhouse.Disk) (name : string) :
  diskMapOf disks !! name
    = clickhouse.DiskPath <$> last (filter (fun d => clickhouse.DiskName d = name) disks) /\
  (is_Some (diskMapOf disks !! name) <-> hasDiskNamed disks name = true).
Proof.
  assert (Hlookup : diskMapOf disks !! name
    = clickhouse.DiskPath <$> last (filter (fun d => clickhouse.DiskName d = name) disks)).
  { unfold diskMapOf. induction disks as [|d rest IH] using rev_ind; [done|].
    rewrite foldl_app, filter_app, filter_cons, filter_nil. simpl.
    destruct (decide (clickhouse.DiskName d = name)) as [->|Hne].
    - by rewrite lookup_insert_eq, last_snoc.
    - rewrite lookup_insert_ne by done. by rewrite app_nil_r. }
  split; [exact Hlookup|]. rewrite Hlookup. unfold hasDiskNamed.
  rewrite existsb_exists. split.
  - intros [p Hp]. destruct (last _) as [d|] eqn:Hlast; [|done].
    apply last_Some_elem_of in Hlast. apply list_elem_of_filter in Hlast as [Hname Hin].
    exists d. split; [by apply list_elem_of_In|by apply bool_decide_eq_true].
  - intros (d & Hin & Hname). apply bool_decide_eq_true in Hname.
    apply list_elem_of_In in Hin.
    assert (Hmem : d ∈ filter (fun d => clickhouse.DiskName d = name) disks).
    { by apply list_elem_of_filter. }
    destruct (filter _ disks) as [|x l] using rev_ind; [by apply elem_of_nil in Hmem|].
    rewrite last_snoc. by eexists.
Qed.

End diskmap_properties.
